(** * Note Companion: upload-processing worker and mobile sync queue

    A shallow embedding of

    - the background worker route [process-pending-uploads/route.ts], in the
      revision that re-uploads generated diagrams (kept in the source tree as
      [unnamed/part_003]; line numbers in the comments of [Worker] refer to
      it): download helper, OCR helper, diagram generation,
      [processSingleFileRecord] and the cron-triggered [GET] handler;
    - the mobile file handler ([unnamed/part_007]; line numbers in the
      comments of [Client] refer to it): [pollForResults],
      [generateTextPreview], [generatePreview], [prepareFile],
      [saveFileLocally], [addToSyncQueue] and [processSyncQueue];

    followed by the properties the specification states about them.

    Conventions.  A JavaScript string is a [string] (a sequence of code
    units below 256); [null]/[undefined] is [None]; a token count is an
    integer (never [NaN]).  A value thrown by JavaScript code
    is a [Js.thrown]; code that may throw lives in the [Js.outcome] monad, or
    in [Js.SM] when it also changes state, and [try]/[catch] is
    [Js.try_catch] or [Js.try_catchM].  Third-party services (object store,
    AI provider, database driver, usage metering, HTTP status endpoint, the
    upload path of the mobile app) are not part of the repository: they
    appear as fields of a services record or as fault tapes in the state, and
    every theorem quantifies over them.  The file system of the device is a
    [Client.Storage], which may reject any write, copy or directory
    creation; a statement that names no storage is about the one that
    accepts them all. *)

From Stdlib Require Import ZArith Ascii String List Bool Lia DecimalString.
From stdpp Require Import base option list strings gmap.

Open Scope string_scope.

(** ** JavaScript values and string primitives *)

Module Js.

(** What a [catch] clause can receive. *)
Inductive thrown : Type :=
| ErrorObj (message : string)
    (* [instanceof Error] *)
| PlainObj (message : option string) (nested_message : option string)
    (* an object that is not an [Error]: its [message] and [error.message] *)
| Primitive (repr : string).
    (* any other value; [repr] is [String(value)] *)

Inductive outcome (A : Type) : Type :=
| Returned (a : A)
| Threw (e : thrown).
Arguments Returned {A} a.
Arguments Threw {A} e.

Definition bind {A B} (m : outcome A) (k : A -> outcome B) : outcome B :=
  match m with
  | Returned a => k a
  | Threw e => Threw e
  end.

Definition try_catch {A} (m : outcome A) (handler : thrown -> outcome A)
  : outcome A :=
  match m with
  | Returned a => Returned a
  | Threw e => handler e
  end.

(** Code that reads and writes a state [S] and may throw; writes made
    before a throw stay. *)
Definition SM (S A : Type) : Type := S -> outcome A * S.

Definition ret {S A} (a : A) : SM S A := fun s => (Returned a, s).

Definition bindM {S A B} (m : SM S A) (k : A -> SM S B) : SM S B :=
  fun s =>
    match m s with
    | (Returned a, s') => k a s'
    | (Threw e, s') => (Threw e, s')
    end.

Definition try_catchM {S A} (m : SM S A) (handler : thrown -> SM S A)
  : SM S A :=
  fun s =>
    match m s with
    | (Returned a, s') => (Returned a, s')
    | (Threw e, s') => handler e s'
    end.

Definition lift {S A} (o : outcome A) : SM S A := fun s => (o, s).

(** [String(e)] for a caught value. *)
Definition String_of (e : thrown) : string :=
  match e with
  | ErrorObj m => "Error: " ++ m
  | PlainObj _ _ => "[object Object]"
  | Primitive r => r
  end.

(** [e instanceof Error ? e.message : String(e)] *)
Definition message_or_String (e : thrown) : string :=
  match e with
  | ErrorObj m => m
  | _ => String_of e
  end.

(** [e instanceof Error ? e.message : fallback] *)
Definition message_or (fallback : string) (e : thrown) : string :=
  match e with
  | ErrorObj m => m
  | _ => fallback
  end.

(** Truthiness of a string and of a nullable string. *)
Definition truthy (s : string) : bool := negb (String.eqb s "").

Definition truthy_opt (s : option string) : bool :=
  match s with
  | Some x => truthy x
  | None => false
  end.

(** [a || b] on nullable strings with a string default. *)
Definition or_default (a : option string) (b : string) : string :=
  match a with
  | Some x => if truthy x then x else b
  | None => b
  end.

Definition startsWith (s pre : string) : bool := String.prefix pre s.

(** [s.indexOf(pat, from)]; [None] is [-1]. *)
Definition indexOf (s pat : string) (from : nat) : option nat :=
  String.index from pat s.

Definition includes (s pat : string) : bool :=
  match indexOf s pat 0 with
  | Some _ => true
  | None => false
  end.

(** [s.substring(0, stop)] *)
Definition substring0 (s : string) (stop : nat) : string :=
  String.substring 0 stop s.

Fixpoint endsWith_list (l suf : list ascii) : bool :=
  if Nat.eqb (List.length l) (List.length suf)
  then bool_decide (l = suf)
  else match l with
       | [] => false
       | _ :: l' => endsWith_list l' suf
       end.

Definition endsWith (s suf : string) : bool :=
  endsWith_list (list_ascii_of_string s) (list_ascii_of_string suf).

(** [toLowerCase] on the ASCII letters; other code units are kept. *)
Definition lower_ascii (c : ascii) : ascii :=
  let n := nat_of_ascii c in
  if (65 <=? n)%nat && (n <=? 90)%nat then ascii_of_nat (n + 32) else c.

Fixpoint toLowerCase (s : string) : string :=
  match s with
  | EmptyString => EmptyString
  | String c s' => String (lower_ascii c) (toLowerCase s')
  end.

(** White space removed by [trim], among the code units below 256: tab,
    line feed, vertical tab, form feed, carriage return, space and the
    no-break space U+00A0. *)
Definition is_space (c : ascii) : bool :=
  let n := nat_of_ascii c in
  ((9 <=? n)%nat && (n <=? 13)%nat) || (n =? 32)%nat || (n =? 160)%nat.

Fixpoint trimStart (s : string) : string :=
  match s with
  | EmptyString => EmptyString
  | String c s' => if is_space c then trimStart s' else s
  end.

Definition rev_string (s : string) : string :=
  string_of_list_ascii (List.rev (list_ascii_of_string s)).

Definition trim (s : string) : string :=
  rev_string (trimStart (rev_string (trimStart s))).

(** [s.split(sep)] for a one-character separator. *)
Fixpoint split_acc (sep : ascii) (cur : string) (s : string) : list string :=
  match s with
  | EmptyString => [rev_string cur]
  | String c s' =>
      if Ascii.eqb c sep
      then rev_string cur :: split_acc sep EmptyString s'
      else split_acc sep (String c cur) s'
  end.

Definition split (s : string) (sep : ascii) : list string :=
  split_acc sep EmptyString s.

(** [parts.join(sep)] *)
Definition join (parts : list string) (sep : string) : string :=
  String.concat sep parts.

(** [parts.findIndex(p)]; [None] is [-1]. *)
Fixpoint findIndex {A} (p : A -> bool) (l : list A) : option nat :=
  match l with
  | [] => None
  | x :: l' => if p x then Some 0%nat else option_map S (findIndex p l')
  end.

(** Template-literal rendering of an integer. *)
Definition show_Z (z : Z) : string := NilZero.string_of_int (Z.to_int z).

Definition show_nat (n : nat) : string := show_Z (Z.of_nat n).

Definition LF : string := String (ascii_of_nat 10) EmptyString.

End Js.

Declare Scope outcome_scope.
Delimit Scope outcome_scope with outcome.

Notation "'let*' x ':=' m 'in' k" := (Js.bind m (fun x => k))
  (at level 10, x name, m at level 100, k at level 200) : outcome_scope.

Declare Scope effect_scope.
Delimit Scope effect_scope with effect.

Notation "'let*' x ':=' m 'in' k" := (Js.bindM m (fun x => k))
  (at level 10, x name, m at level 100, k at level 200) : effect_scope.

(** ** The background worker: process-pending-uploads/route.ts *)

Module Worker.
Import Js.
Local Open Scope outcome_scope.

(** *** Data model *)

Inductive Status : Type := StPending | StProcessing | StCompleted | StError.

Global Instance Status_eq_dec : EqDecision Status.
Proof. solve_decision. Defined.

(** A row of the [uploaded_files] table, restricted to the columns the
    worker reads or writes. *)
Record UploadedFile : Type := mkUploadedFile {
  id : Z;
  userId : string;
  blobUrl : string;
  r2Key : option string;
  fileType : string;
  processType : option string;
  originalName : string;
  status : Status;
  textContent : option string;
  generatedImageUrl : option string;
  tokensUsed : Z;
  error : option string;
  updatedAt : Z
}.

(** The object [processSingleFileRecord] resolves to. *)
Record ProcessingResult : Type := mkResult {
  res_status : Status;
  res_textContent : option string;
  res_generatedImageUrl : option string;
  res_tokensUsed : Z;
  res_error : option string
}.

(** The collaborators of the worker that live outside the repository.
    Each field answers one external call; [Threw] is the call rejecting. *)
Record Services : Type := mkServices {
  (* [r2Client.send(new GetObjectCommand(..))] followed by
     [Body.transformToByteArray()]: [None] is a response without Body *)
  r2_get : string -> outcome (option (list Byte.byte));
  (* [r2Client.send(new PutObjectCommand(..))]: key, body, content type *)
  r2_put : string -> list Byte.byte -> string -> outcome unit;
  (* [generateObject]: [object.markdown] and [usage?.totalTokens] *)
  generateObject : string -> outcome (string * option Z);
  (* [openaiImageClient.images.edit]: prepared image name, prompt;
     the answer is [response.data[0]?.b64_json] *)
  images_edit : string -> string -> outcome (option string);
  (* [fs.writeFileSync(path, buffer)] *)
  writeFileSync : string -> list Byte.byte -> outcome unit;
  (* [toFile(fs.createReadStream(path), name, {type})] *)
  toFile : string -> string -> string -> outcome string;
  (* [Buffer.from(s, "base64")] and [buffer.toString("utf-8")] *)
  base64_decode : string -> list Byte.byte;
  utf8_decode : list Byte.byte -> string;
  (* Node's [path] and [os] modules *)
  path_basename : string -> string;
  path_basename_ext : string -> string -> string;
  path_extname : string -> string;
  path_join : string -> string -> string;
  tmpdir : string;
  (* [Date.now()] at the two places it is read, [crypto.randomBytes(4)] *)
  date_now_temp : Z;
  date_now_key : Z;
  random_hex : string;
  (* environment *)
  R2_PUBLIC_URL : string;
  CRON_SECRET : option string
}.

(** *** Helpers of the route *)

(* lines 41-60 *)
Definition downloadFromR2 (svc : Services) (key : string)
  : outcome (list Byte.byte) :=
  try_catch
    (let* body := r2_get svc key in
     match body with
     | None => Threw (ErrorObj "No body received from R2 getObject")
     | Some bytes => Returned bytes
     end)
    (fun _ => Threw (ErrorObj ("Failed to download file from R2: " ++ key))).

(* [Math.ceil(n / 4)] *)
Definition ceil_div4 (n : nat) : Z := Z.of_nat ((n + 3) / 4).

(* lines 63-96; [usage] is [usage?.totalTokens]: [None] when it is null or
   undefined, an integer otherwise *)
Definition processImageWithGPT4one (svc : Services) (imageUrl : string)
  : string * Z :=
  match generateObject svc imageUrl with
  | Returned (markdown, usage) =>
      let textContent := if truthy markdown then markdown else "" in
      let tokensUsed :=
        match usage with
        | Some totalTokens => totalTokens
        | None => ceil_div4 (String.length textContent)
        end in
      (textContent, tokensUsed)
  | Threw e => ("Error processing image OCR: " ++ message_or_String e, 0%Z)
  end.

(* lines 99-116 *)
Definition uploadToR2 (svc : Services) (key : string) (body : list Byte.byte)
  (contentType : string) : outcome unit :=
  try_catch (r2_put svc key body contentType)
    (fun _ => Threw (ErrorObj ("Failed to upload file to R2: " ++ key))).

Record DiagramResult : Type := mkDiagram {
  dg_generatedImageUrl : string;
  dg_tokensUsed : Z;
  dg_error : option string
}.

(* lines 214-236: the message recovered from a caught value *)
Definition diagram_errorMessage (e : thrown) : string :=
  let unknown := "Unknown error generating diagram image" in
  match e with
  | PlainObj (Some m) _ => m
  | ErrorObj m => m
  | PlainObj None (Some nested) => if truthy nested then nested else unknown
  | PlainObj None None => unknown
  | Primitive _ => unknown
  end.

(* lines 119-256.  The [finally] block only unlinks the temporary file and
   swallows its own failure, so it does not show in the returned value. *)
Definition processMagicDiagram (svc : Services)
  (r2Key originalFileName userId : string) : DiagramResult :=
  let attempt : outcome DiagramResult :=
    let* originalImageBuffer := downloadFromR2 svc r2Key in
    let safeFileName := path_basename svc originalFileName in
    let extension :=
      if truthy (path_extname svc safeFileName)
      then path_extname svc safeFileName else ".png" in
    let tempOriginalFileName :=
      show_Z (date_now_temp svc) ++ "-"
      ++ path_basename_ext svc safeFileName extension ++ extension in
    let tempImagePath := path_join svc (tmpdir svc) tempOriginalFileName in
    let* _ := writeFileSync svc tempImagePath originalImageBuffer in
    let generationPrompt :=
      "Digitize this sketch image into a clean, well-rendered diagram suitable for digital files. Preserve the core elements and connections shown in the sketch. Original filename for context: "
      ++ originalFileName ++ "." in
    let fileExt := toLowerCase (path_extname svc tempImagePath) in
    let mimeType :=
      if String.eqb fileExt ".jpg" || String.eqb fileExt ".jpeg"
      then "image/jpeg"
      else if String.eqb fileExt ".webp" then "image/webp"
      else "image/png" in
    let* preparedImage :=
      toFile svc tempImagePath (path_basename svc tempImagePath) mimeType in
    let* imageBase64 := images_edit svc preparedImage generationPrompt in
    if negb (truthy_opt imageBase64)
    then Threw (ErrorObj
           "Image generation failed, no b64_json returned in the response.")
    else
      let generatedImageBuffer :=
        base64_decode svc (default "" imageBase64) in
      let uniqueSuffix := random_hex svc in
      let generatedFileExtension := ".png" in
      let generatedR2Key :=
        "generated/" ++ userId ++ "/" ++ show_Z (date_now_key svc) ++ "-"
        ++ uniqueSuffix ++ "-"
        ++ path_basename_ext svc originalFileName extension
        ++ generatedFileExtension in
      let* _ := uploadToR2 svc generatedR2Key generatedImageBuffer
                  "image/png" in
      let generatedPublicUrl := R2_PUBLIC_URL svc ++ "/" ++ generatedR2Key in
      let tokensUsed := 5000%Z in
      Returned (mkDiagram generatedPublicUrl tokensUsed None) in
  match attempt with
  | Returned r => r
  | Threw e =>
      mkDiagram "" 0
        (Some ("Error generating diagram: " ++ diagram_errorMessage e))
  end.

(** *** processSingleFileRecord *)

(* lines 274-304: the key stored on the row, or the part of [blobUrl] from
   its [uploads] segment on; [inl] is the early [return] of an error
   result. *)
Definition resolveR2Key (fileRecord : UploadedFile)
  : ProcessingResult + string :=
  let fileId := id fileRecord in
  let derived : ProcessingResult + option string :=
    if truthy_opt (r2Key fileRecord) then inr (r2Key fileRecord)
    else
      let urlParts := split (blobUrl fileRecord) "/" in
      let uploadSegmentIndex :=
        findIndex (fun part => String.eqb part "uploads") urlParts in
      match uploadSegmentIndex with
      | Some i =>
          if (i <? List.length urlParts - 1)%nat
          then inr (Some (join (drop i urlParts) "/"))
          else inl (mkResult StError None None 0
                 (Some ("Could not determine R2 key from blobUrl: "
                        ++ blobUrl fileRecord)))
      | None =>
          inl (mkResult StError None None 0
                 (Some ("Could not determine R2 key from blobUrl: "
                        ++ blobUrl fileRecord)))
      end in
  match derived with
  | inl early => inl early
  | inr k =>
      if negb (truthy_opt k)
      then inl (mkResult StError None None 0
                  (Some ("Missing R2 key for file ID " ++ show_Z fileId)))
      else inr (default "" k)
  end.

(** The four mutable locals of [processSingleFileRecord]. *)
Record Locals : Type := mkLocals {
  l_textContent : option string;
  l_generatedImageUrl : option string;
  l_tokensUsed : Z;
  l_processingError : option string
}.

(* lines 310-382: the body of the [try] block, as the values the locals hold
   when it completes *)
Definition strategy (svc : Services) (fileRecord : UploadedFile)
  (r2Key : string) : outcome Locals :=
  let fileId := id fileRecord in
  let userId := userId fileRecord in
  let processType := or_default (processType fileRecord) "standard-ocr" in
  let fileType := toLowerCase (fileType fileRecord) in
  if String.eqb processType "magic-diagram" && startsWith fileType "image/"
  then
    let result :=
      processMagicDiagram svc r2Key (originalName fileRecord) userId in
    if truthy_opt (dg_error result)
    then Returned
           (mkLocals
              (Some ("[Error generating diagram: "
                     ++ default "" (dg_error result) ++ "]"))
              None 0 (dg_error result))
    else Returned
           (mkLocals
              (Some ("[Generated Diagram Image]("
                     ++ dg_generatedImageUrl result ++ ")"))
              (Some (dg_generatedImageUrl result))
              (dg_tokensUsed result) None)
  else if String.eqb processType "standard-ocr"
          && startsWith fileType "image/"
  then
    if negb (truthy (blobUrl fileRecord))
    then Threw (ErrorObj ("Missing blobUrl for OCR processing of file ID "
                          ++ show_Z fileId))
    else
      let result := processImageWithGPT4one svc (blobUrl fileRecord) in
      let textContent := fst result in
      let tokensUsed := snd result in
      if startsWith textContent "Error processing image OCR"
      then Returned (mkLocals None None tokensUsed (Some textContent))
      else if negb (truthy textContent) || String.eqb (trim textContent) ""
      then Returned
             (mkLocals (Some "[OCR completed, but no text extracted]")
                None tokensUsed None)
      else Returned (mkLocals (Some textContent) None tokensUsed None)
  else if String.eqb fileType "application/pdf" || includes fileType "pdf"
  then Returned
         (mkLocals (Some "[PDF Content - Processing Pending Implementation]")
            None 0 (Some "PDF processing not yet implemented."))
  else if String.eqb fileType "text/plain"
          || String.eqb fileType "text/markdown"
  then
    let* buffer := downloadFromR2 svc r2Key in
    Returned (mkLocals (Some (utf8_decode svc buffer)) None 0 None)
  else
    Returned
      (mkLocals (Some ("[Unsupported: " ++ fileType ++ "]")) None 0
         (Some ("Unsupported file type/processType: " ++ fileType ++ " / "
                ++ processType))).

(* lines 383-390 *)
Definition strategy_catch (e : thrown) : outcome Locals :=
  Returned
    (mkLocals None None 0 (Some (message_or "Unknown processing error" e))).

(* lines 392-402 *)
Definition finalResult (l : Locals) : ProcessingResult :=
  let failed := truthy_opt (l_processingError l) in
  let finalStatus := if failed then StError else StCompleted in
  mkResult finalStatus
    (if failed
     then Some ("[Processing Error: " ++ default "" (l_processingError l)
                ++ "]")
     else l_textContent l)
    (l_generatedImageUrl l)
    (l_tokensUsed l)
    (l_processingError l).

(* lines 259-403 *)
Definition processSingleFileRecord (svc : Services)
  (fileRecord : UploadedFile) : outcome ProcessingResult :=
  match resolveR2Key fileRecord with
  | inl early => Returned early
  | inr r2Key =>
      let* locals := try_catch (strategy svc fileRecord r2Key)
                       strategy_catch in
      Returned (finalResult locals)
  end.

(** *** The database, the clock and the metering service *)

(** State the handler works on.  [db_faults] and [meter_faults] say how the
    coming [db.update] statements and metering calls end ([Some e]: the call
    rejects with [e]; an exhausted tape: the call succeeds); [metered] lists
    the calls made to [incrementAndLogTokenUsage], oldest first. *)
Record World : Type := mkWorld {
  rows : list UploadedFile;
  clock : Z;
  select_fault : option thrown;
  db_faults : list (option thrown);
  meter_faults : list (option thrown);
  metered : list (string * Z)
}.

(** The handler's state: the world and its two counters. *)
Record Run : Type := mkRun {
  world : World;
  processedCount : nat;
  errorCount : nat
}.

Definition M (A : Type) : Type := SM Run A.

Definition with_world (f : World -> World) (s : Run) : Run :=
  mkRun (f (world s)) (processedCount s) (errorCount s).

(* [new Date()] *)
Definition now : M Z :=
  fun s =>
    (Returned (clock (world s)),
     with_world (fun w =>
       mkWorld (rows w) (clock w + 1) (select_fault w) (db_faults w)
         (meter_faults w) (metered w)) s).

(* [update .. set .. where id = fileId] on the table *)
Definition update_where (fileId : Z) (set : UploadedFile -> UploadedFile)
  (table : list UploadedFile) : list UploadedFile :=
  map (fun r => if Z.eqb (id r) fileId then set r else r) table.

(* [db.update(uploadedFiles).set(..).where(eq(uploadedFiles.id, fileId))] *)
Definition db_update (fileId : Z) (set : UploadedFile -> UploadedFile)
  : M unit :=
  fun s =>
    let w := world s in
    match db_faults w with
    | Some e :: rest =>
        (Threw e,
         with_world (fun w =>
           mkWorld (rows w) (clock w) (select_fault w) rest
             (meter_faults w) (metered w)) s)
    | _ =>
        (Returned tt,
         with_world (fun w =>
           mkWorld (update_where fileId set (rows w)) (clock w) (select_fault w) (tail (db_faults w))
             (meter_faults w) (metered w)) s)
    end.

(* [incrementAndLogTokenUsage(userId, tokens)] of [@/lib] *)
Definition incrementAndLogTokenUsage (userId : string) (tokens : Z)
  : M unit :=
  fun s =>
    let called :=
      with_world (fun w =>
        mkWorld (rows w) (clock w) (select_fault w) (db_faults w)
          (tail (meter_faults w)) (metered w ++ [(userId, tokens)])) s in
    match meter_faults (world s) with
    | Some e :: _ => (Threw e, called)
    | _ => (Returned tt, called)
    end.

Definition incr_processedCount : M unit :=
  fun s => (Returned tt, mkRun (world s) (S (processedCount s)) (errorCount s)).

Definition incr_errorCount : M unit :=
  fun s => (Returned tt, mkRun (world s) (processedCount s) (S (errorCount s))).

Local Open Scope effect_scope.

(** *** The GET handler *)

(* line 480: [{status: "processing", updatedAt: new Date(), error: null}] *)
Definition set_claimed (t : Z) (r : UploadedFile) : UploadedFile :=
  mkUploadedFile (id r) (userId r) (blobUrl r) (r2Key r) (fileType r)
    (processType r) (originalName r)
    StProcessing (textContent r) (generatedImageUrl r) (tokensUsed r)
    None t.

(* lines 495-502 *)
Definition set_result (result : ProcessingResult) (t : Z)
  (r : UploadedFile) : UploadedFile :=
  mkUploadedFile (id r) (userId r) (blobUrl r) (r2Key r) (fileType r)
    (processType r) (originalName r)
    (res_status result) (res_textContent result)
    (res_generatedImageUrl result) (res_tokensUsed result)
    (res_error result) t.

(* lines 540-548 *)
Definition set_loop_error (dbUpdateError : thrown) (t : Z)
  (r : UploadedFile) : UploadedFile :=
  mkUploadedFile (id r) (userId r) (blobUrl r) (r2Key r) (fileType r)
    (processType r) (originalName r)
    StError (textContent r) (generatedImageUrl r) (tokensUsed r)
    (Some ("Processing Loop Error: " ++ message_or_String dbUpdateError))
    t.

(* lines 477-487 *)
Definition claim_step (fileRecord : UploadedFile) : M unit :=
  if bool_decide (status fileRecord <> StProcessing)
  then
    let* t := now in
    db_update (id fileRecord) (set_claimed t)
  else ret tt.

(* lines 493-503 *)
Definition commit_step (fileId : Z) (result : ProcessingResult) : M unit :=
  let* t := now in
  db_update fileId (set_result result t).

(* lines 510-528 *)
Definition meter_step (userId : string) (result : ProcessingResult)
  : M unit :=
  if bool_decide (res_status result = StCompleted)
     && (0 <? res_tokensUsed result)%Z
  then
    let* _ := incr_processedCount in
    try_catchM (incrementAndLogTokenUsage userId (res_tokensUsed result))
      (fun _ => ret tt)
  else if bool_decide (res_status result = StError)
  then incr_errorCount
  else incr_processedCount.

(* lines 529-556 *)
Definition fallback_step (fileId : Z) (dbUpdateError : thrown) : M unit :=
  let* _ := incr_errorCount in
  try_catchM
    (let* t := now in
     db_update fileId (set_loop_error dbUpdateError t))
    (fun _ => ret tt).

(* lines 470-557: the body of the [for] loop *)
Definition process_record (svc : Services) (fileRecord : UploadedFile)
  : M unit :=
  let fileId := id fileRecord in
  let userId := userId fileRecord in
  try_catchM
    (let* _ := claim_step fileRecord in
     let* result := lift (processSingleFileRecord svc fileRecord) in
     let* _ := commit_step fileId result in
     meter_step userId result)
    (fallback_step fileId).

Fixpoint process_all (svc : Services) (pendingFiles : list UploadedFile)
  : M unit :=
  match pendingFiles with
  | [] => ret tt
  | fileRecord :: rest =>
      let* _ := process_record svc fileRecord in
      process_all svc rest
  end.

(* lines 430-440: [select .. where status in (pending, processing) limit 10] *)
Definition claimable (r : UploadedFile) : bool :=
  bool_decide (status r = StPending) || bool_decide (status r = StProcessing).

Definition select_pending (w : World) : outcome (list UploadedFile) :=
  match select_fault w with
  | Some e => Threw e
  | None => Returned (take 10 (List.filter claimable (rows w)))
  end.

Record Request : Type := mkRequest { authorization : option string }.

(* line 410: [request.headers.get("authorization")?.split(" ")[1]] *)
Definition cronSecret (request : Request) : option string :=
  match authorization request with
  | Some header => nth_error (split header " ") 1
  | None => None
  end.

Inductive Response : Type :=
| Unauthorized                       (* 401, [{error: "Unauthorized"}] *)
| NoPendingFiles                     (* 200, [{message: "No pending files"}] *)
| ProcessingComplete (message : string)              (* 200, [{message}] *)
| JobFailed (details : string).                      (* 500 *)

(* line 560 *)
Definition summary (attempted succeeded errors : nat) : string :=
  "Processing complete. Attempted: " ++ show_nat attempted
  ++ ", Succeeded: " ++ show_nat succeeded
  ++ ", Errors: " ++ show_nat errors.

(* lines 407-572 *)
Definition GET (svc : Services) (request : Request) (w : World)
  : Response * World :=
  if negb (bool_decide (cronSecret request = CRON_SECRET svc))
  then (Unauthorized, w)
  else
    match select_pending w with
    | Threw e => (JobFailed (message_or_String e), w)
    | Returned pendingFiles =>
        if (List.length pendingFiles =? 0)%nat
        then (NoPendingFiles, w)
        else
          match process_all svc pendingFiles (mkRun w 0 0) with
          | (Returned _, s) =>
              (ProcessingComplete
                 (summary (List.length pendingFiles) (processedCount s)
                    (errorCount s)),
               world s)
          | (Threw e, s) => (JobFailed (message_or_String e), world s)
          end
    end.

End Worker.

(** ** The mobile file handler *)

Module Client.
Import Js.

(** *** Data model *)

Record SharedFile : Type := mkSharedFile {
  uri : option string;
  mimeType : option string;
  name : option string;
  text : option string
}.

(** The [text] of an upload result: a string, or an object with an optional
    [extractedText]. *)
Inductive ResultText : Type :=
| PlainText (s : string)
| Structured (extractedText : option string).

Record UploadResult : Type := mkUploadResult {
  ur_status : string;
  ur_text : option ResultText;
  ur_error : option string;
  ur_fileId : option string;
  ur_url : option string;
  ur_fileUrl : option string;
  ur_mimeType : option string;
  ur_fileName : option string
}.

(** The JSON object the status endpoint answers with. *)
Record Payload : Type := mkPayload {
  p_status : option string;
  p_text : option ResultText;
  p_error : option string;
  p_url : option string;
  p_fileUrl : option string;
  p_mimeType : option string;
  p_fileName : option string
}.

(** What [fetch] resolves to; [text_body] and [json_body] are
    [response.text()] and [response.json()]. *)
Record HttpResponse : Type := mkHttpResponse {
  ok : bool;
  http_status : nat;
  statusText : string;
  text_body : outcome string;
  json_body : outcome Payload
}.

(** Observable effects of polling, in the order they happen. *)
Inductive Event : Type :=
| Fetch (url token : string)
| Sleep (ms : nat).

Definition is_fetch (e : Event) : bool :=
  match e with
  | Fetch _ _ => true
  | Sleep _ => false
  end.

Definition requests (trace : list Event) : nat :=
  List.length (List.filter is_fetch trace).

(** *** pollForResults (lines 152-275) *)

Section Polling.

Variable API_URL : string.
(** The status endpoint: the answer to the [n]-th [fetch] of this call
    (from 0); [Threw] is the request failing. *)
Variable endpoint : nat -> outcome HttpResponse.

Variables (fileIdStr token : string).
Variables (maxAttempts pollInterval : nat).

Definition status_url : string :=
  API_URL ++ "/api/get-upload-status/" ++ fileIdStr.

(* [{...result, fileId: fileIdStr}] with [status] known to be a string *)
Definition with_fileId (status : string) (result : Payload) : UploadResult :=
  mkUploadResult status (p_text result) (p_error result) (Some fileIdStr)
    (p_url result) (p_fileUrl result) (p_mimeType result)
    (p_fileName result).

Definition error_result (message : string) : UploadResult :=
  mkUploadResult "error" None (Some message) (Some fileIdStr) None None None
    None.

(** What one turn of the [while] loop decides inside its [try] block. *)
Inductive Turn : Type :=
| Finish (result : UploadResult)
| Again.

(* lines 204-252 *)
Definition poll_turn (attempts : nat) : outcome Turn :=
  (let* response := endpoint attempts in
   if negb (ok response)
   then
     let* errorText := text_body response in
     if (http_status response =? 404)%nat
     then Returned Again
     else Returned Again
   else
     let* result := json_body response in
     if bool_decide (p_status result = Some "completed")
        || bool_decide (p_status result = Some "error")
     then Returned (Finish (with_fileId (default "" (p_status result)) result))
     else if bool_decide (p_status result = Some "processing")
             || bool_decide (p_status result = Some "pending")
     then Returned Again
     else Returned Again)%outcome.

(* lines 203-274.  [remaining] is [maxAttempts - attempts]: every turn that
   does not return adds one to [attempts], so the loop test
   [attempts < maxAttempts] is [remaining] being a successor. *)
Fixpoint poll_loop (remaining attempts : nat) : UploadResult * list Event :=
  match remaining with
  | O => (error_result "Timed out waiting for processing results", [])
  | S remaining' =>
      let request := Fetch status_url token in
      let again :=
        let rest := poll_loop remaining' (S attempts) in
        (fst rest, request :: Sleep pollInterval :: snd rest) in
      match poll_turn attempts with
      | Returned (Finish result) => (result, [request])
      | Returned Again => again
      | Threw _ =>
          if (maxAttempts <=? S attempts)%nat
          then (error_result "Max polling attempts reached after error",
                [request])
          else again
      end
  end.

(* lines 166-194 *)
Definition text_file_status : UploadResult * list Event :=
  let attempt : outcome UploadResult :=
    (let* statusResponse := endpoint 0%nat in
     if negb (ok statusResponse)
     then Threw (ErrorObj ("Failed to get initial status for text file: "
                           ++ statusText statusResponse))
     else
       let* finalResult := json_body statusResponse in
       Returned (with_fileId (or_default (p_status finalResult) "completed")
                   finalResult))%outcome in
  (match attempt with
   | Returned r => r
   | Threw _ => error_result "Failed to get final details for text file"
   end,
   [Fetch status_url token]).

End Polling.

(* lines 152-275; the defaults of the last three parameters are 30, 2000
   and 3000 *)
Definition pollForResults (API_URL : string)
  (endpoint : nat -> outcome HttpResponse) (fileIdStr token : string)
  (isTextFile : bool) (maxAttempts initialDelay pollInterval : nat)
  : UploadResult * list Event :=
  if isTextFile then text_file_status API_URL endpoint fileIdStr token
  else
    let polled :=
      poll_loop API_URL endpoint fileIdStr token maxAttempts pollInterval
        maxAttempts 0 in
    (fst polled, Sleep initialDelay :: snd polled).

(** *** Previews (lines 609-674) *)

(* [Math.max(...points)] of a non-empty array *)
Definition Math_max (points : list nat) : nat := foldr Nat.max 0%nat points.

(* lines 609-624 *)
Definition generateTextPreview (text : string) (maxLength : nat) : string :=
  if negb (truthy text) || (String.length text <=? maxLength)%nat then text
  else
    let from := (maxLength / 2)%nat in
    let breakPoints :=
      omap (fun point : option nat =>
              match point with
              | Some p => if (p <? maxLength)%nat then Some p else None
              | None => None
              end)
        [ indexOf text (LF ++ LF) from;
          indexOf text ". " from;
          indexOf text "? " from;
          indexOf text "! " from ] in
    let breakPoint :=
      match breakPoints with
      | [] => maxLength
      | _ => (Math_max breakPoints + 1)%nat
      end in
    substring0 text breakPoint ++ "...".

(** *** The device: local files, the sync queue, the clock *)

Inductive PreviewType : Type := PvText | PvImage | PvOther.

Record Preview : Type := mkPreview {
  previewText : option string;
  thumbnailUri : option string;
  previewType : PreviewType
}.

(** The object kept in an item's [metadata.json]. *)
Record Metadata : Type := mkMetadata {
  md_name : option string;
  md_mimeType : option string;
  md_textPreview : option string;
  md_thumbnailUri : option string;
  md_previewType : PreviewType;
  md_localId : string;
  md_createdAt : Z;
  md_status : string;
  md_serverFileId : option string;
  md_lastAttempt : option Z;
  md_error : option string;
  md_processedTextPreview : option string;
  md_processedAt : option Z
}.

(** A file of an item directory: serialized metadata or any other
    content. *)
Inductive FileData : Type :=
| MetaFile (m : Metadata)
| Blob (content : string).

(** An item directory [pending_uploads/<localId>/]: its files in listing
    order. *)
Definition ItemDir : Type := list (string * FileData).

(** What the device stores.  [sync_queue] is the parsed [sync_queue.json]
    ([None]: no such file), [pending_uploads] the item directories by local
    id, [files] every file outside the item directories by URI,
    [directories] the directories outside the item directories that exist,
    by URI.  Reading a file that exists succeeds; reading a missing file
    throws. *)
Record Device : Type := mkDevice {
  sync_queue : option (list string);
  pending_uploads : gmap string ItemDir;
  files : gmap string string;
  directories : gset string;
  dclock : Z
}.

(** What a write, a copy or a directory creation is aimed at. *)
Inductive Target : Type :=
| QueueFile
    (* [sync_queue.json] *)
| Directory (uri : string)
    (* a directory outside the item directories *)
| ItemDirectory (localId : string)
    (* [pending_uploads/<localId>/] *)
| ItemFile (localId entry : string)
    (* a file of an item directory *)
| PlainFile (uri : string).
    (* any other file *)

(** The storage below [expo-file-system] may reject a write: full disk,
    missing parent directory, revoked permission.  [write_rejected target t]
    is what the write aimed at [target] at instant [t] of the device clock
    rejects with, if it does. *)
Class Storage : Type := mkStorage {
  write_rejected : Target -> Z -> option thrown
}.

(** The storage that accepts every write.  A statement that names no
    storage is about this one. *)
#[global] Instance reliable_storage : Storage :=
  {| write_rejected := fun _ _ => None |}.

Inductive Platform : Type := Ios | Android | OtherPlatform.

(** One callback invocation of the upload path: the reported status and
    [details?.fileId]. *)
Definition StatusUpdate : Type := (string * option string)%type.

(** What the handler takes from its surroundings. [handleFileProcess] is the
    upload-and-process path of the app: the status updates it reports through
    its callback, then its result or the value it throws. *)
Record Host : Type := mkHost {
  documentDirectory : string;
  cacheDirectory : string;
  platform : Platform;
  Math_random_10000 : nat;
  handleFileProcess :
    SharedFile -> string -> list StatusUpdate * outcome UploadResult
}.

Definition D (A : Type) : Type := SM Device A.

Local Open Scope effect_scope.

Section OnStorage.

Context {storage : Storage}.

Definition fs_error (what : string) : thrown := ErrorObj what.

(* [Date.now()] and [new Date().toISOString()] *)
Definition Date_now : D Z :=
  fun d =>
    (Returned (dclock d),
     mkDevice (sync_queue d) (pending_uploads d) (files d) (directories d)
       (dclock d + 1)).

(* a write that the storage may reject *)
Definition accepted {A} (target : Target) (write : D A) : D A :=
  fun d =>
    match write_rejected target (dclock d) with
    | Some e => (Threw e, d)
    | None => write d
    end.

Fixpoint dir_lookup (entry : string) (dir : ItemDir) : option FileData :=
  match dir with
  | [] => None
  | (n, data) :: dir' =>
      if String.eqb n entry then Some data else dir_lookup entry dir'
  end.

Fixpoint dir_write (entry : string) (data : FileData) (dir : ItemDir)
  : ItemDir :=
  match dir with
  | [] => [(entry, data)]
  | (n, old) :: dir' =>
      if String.eqb n entry then (n, data) :: dir'
      else (n, old) :: dir_write entry data dir'
  end.

(* [(await FileSystem.getInfoAsync(SYNC_QUEUE_FILE)).exists] *)
Definition queue_exists : D bool :=
  fun d => (Returned (bool_decide (is_Some (sync_queue d))), d).

(* [JSON.parse(await FileSystem.readAsStringAsync(SYNC_QUEUE_FILE))] *)
Definition read_queue : D (list string) :=
  fun d =>
    match sync_queue d with
    | Some queue => (Returned queue, d)
    | None => (Threw (fs_error "sync_queue.json could not be read"), d)
    end.

(* [FileSystem.writeAsStringAsync(SYNC_QUEUE_FILE, JSON.stringify(queue))] *)
Definition write_queue (queue : list string) : D unit :=
  accepted QueueFile
    (fun d =>
       (Returned tt,
        mkDevice (Some queue) (pending_uploads d) (files d) (directories d)
          (dclock d))).

(* [(await FileSystem.getInfoAsync(fileDir)).exists] *)
Definition dir_exists (localId : string) : D bool :=
  fun d =>
    (Returned (bool_decide (is_Some (pending_uploads d !! localId))), d).

(* [(await FileSystem.getInfoAsync(uri)).exists] of a directory outside the
   item directories *)
Definition directory_exists (uri : string) : D bool :=
  fun d => (Returned (bool_decide (uri ∈ directories d)), d).

(* [FileSystem.makeDirectoryAsync(uri, { intermediates: true })] *)
Definition make_directory (uri : string) : D unit :=
  accepted (Directory uri)
    (fun d =>
       (Returned tt,
        mkDevice (sync_queue d) (pending_uploads d) (files d)
          ({[ uri ]} ∪ directories d) (dclock d))).

(* [(await FileSystem.getInfoAsync(PENDING_UPLOADS_DIR)).exists]: the
   directory was created, or it has item directories in it *)
Definition pending_uploads_exists (host : Host) : D bool :=
  fun d =>
    (Returned
       (bool_decide
          (documentDirectory host ++ "pending_uploads/" ∈ directories d)
        || match map_to_list (pending_uploads d) with
           | [] => false
           | _ :: _ => true
           end), d).

(* lines 292-297 *)
Definition ensurePendingUploadsDir (host : Host) : D unit :=
  let PENDING_UPLOADS_DIR := documentDirectory host ++ "pending_uploads/" in
  let* dirInfoExists := pending_uploads_exists host in
  if negb dirInfoExists then make_directory PENDING_UPLOADS_DIR else ret tt.

(* [FileSystem.makeDirectoryAsync(fileDir)], without [intermediates] *)
Definition make_item_dir (host : Host) (localId : string) : D unit :=
  let* parentExists := pending_uploads_exists host in
  if negb parentExists
  then lift (Threw (fs_error "parent directory does not exist"))
  else
    fun d =>
      match pending_uploads d !! localId with
      | Some _ => (Threw (fs_error "directory exists"), d)
      | None =>
          accepted (ItemDirectory localId)
            (fun d =>
               (Returned tt,
                mkDevice (sync_queue d)
                  (<[localId := []]> (pending_uploads d))
                  (files d) (directories d) (dclock d))) d
      end.

(* [(await FileSystem.getInfoAsync(fileDir + entry)).exists] *)
Definition entry_exists (localId entry : string) : D bool :=
  fun d =>
    (Returned
       (match pending_uploads d !! localId with
        | Some dir => bool_decide (is_Some (dir_lookup entry dir))
        | None => false
        end), d).

(* [FileSystem.readDirectoryAsync(fileDir)] *)
Definition read_dir (localId : string) : D (list string) :=
  fun d =>
    match pending_uploads d !! localId with
    | Some dir => (Returned (map fst dir), d)
    | None => (Threw (fs_error "directory could not be read"), d)
    end.

(* [FileSystem.readAsStringAsync(fileDir + entry)] of a content file *)
Definition read_entry (localId entry : string) : D string :=
  fun d =>
    match pending_uploads d !! localId with
    | Some dir =>
        match dir_lookup entry dir with
        | Some (Blob content) => (Returned content, d)
        | Some (MetaFile _) =>
            (Threw (fs_error "not a content file"), d)
        | None => (Threw (fs_error "file could not be read"), d)
        end
    | None => (Threw (fs_error "file could not be read"), d)
    end.

(* [JSON.parse(await FileSystem.readAsStringAsync(fileDir + "metadata.json"))] *)
Definition read_metadata (localId : string) : D Metadata :=
  fun d =>
    match pending_uploads d !! localId with
    | Some dir =>
        match dir_lookup "metadata.json" dir with
        | Some (MetaFile m) => (Returned m, d)
        | Some (Blob _) => (Threw (fs_error "metadata is not JSON"), d)
        | None => (Threw (fs_error "file could not be read"), d)
        end
    | None => (Threw (fs_error "file could not be read"), d)
    end.

(* [FileSystem.writeAsStringAsync(fileDir + entry, data)] *)
Definition write_entry (localId entry : string) (data : FileData) : D unit :=
  fun d =>
    match pending_uploads d !! localId with
    | Some dir =>
        accepted (ItemFile localId entry)
          (fun d =>
             (Returned tt,
              mkDevice (sync_queue d)
                (<[localId := dir_write entry data dir]> (pending_uploads d))
                (files d) (directories d) (dclock d))) d
    | None => (Threw (fs_error "directory does not exist"), d)
    end.

Definition write_metadata (localId : string) (metadata : Metadata)
  : D unit :=
  write_entry localId "metadata.json" (MetaFile metadata).

(* [FileSystem.writeAsStringAsync(uri, content)] outside the item
   directories *)
Definition write_file (target content : string) : D unit :=
  accepted (PlainFile target)
    (fun d =>
       (Returned tt,
        mkDevice (sync_queue d) (pending_uploads d)
          (<[target := content]> (files d)) (directories d) (dclock d))).

(* [FileSystem.copyAsync({from, to})] to a file outside the item
   directories *)
Definition copy_file (from target : string) : D unit :=
  fun d =>
    match files d !! from with
    | Some content => write_file target content d
    | None => (Threw (fs_error "source file could not be read"), d)
    end.

(* [FileSystem.copyAsync({from, to: fileDir + entry})] *)
Definition copy_into_dir (from localId entry : string) : D unit :=
  fun d =>
    match files d !! from with
    | Some content => write_entry localId entry (Blob content) d
    | None => (Threw (fs_error "source file could not be read"), d)
    end.

(** *** Saving a shared file locally (lines 66-144, 292-395, 629-674) *)

Definition last_part (parts : list string) : option string := last parts.

(* [s.replace(pat, rep)] with a string pattern: the first occurrence *)
Definition replace_first (s pat rep : string) : string :=
  match indexOf s pat 0 with
  | Some i =>
      String.substring 0 i s ++ rep
      ++ String.substring (i + String.length pat)
           (String.length s - (i + String.length pat)) s
  | None => s
  end.

Definition mime_of_extension (fileExtension : option string) : string :=
  match fileExtension with
  | Some ext =>
      if String.eqb ext "jpg" || String.eqb ext "jpeg" then "image/jpeg"
      else if String.eqb ext "png" then "image/png"
      else if String.eqb ext "gif" then "image/gif"
      else if String.eqb ext "pdf" then "application/pdf"
      else if String.eqb ext "md" then "text/markdown"
      else if String.eqb ext "txt" then "text/plain"
      else if String.eqb ext "doc" || String.eqb ext "docx"
      then "application/msword"
      else "application/octet-stream"
  | None => "application/octet-stream"
  end.

(* lines 66-144 *)
Definition prepareFile (host : Host) (file : SharedFile)
  : D (string * string * option string) :=
  let* fileName :=
    (if truthy_opt (name file) then ret (default "" (name file))
     else
       let* t := Date_now in
       let from_mime :=
         match mimeType file with
         | Some m => nth_error (split m "/") 1
         | None => None
         end in
       let from_uri :=
         match uri file with
         | Some u => last_part (split u ".")
         | None => None
         end in
       let extension :=
         if truthy_opt from_mime then default "" from_mime
         else or_default from_uri "file" in
       ret ("shared-" ++ show_Z t ++ "." ++ extension)) in
  let mimeType_ :=
    if truthy_opt (mimeType file) then default "" (mimeType file)
    else if truthy_opt (uri file)
    then mime_of_extension
           (option_map toLowerCase
              (last_part (split (default "" (uri file)) ".")))
    else "application/octet-stream" in
  if truthy_opt (text file)
  then
    let fileUri := cacheDirectory host ++ fileName in
    let* _ := write_file fileUri (default "" (text file)) in
    ret (fileName, mimeType_, Some fileUri)
  else if truthy_opt (uri file)
  then
    let u := default "" (uri file) in
    ret (fileName, mimeType_,
         Some match platform host with
              | Ios => replace_first u "file://" ""
              | Android => u
              | OtherPlatform => u
              end)
  else ret (fileName, mimeType_, None).

(* lines 629-674 *)
Definition generatePreview (host : Host) (file : SharedFile)
  (localId : string) : D Preview :=
  let previewsDir := documentDirectory host ++ "previews/" in
  let other :=
    mkPreview (Some (or_default (name file) "File")) None PvOther in
  let* dirInfoExists := directory_exists previewsDir in
  let* _ :=
    (if negb dirInfoExists then make_directory previewsDir else ret tt) in
  if truthy_opt (text file)
  then ret (mkPreview
              (Some (generateTextPreview (default "" (text file)) 150))
              None PvText)
  else if truthy_opt (uri file)
          && match mimeType file with
             | Some m => startsWith m "image/"
             | None => false
             end
  then
    try_catchM
      (let thumbnailUri_ := previewsDir ++ localId ++ "-thumb.jpg" in
       let* _ := copy_file (default "" (uri file)) thumbnailUri_ in
       ret (mkPreview None (Some thumbnailUri_) PvImage))
      (fun _ => ret other)
  else ret other.

(* lines 369-395 *)
Definition addToSyncQueue (localId : string) : D unit :=
  try_catchM
    (let* queue :=
       try_catchM
         (let* queueInfoExists := queue_exists in
          if queueInfoExists then read_queue else ret [])
         (fun _ => ret []) in
     if negb (bool_decide (localId ∈ queue))
     then write_queue (queue ++ [localId])
     else ret tt)
    (fun _ => ret tt).

(* lines 302-364 *)
Definition saveFileLocally (host : Host) (file : SharedFile)
  : D (string * Preview) :=
  let* _ := ensurePendingUploadsDir host in
  let* t := Date_now in
  let localId :=
    "local-" ++ show_Z t ++ "-" ++ show_nat (Math_random_10000 host) in
  let* _ := make_item_dir host localId in
  let* preview := generatePreview host file localId in
  let* createdAt := Date_now in
  let metadata :=
    mkMetadata (name file) (mimeType file) (previewText preview)
      (thumbnailUri preview) (previewType preview) localId createdAt
      "pending" None None None None None in
  let* _ := write_metadata localId metadata in
  let* _ :=
    (if truthy_opt (text file)
     then write_entry localId "content.txt" (Blob (default "" (text file)))
     else if truthy_opt (uri file)
     then
       let* prepared := prepareFile host file in
       let fileName := fst (fst prepared) in
       copy_into_dir (default "" (uri file)) localId fileName
     else ret tt) in
  let* _ := addToSyncQueue localId in
  ret (localId, preview).

End OnStorage.

(** *** Draining the sync queue (lines 400-551) *)

(** The locals [metadata] and [queue] of [processSyncQueue], next to the
    device: assignments made inside its inner [try] are seen by its
    [catch]. *)
Record Sync : Type := mkSync {
  device : Device;
  metadata : Metadata;
  queue : list string
}.

Definition on_device {A} (m : D A) : SM Sync A :=
  fun s =>
    let '(o, d) := m (device s) in
    (o, mkSync d (metadata s) (queue s)).

Definition get_metadata : SM Sync Metadata :=
  fun s => (Returned (metadata s), s).

Definition get_queue : SM Sync (list string) :=
  fun s => (Returned (queue s), s).

Definition assign_metadata (f : Metadata -> Metadata) : SM Sync unit :=
  fun s => (Returned tt, mkSync (device s) (f (metadata s)) (queue s)).

Definition assign_queue (f : list string -> list string) : SM Sync unit :=
  fun s => (Returned tt, mkSync (device s) (metadata s) (f (queue s))).

Definition set_status (v : string) (m : Metadata) : Metadata :=
  mkMetadata (md_name m) (md_mimeType m) (md_textPreview m)
    (md_thumbnailUri m) (md_previewType m) (md_localId m) (md_createdAt m)
    v (md_serverFileId m) (md_lastAttempt m) (md_error m)
    (md_processedTextPreview m) (md_processedAt m).

Definition set_serverFileId (v : option string) (m : Metadata) : Metadata :=
  mkMetadata (md_name m) (md_mimeType m) (md_textPreview m)
    (md_thumbnailUri m) (md_previewType m) (md_localId m) (md_createdAt m)
    (md_status m) v (md_lastAttempt m) (md_error m)
    (md_processedTextPreview m) (md_processedAt m).

Definition set_lastAttempt (v : option Z) (m : Metadata) : Metadata :=
  mkMetadata (md_name m) (md_mimeType m) (md_textPreview m)
    (md_thumbnailUri m) (md_previewType m) (md_localId m) (md_createdAt m)
    (md_status m) (md_serverFileId m) v (md_error m)
    (md_processedTextPreview m) (md_processedAt m).

Definition set_error (v : option string) (m : Metadata) : Metadata :=
  mkMetadata (md_name m) (md_mimeType m) (md_textPreview m)
    (md_thumbnailUri m) (md_previewType m) (md_localId m) (md_createdAt m)
    (md_status m) (md_serverFileId m) (md_lastAttempt m) v
    (md_processedTextPreview m) (md_processedAt m).

Definition set_processedTextPreview (v : option string) (m : Metadata)
  : Metadata :=
  mkMetadata (md_name m) (md_mimeType m) (md_textPreview m)
    (md_thumbnailUri m) (md_previewType m) (md_localId m) (md_createdAt m)
    (md_status m) (md_serverFileId m) (md_lastAttempt m) (md_error m)
    v (md_processedAt m).

Definition set_processedAt (v : option Z) (m : Metadata) : Metadata :=
  mkMetadata (md_name m) (md_mimeType m) (md_textPreview m)
    (md_thumbnailUri m) (md_previewType m) (md_localId m) (md_createdAt m)
    (md_status m) (md_serverFileId m) (md_lastAttempt m) (md_error m)
    (md_processedTextPreview m) v.

(* lines 489-498: the status callback handed to [handleFileProcess] *)
Definition on_status (m : Metadata) (update : StatusUpdate) : Metadata :=
  let '(status, fileId) := update in
  if negb (String.eqb (md_status m) status)
  then
    let m' := set_status status m in
    if truthy_opt fileId then set_serverFileId fileId m' else m'
  else m.

(* line 489: the call itself; the callback runs while it is in flight *)
Definition call_handleFileProcess (host : Host) (sharedFile : SharedFile)
  (token : string) : SM Sync UploadResult :=
  fun s =>
    let '(updates, result) := handleFileProcess host sharedFile token in
    (result, mkSync (device s) (foldl on_status (metadata s) updates)
               (queue s)).

(* [queue.shift()] and [queue.push(queue.shift()!)] *)
Definition shift (queue : list string) : list string := tail queue.

Definition rotate (queue : list string) : list string :=
  match queue with
  | [] => []
  | first :: rest => rest ++ [first]
  end.

(* lines 507-511 *)
Definition processed_preview (result : UploadResult) (m : Metadata)
  : Metadata :=
  match ur_text result with
  | Some (PlainText t) =>
      set_processedTextPreview (Some (generateTextPreview t 50)) m
  | Some (Structured (Some extracted)) =>
      if truthy extracted
      then set_processedTextPreview
             (Some (generateTextPreview extracted 50)) m
      else m
  | _ => m
  end.

Section DrainingOnStorage.

Context {storage : Storage}.

(* lines 486-542 *)
Definition upload_attempt (host : Host) (localId : string)
  (sharedFile : SharedFile) (token : string) : SM Sync unit :=
  let store_metadata : SM Sync unit :=
    let* m := get_metadata in
    on_device (write_metadata localId m) in
  let store_queue : SM Sync unit :=
    let* q := get_queue in
    on_device (write_queue q) in
  try_catchM
    (let* result := call_handleFileProcess host sharedFile token in
     let* t := on_device Date_now in
     let* _ := assign_metadata (set_lastAttempt (Some t)) in
     if String.eqb (ur_status result) "completed"
     then
       let* _ := assign_metadata (set_status "completed") in
       let* _ := assign_metadata (set_serverFileId (ur_fileId result)) in
       let* _ := assign_metadata (processed_preview result) in
       let* t' := on_device Date_now in
       let* _ := assign_metadata (set_processedAt (Some t')) in
       let* _ := assign_metadata (set_error None) in
       let* _ := store_metadata in
       let* _ := assign_queue shift in
       store_queue
     else if String.eqb (ur_status result) "error"
     then
       let* _ := assign_metadata (set_status "error") in
       let* _ := assign_metadata
                   (set_error
                      (Some (or_default (ur_error result)
                               "Unknown processing error"))) in
       let* _ := store_metadata in
       let* _ := assign_queue rotate in
       store_queue
     else ret tt)
    (fun processError =>
       let* _ := assign_metadata (set_status "error") in
       let* _ := assign_metadata
                   (set_error
                      (Some (message_or "Critical processing error"
                               processError))) in
       let* t := on_device Date_now in
       let* _ := assign_metadata (set_lastAttempt (Some t)) in
       let* _ := store_metadata in
       let* _ := assign_queue rotate in
       store_queue).

Definition is_content_name (entry : string) : bool :=
  negb (endsWith entry ".json") && negb (endsWith entry ".txt").

(* lines 450-483: the [SharedFile] rebuilt from the item directory; [None]
   when the directory holds no content file *)
Definition load_shared_file (host : Host) (localId : string)
  (metadata : Metadata) : D (option SharedFile) :=
  let PENDING_UPLOADS_DIR := documentDirectory host ++ "pending_uploads/" in
  let fileDir := PENDING_UPLOADS_DIR ++ localId ++ "/" in
  let sharedFile :=
    mkSharedFile None (md_mimeType metadata) (md_name metadata) None in
  let* contentInfoTxtExists := entry_exists localId "content.txt" in
  if contentInfoTxtExists
  then
    let* content := read_entry localId "content.txt" in
    ret (Some (mkSharedFile (uri sharedFile) (mimeType sharedFile)
                 (name sharedFile) (Some content)))
  else
    let* dirContents := read_dir localId in
    let fileNames := List.filter is_content_name dirContents in
    match fileNames with
    | first :: _ =>
        ret (Some (mkSharedFile (Some (fileDir ++ first))
                     (mimeType sharedFile) (name sharedFile)
                     (text sharedFile)))
    | [] => ret None
    end.

(* lines 400-551 *)
Definition processSyncQueue (host : Host) (token : string) : D bool :=
  try_catchM
    (let* queueInfoExists := queue_exists in
     if negb queueInfoExists then ret false
     else
       let* queue := read_queue in
       match queue with
       | [] => ret false
       | localId :: _ =>
           let* dirInfoExists := dir_exists localId in
           if negb dirInfoExists
           then
             let* _ := write_queue (shift queue) in
             ret (0 <? List.length (shift queue))%nat
           else
             let* metadata := read_metadata localId in
             if String.eqb (md_status metadata) "completed"
             then
               let* _ := write_queue (shift queue) in
               ret (0 <? List.length (shift queue))%nat
             else
               let* loaded := load_shared_file host localId metadata in
               match loaded with
               | Some sharedFile =>
                   fun d =>
                     let '(o, s) :=
                       upload_attempt host localId sharedFile token
                         (mkSync d metadata queue) in
                     (match o with
                      | Returned _ =>
                          Returned (0 <? List.length (Client.queue s))%nat
                      | Threw e => Threw e
                      end, device s)
               | None =>
                   let metadata' :=
                     set_error (Some "Local content file missing")
                       (set_status "error" metadata) in
                   let* _ := write_metadata localId metadata' in
                   let* _ := write_queue (shift queue) in
                   ret (0 <? List.length (shift queue))%nat
               end
       end)
    (fun _ => ret false).

(** *** Content screening and pattern escaping (lines 38-60, 281-283) *)

Record Moderation : Type := mkModeration {
  isAppropriate : bool;
  reason : option string
}.

Definition checkTerms : list string :=
  ["explicit"; "inappropriate"; "offensive"; "banned"].

(* lines 50-59: the [for] loop over the terms *)
Fixpoint screen_terms (text : string) (terms : list string) : Moderation :=
  match terms with
  | [] => mkModeration true None
  | term :: rest =>
      if includes (toLowerCase text) term
      then mkModeration false
             (Some ("Content contains potentially inappropriate material ("
                    ++ term ++ ")"))
      else screen_terms text rest
  end.

(* lines 38-60 *)
Definition moderateContent (text : option string) : Moderation :=
  if negb (truthy_opt text) then mkModeration true None
  else screen_terms (default "" text) checkTerms.

(* the character class [.*+?^${}()|[\]\\] *)
Definition is_regexp_special (c : ascii) : bool :=
  bool_decide
    (c ∈ list_ascii_of_string ".*+?^${}()|[]\").

(* lines 281-283: [string.replace(/[.*+?^${}()|[\]\\]/g, '\\$&')] *)
Fixpoint escapeRegExp (s : string) : string :=
  match s with
  | EmptyString => EmptyString
  | String c s' =>
      if is_regexp_special c
      then String "\"%char (String c (escapeRegExp s'))
      else String c (escapeRegExp s')
  end.

(** *** Listing the local files (lines 679-734) *)

Record LocalFile : Type := mkLocalFile {
  lf_id : string;
  lf_name : string;
  lf_mimeType : string;
  lf_status : string;
  lf_createdAt : Z;
  lf_previewText : option string;
  lf_thumbnailUri : option string;
  lf_previewType : PreviewType;
  lf_error : option string
}.

(* lines 709-719 *)
Definition local_file_of (dir : string) (m : Metadata) : LocalFile :=
  mkLocalFile
    (if truthy (md_localId m) then md_localId m else dir)
    (or_default (md_name m) "Unnamed file")
    (or_default (md_mimeType m) "application/octet-stream")
    (if truthy (md_status m) then md_status m else "pending")
    (md_createdAt m)
    (md_textPreview m) (md_thumbnailUri m) (md_previewType m) (md_error m).

(* lines 700-724: one turn of the loop over the directories; a directory
   without [metadata.json], or with one that does not parse, adds nothing *)
Definition list_entry (entry : string * ItemDir) : option LocalFile :=
  match dir_lookup "metadata.json" (snd entry) with
  | Some (MetaFile m) => Some (local_file_of (fst entry) m)
  | _ => None
  end.

(* [localFiles.sort((a, b) => time(b.createdAt) - time(a.createdAt))]: a
   stable sort, newest first *)
Fixpoint insert_newest_first (x : LocalFile) (l : list LocalFile)
  : list LocalFile :=
  match l with
  | [] => [x]
  | y :: l' =>
      if (lf_createdAt y <=? lf_createdAt x)%Z then x :: y :: l'
      else y :: insert_newest_first x l'
  end.

Definition sort_newest_first (l : list LocalFile) : list LocalFile :=
  foldr insert_newest_first [] l.

(* [FileSystem.readDirectoryAsync(PENDING_UPLOADS_DIR)]: the item
   directories, in the map's own order *)
Definition read_pending_uploads : D (list (string * ItemDir)) :=
  fun d => (Returned (map_to_list (pending_uploads d)), d).

(* lines 679-734 *)
Definition getLocalFiles (host : Host) : D (list LocalFile) :=
  try_catchM
    (let* _ := ensurePendingUploadsDir host in
     let* dirs := read_pending_uploads in
     let localFiles := omap list_entry dirs in
     ret (sort_newest_first localFiles))
    (fun _ => ret []).

(** *** Local-first intake and the background driver (lines 556-604) *)

(* lines 584-604; [onLocalSaveComplete] receives the preview *)
Definition handleSharedFile (host : Host) (file : SharedFile)
  : D (string * Preview) :=
  try_catchM (saveFileLocally host file) (fun e => lift (Threw e)).

(* lines 560-575: one run of [processNextItem]; the first component tells
   whether it armed the timer for another run *)
Definition processNextItem (host : Host) (token : string)
  (state : bool * Device) : bool * (bool * Device) :=
  let '(isProcessing, d) := state in
  if isProcessing then (false, state)
  else
    let '(hasMoreItems, d') := processSyncQueue host token d in
    (match hasMoreItems with
     | Returned true => true
     | _ => false
     end, (false, d')).

(* lines 556-579: the runs of [processNextItem] that follow each other
   through [setTimeout], at most [runs] of them.  The result tells whether
   the timer is still armed after them. *)
Fixpoint background_runs (runs : nat) (host : Host) (token : string)
  (state : bool * Device) : bool * (bool * Device) :=
  match runs with
  | O => (true, state)
  | S runs' =>
      let '(armed, state') := processNextItem host token state in
      if armed then background_runs runs' host token state'
      else (false, state')
  end.

Definition startBackgroundSync (runs : nat) (host : Host) (token : string)
  (d : Device) : bool * Device :=
  let '(armed, (_, d')) := background_runs runs host token (false, d) in
  (armed, d').

End DrainingOnStorage.

End Client.

(** ** What the specification says, and the inputs used to test it *)

Module WorkerSpec.
Import Js Worker.

(** The extraction strategy fails with [message]: its [try] block throws, or
    it completes with [processingError] set. *)
Inductive strategy_fails (svc : Services) (fileRecord : UploadedFile)
  (r2Key : string) : string -> Prop :=
| fails_thrown e :
    strategy svc fileRecord r2Key = Threw e ->
    strategy_fails svc fileRecord r2Key
      (message_or "Unknown processing error" e)
| fails_reported l message :
    strategy svc fileRecord r2Key = Returned l ->
    l_processingError l = Some message ->
    truthy message = true ->
    strategy_fails svc fileRecord r2Key message.

Definition uses_ocr (fileRecord : UploadedFile) : bool :=
  String.eqb (or_default (processType fileRecord) "standard-ocr")
    "standard-ocr"
  && startsWith (toLowerCase (fileType fileRecord)) "image/".

(** The OCR model itself answered, and its answer begins with the words the
    worker uses to mark a failed OCR call. *)
Definition ocr_answer_reads_as_error (svc : Services)
  (fileRecord : UploadedFile) : Prop :=
  uses_ocr fileRecord = true /\
  exists markdown usage,
    generateObject svc (blobUrl fileRecord) = Returned (markdown, usage) /\
    startsWith (if truthy markdown then markdown else "")
      "Error processing image OCR" = true.

Definition no_fault (f : option thrown) : bool :=
  match f with
  | None => true
  | Some _ => false
  end.

(** The database accepts the next [n] update statements. *)
Definition accepts_writes (n : nat) (w : World) : bool :=
  forallb no_fault (take n (db_faults w)).

(** The update statements [process_record] issues before metering: the claim
    (unless the row was fetched as [processing]) and the commit. *)
Definition writes_before_metering (fileRecord : UploadedFile) : nat :=
  if bool_decide (status fileRecord <> StProcessing) then 2 else 1.

Definition content_fields (r : UploadedFile)
  : option string * option string * Z :=
  (textContent r, generatedImageUrl r, tokensUsed r).

Definition terminal (st : Status) : bool :=
  bool_decide (st = StCompleted) || bool_decide (st = StError).





Definition with_meter_faults (tape : list (option thrown)) (s : Run) : Run :=
  mkRun
    (mkWorld (rows (world s)) (clock (world s)) (select_fault (world s))
       (db_faults (world s)) tape (metered (world s)))
    (processedCount s) (errorCount s).

End WorkerSpec.

Module ClientSpec.
Import Js Client.

(** The endpoint's answer ends polling: an [ok] response whose JSON status
    is [completed] or [error]. *)
Definition answers_terminal (o : outcome HttpResponse) : bool :=
  match o with
  | Returned r =>
      ok r
      && match json_body r with
         | Returned p =>
             bool_decide (p_status p = Some "completed")
             || bool_decide (p_status p = Some "error")
         | Threw _ => false
         end
  | Threw _ => false
  end.

(** The attempt ends in the [catch] block of the polling loop: the
    request fails, or the body of the answer cannot be read. *)
Definition request_throws (o : outcome HttpResponse) : bool :=
  match o with
  | Threw _ => true
  | Returned r =>
      if ok r
      then match json_body r with Threw _ => true | Returned _ => false end
      else match text_body r with Threw _ => true | Returned _ => false end
  end.

(** The last permitted polling attempt ends in the [catch] block. *)
Definition last_turn_throws (endpoint : nat -> outcome HttpResponse)
  (maxAttempts : nat) : bool :=
  match maxAttempts with
  | S last => request_throws (endpoint last)
  | O => false
  end.

(** The metadata stored for [localId] on a device. *)
Definition stored_metadata (d : Device) (localId : string)
  : option Metadata :=
  match pending_uploads d !! localId with
  | Some dir =>
      match dir_lookup "metadata.json" dir with
      | Some (MetaFile m) => Some m
      | _ => None
      end
  | None => None
  end.

(** The upload attempt failed with [reason]: the upload path returned a
    result with status [error], or it threw. *)
Inductive failed_with : outcome UploadResult -> string -> Prop :=
| failed_result r :
    ur_status r = "error" ->
    failed_with (Returned r)
      (or_default (ur_error r) "Unknown processing error")
| failed_thrown e :
    failed_with (Threw e) (message_or "Critical processing error" e).

End ClientSpec.

Module Samples.
Import Js Worker.

(** An object store holding one note, an OCR model answering a fixed text
    and a diagram model answering a fixed image. *)
Definition note_bytes : list Byte.byte := [Byte.x68; Byte.x69].

Definition svc_up : Services :=
  mkServices
    (fun key =>
       if String.eqb key "uploads/u1/note.txt"
       then Returned (Some note_bytes) else Returned (Some []))
    (fun _ _ _ => Returned tt)
    (fun _ => Returned ("Shopping list", Some 42%Z))
    (fun _ _ => Returned (Some "QUJD"))
    (fun _ _ => Returned tt)
    (fun _ name _ => Returned name)
    (fun _ => [])
    string_of_list_byte
    (fun p => p) (fun p _ => "sketch") (fun _ => ".png")
    (fun a b => a ++ "/" ++ b) "/tmp"
    1000 2000 "deadbeef" "https://pub.example" (Some "s3cret").

(** The same surroundings with the object store unreachable. *)
Definition svc_store_down : Services :=
  mkServices
    (fun _ => Threw (ErrorObj "connect ETIMEDOUT"))
    (r2_put svc_up) (generateObject svc_up) (images_edit svc_up)
    (writeFileSync svc_up) (toFile svc_up) (base64_decode svc_up)
    (utf8_decode svc_up) (path_basename svc_up) (path_basename_ext svc_up)
    (path_extname svc_up) (path_join svc_up) (tmpdir svc_up)
    (date_now_temp svc_up) (date_now_key svc_up) (random_hex svc_up)
    (R2_PUBLIC_URL svc_up) (CRON_SECRET svc_up).

Definition pending_row (fileId : Z) (fileType : string)
  (processType : option string) (r2Key : option string) (blobUrl : string)
  : UploadedFile :=
  mkUploadedFile fileId "user_1" blobUrl r2Key fileType processType
    "sketch.png" StPending None None 0 None 0.

Definition note_row : UploadedFile :=
  pending_row 1 "text/plain" None (Some "uploads/u1/note.txt")
    "https://cdn.example/uploads/u1/note.txt".


Definition photo_row : UploadedFile :=
  pending_row 2 "image/png" (Some "standard-ocr") (Some "uploads/u1/p.png")
    "https://cdn.example/uploads/u1/p.png".


Definition zip_row : UploadedFile :=
  pending_row 4 "application/zip" (Some "standard-ocr")
    (Some "uploads/u1/a.zip") "https://cdn.example/uploads/u1/a.zip".

(** A zip upload whose row carries no object key and whose public URL has no
    [uploads] segment. *)
Definition zip_row_without_key : UploadedFile :=
  pending_row 4 "application/zip" (Some "standard-ocr") None
    "https://cdn.example/files/a.zip".

Definition cron_request : Request := mkRequest (Some "Bearer s3cret").

Definition world_of (table : list UploadedFile) : World :=
  mkWorld table 100 None [] [] [].

(** A metering service that rejects its next call. *)
Definition world_metering_down (table : list UploadedFile) : World :=
  mkWorld table 100 None [] [Some (ErrorObj "metering unavailable")] [].

End Samples.

Module ClientSamples.
Import Js Client.

(** A note of 200 letters without any sentence break. *)
Definition long_note : string := string_of_list_ascii (repeat "a"%char 200).

Definition long_note_file : SharedFile :=
  mkSharedFile None (Some "text/plain") (Some "note.txt") (Some long_note).

Definition short_note_file : SharedFile :=
  mkSharedFile None (Some "text/plain") (Some "note.txt")
    (Some "Buy milk. Call the plumber.").

Definition quiet_host : Host :=
  mkHost "file:///doc/" "file:///cache/" Ios 42
    (fun _ _ => ([], Returned (mkUploadResult "completed" None None
                                (Some "17") None None None None))).

Definition empty_device : Device := mkDevice None ∅ ∅ ∅ 1000.

Definition not_found_response : HttpResponse :=
  mkHttpResponse false 404 "Not Found" (Returned "not found")
    (Threw (ErrorObj "Unexpected token"))%string.

Definition completed_payload : Payload :=
  mkPayload (Some "completed") (Some (PlainText "Shopping list")) None None
    None None None.

Definition completed_response : HttpResponse :=
  mkHttpResponse true 200 "OK" (Returned "") (Returned completed_payload).

(** 404 for the first two requests, then the completed payload. *)
Definition late_endpoint (n : nat) : outcome HttpResponse :=
  match n with
  | 0 | 1 => Returned not_found_response
  | _ => Returned completed_response
  end.

(** The upload path answering [error], answering [completed], throwing. *)
Definition host_answering (result : outcome UploadResult) : Host :=
  mkHost "file:///doc/" "file:///cache/" Ios 42
    (fun _ _ => ([("uploading", None); ("processing", Some "17")], result)).

Definition quota_error : UploadResult :=
  mkUploadResult "error" None (Some "Quota exceeded") (Some "17") None None
    None None.

(** A device holding two saved notes, the first at the head of the queue. *)
Definition two_notes_device : Device :=
  snd (saveFileLocally quiet_host
         (mkSharedFile None (Some "text/plain") (Some "b.txt")
            (Some "Second note"))
         (snd (saveFileLocally quiet_host short_note_file empty_device))).

End ClientSamples.

Module WorkerSpecMore.
Import Js Worker WorkerSpec.

(** [c] does not occur in [s]. *)
Fixpoint free_of (c : ascii) (s : string) : bool :=
  match s with
  | EmptyString => true
  | String a s' => negb (Ascii.eqb a c) && free_of c s'
  end.

(** The columns of a row that the worker only reads. *)
Definition identity_fields (r : UploadedFile)
  : Z * string * string * option string * string * option string * string :=
  (id r, userId r, blobUrl r, r2Key r, fileType r, processType r,
   originalName r).

(** How a pass over the records with ids [ids] may change a row: its
    read-only columns stay, and a row with another id is not touched. *)
Definition row_evolves (ids : list Z) (r r' : UploadedFile) : Prop :=
  identity_fields r' = identity_fields r
  /\ (id r ∉ ids -> r' = r).

(** The same, with every row of one of the ids brought to a terminal
    status. *)
Definition row_settles (ids : list Z) (r r' : UploadedFile) : Prop :=
  row_evolves ids r r'
  /\ (id r ∈ ids -> terminal (status r') = true).

(** The metering call made for a fetched record: for its user, and for
    the positive number of tokens with which its processing completed. *)
Definition metering_of (svc : Services) (r : UploadedFile)
  (call : string * Z) : Prop :=
  fst call = userId r
  /\ (0 < snd call)%Z
  /\ exists result,
       processSingleFileRecord svc r = Returned result
       /\ res_status result = StCompleted
       /\ snd call = res_tokensUsed result.

End WorkerSpecMore.

Module WorkerSamplesMore.
Import Js Worker.

(** The surroundings of [Samples.svc_up] with an OCR model that answers two
    blanks at a cost of 7 tokens. *)
Definition svc_blank_ocr : Services :=
  mkServices (r2_get Samples.svc_up) (r2_put Samples.svc_up)
    (fun _ => Returned ("  ", Some 7%Z))
    (images_edit Samples.svc_up) (writeFileSync Samples.svc_up)
    (toFile Samples.svc_up) (base64_decode Samples.svc_up)
    (utf8_decode Samples.svc_up) (path_basename Samples.svc_up)
    (path_basename_ext Samples.svc_up) (path_extname Samples.svc_up)
    (path_join Samples.svc_up) (tmpdir Samples.svc_up)
    (date_now_temp Samples.svc_up) (date_now_key Samples.svc_up)
    (random_hex Samples.svc_up) (R2_PUBLIC_URL Samples.svc_up)
    (CRON_SECRET Samples.svc_up).

Definition pdf_row : UploadedFile :=
  Samples.pending_row 8 "application/PDF" (Some "magic-diagram")
    (Some "uploads/u1/doc.pdf") "".

Definition derived_key_row : UploadedFile :=
  Samples.pending_row 9 "image/png" None None
    "https://cdn.example/uploads/u1/a.png".

(** Three claimable rows and one finished row. *)
Definition mixed_table : list UploadedFile :=
  [ Samples.note_row; Samples.zip_row;
    mkUploadedFile 6 "user_2" "" (Some "uploads/u2/old.txt") "text/plain"
      None "old.txt" StCompleted (Some "old") None 0 None 50;
    Samples.photo_row ].

End WorkerSamplesMore.
Module ClientSpecMore.
Import Js Client ClientSpec.

(** The time spent waiting, in milliseconds. *)
Fixpoint sleep_total (trace : list Event) : nat :=
  match trace with
  | [] => 0
  | Sleep ms :: trace' => ms + sleep_total trace'
  | Fetch _ _ :: trace' => sleep_total trace'
  end.

(** Newest first. *)
Definition not_older (a b : LocalFile) : Prop :=
  (lf_createdAt b <= lf_createdAt a)%Z.

Fixpoint newest_first (l : list LocalFile) : Prop :=
  match l with
  | [] => True
  | x :: l' => Forall (not_older x) l' /\ newest_first l'
  end.

(** The upload path always ends with a result of the given status. *)
Definition always_answers (host : Host) (status : string) : Prop :=
  forall sharedFile token,
    exists updates result,
      handleFileProcess host sharedFile token = (updates, Returned result)
      /\ ur_status result = status.

(** The device with its queue file rewritten. *)
Definition with_queue (queue : list string) (d : Device) : Device :=
  mkDevice (Some queue) (pending_uploads d) (files d) (directories d)
    (dclock d).

(** The device with other directories outside the item directories. *)
Definition with_directories (dirs : gset string) (d : Device) : Device :=
  mkDevice (sync_queue d) (pending_uploads d) (files d) dirs (dclock d).

(** The queue holds the single entry [localId], whose directory has an
    unfinished metadata file and a text content file. *)
Definition lone_text_entry (localId : string) (d : Device) : Prop :=
  sync_queue d = Some [localId]
  /\ exists dir m content,
       pending_uploads d !! localId = Some dir
       /\ dir_lookup "metadata.json" dir = Some (MetaFile m)
       /\ md_status m <> "completed"
       /\ dir_lookup "content.txt" dir = Some (Blob content).


(** What one run of [processSyncQueue] did to a queue [head :: rest]. *)
Inductive QueueMove (host : Host) (token : string)
  (head : string) (rest : list string)
  : bool -> option (list string) -> Prop :=
| stopped_early : QueueMove host token head rest false (Some (head :: rest))
| attempt_unfinished sharedFile updates r :
    handleFileProcess host sharedFile token = (updates, Returned r) ->
    ur_status r <> "completed" -> ur_status r <> "error" ->
    QueueMove host token head rest true (Some (head :: rest))
| entry_removed :
    QueueMove host token head rest (0 <? List.length rest)%nat (Some rest)
| entry_moved_to_tail sharedFile updates result reason :
    handleFileProcess host sharedFile token = (updates, result) ->
    failed_with result reason ->
    QueueMove host token head rest true (Some (rest ++ [head])%list).

End ClientSpecMore.

Module ClientSamplesMore.
Import Js Client ClientSamples.

(** The upload path answering that the file is still being processed. *)
Definition still_processing : UploadResult :=
  mkUploadResult "processing" None None (Some "17") None None None None.

(** A text file shared from another app by its location. *)
Definition shared_txt_file : SharedFile :=
  mkSharedFile (Some "/inbox/notes.txt") (Some "text/plain")
    (Some "notes.txt") None.

Definition inbox_device : Device :=
  mkDevice None ∅ {[ "/inbox/notes.txt" := "Remember the milk" ]} ∅ 1000.

Definition shared_txt_device : Device :=
  snd (saveFileLocally quiet_host shared_txt_file inbox_device).

(** A device holding one saved note. *)
Definition one_note_device : Device :=
  snd (saveFileLocally quiet_host short_note_file empty_device).

(** A storage that rejects every write of the queue file, and one that
    rejects it at one instant only. *)
Definition queue_file_locked : Storage :=
  {| write_rejected :=
       fun target _ =>
         match target with
         | QueueFile => Some (ErrorObj "disk full")
         | _ => None
         end |}.

Definition queue_write_fails_at (instant : Z) : Storage :=
  {| write_rejected :=
       fun target t =>
         match target with
         | QueueFile =>
             if (t =? instant)%Z then Some (ErrorObj "disk full") else None
         | _ => None
         end |}.

(** A storage that rejects the write of every [metadata.json] at one
    instant. *)
Definition metadata_write_fails_at (instant : Z) : Storage :=
  {| write_rejected :=
       fun target t =>
         match target with
         | ItemFile _ "metadata.json" =>
             if (t =? instant)%Z then Some (ErrorObj "disk full") else None
         | _ => None
         end |}.

(** A queue whose head entry has no directory any more. *)
Definition stale_device : Device :=
  mkDevice (Some ["local-1-1"; "local-1000-42"]) ∅ ∅ ∅ 1000.

End ClientSamplesMore.
(** ** Properties of the worker *)

Module WorkerProofs.
Import Js Worker WorkerSpec.

Lemma downloadFromR2_threw svc key e :
  downloadFromR2 svc key = Threw e ->
  e = ErrorObj ("Failed to download file from R2: " ++ key).
Proof.
  unfold downloadFromR2, try_catch, bind.
  destruct (r2_get svc key) as [[bytes|]|e']; congruence.
Qed.

Lemma downloadFromR2_returned svc key bytes :
  r2_get svc key = Returned (Some bytes) ->
  downloadFromR2 svc key = Returned bytes.
Proof. unfold downloadFromR2. intros ->. reflexivity. Qed.

Lemma strategy_threw svc fileRecord key e :
  strategy svc fileRecord key = Threw e ->
  exists message, e = ErrorObj message /\ truthy message = true.
Proof.
  unfold strategy.
  repeat match goal with
         | |- context [if ?c then _ else _] => destruct c
         end; try discriminate.
  - intros [= <-]. eexists. split; [reflexivity|reflexivity].
  - unfold bind. destruct (downloadFromR2 svc key) eqn:Hd; [discriminate|].
    intros [= <-]. apply downloadFromR2_threw in Hd as ->.
    eexists. split; reflexivity.
Qed.

Lemma eqb_standard_not_magic p :
  String.eqb p "standard-ocr" = true -> String.eqb p "magic-diagram" = false.
Proof. intros H%String.eqb_eq. subst. reflexivity. Qed.

Lemma strategy_reported svc fileRecord key l message :
  strategy svc fileRecord key = Returned l ->
  l_processingError l = Some message ->
  truthy message = true ->
  ~ ocr_answer_reads_as_error svc fileRecord ->
  l_generatedImageUrl l = None /\ l_tokensUsed l = 0%Z.
Proof.
  unfold strategy. intros Hs Hm Ht Hslip.
  destruct (String.eqb (or_default (processType fileRecord) "standard-ocr")
              "magic-diagram"
            && startsWith (toLowerCase (fileType fileRecord)) "image/")
    eqn:Hmagic.
  { destruct (truthy_opt _); injection Hs as <-; simpl in *;
      [auto | discriminate]. }
  destruct (String.eqb (or_default (processType fileRecord) "standard-ocr")
              "standard-ocr"
            && startsWith (toLowerCase (fileType fileRecord)) "image/")
    eqn:Hocr.
  { destruct (negb (truthy (blobUrl fileRecord))); [discriminate|].
    unfold processImageWithGPT4one in Hs.
    destruct (generateObject svc (blobUrl fileRecord)) as [[md usage]|e]
      eqn:Hgen; simpl in Hs.
    - destruct (startsWith (if truthy md then md else "")
                  "Error processing image OCR") eqn:Hpre.
      + exfalso. apply Hslip. split; [exact Hocr|]. eauto.
      + destruct (_ || _); injection Hs as <-; discriminate.
    - injection Hs as <-. auto. }
  destruct (_ || _).
  { injection Hs as <-. auto. }
  destruct (_ || _).
  { unfold bind in Hs. destruct (downloadFromR2 svc key); [|discriminate].
    injection Hs as <-. discriminate. }
  injection Hs as <-. auto.
Qed.

Lemma processSingleFileRecord_returns svc fileRecord :
  exists result, processSingleFileRecord svc fileRecord = Returned result.
Proof.
  unfold processSingleFileRecord.
  destruct (resolveR2Key fileRecord) as [early|key]; [eauto|].
  destruct (strategy svc fileRecord key); simpl; eauto.
Qed.

(** C1 (as stated, refuted): a failed strategy does not come back with
    [textContent = null].  An unsupported file type (a strategy-level error)
    and a text upload whose download throws both come back with a bracketed
    message in [textContent]. *)
Lemma failed_strategy_keeps_text_message :
  processSingleFileRecord Samples.svc_up Samples.zip_row
  = Returned
      (mkResult StError
         (Some "[Processing Error: Unsupported file type/processType: application/zip / standard-ocr]")
         None 0
         (Some "Unsupported file type/processType: application/zip / standard-ocr"))
  /\ processSingleFileRecord Samples.svc_store_down Samples.note_row
     = Returned
         (mkResult StError
            (Some "[Processing Error: Failed to download file from R2: uploads/u1/note.txt]")
            None 0
            (Some "Failed to download file from R2: uploads/u1/note.txt"))
  /\ ~ (exists message,
          processSingleFileRecord Samples.svc_up Samples.zip_row
          = Returned (mkResult StError None None 0 (Some message)))
  /\ ~ (exists message,
          processSingleFileRecord Samples.svc_store_down Samples.note_row
          = Returned (mkResult StError None None 0 (Some message))).
Proof.
  split; [reflexivity|]. split; [reflexivity|].
  split; intros [message H]; vm_compute in H; discriminate.
Qed.

Lemma resolveR2Key_early fileRecord early :
  resolveR2Key fileRecord = inl early ->
  res_status early = StError /\ res_textContent early = None
  /\ res_generatedImageUrl early = None /\ res_tokensUsed early = 0%Z
  /\ exists message, res_error early = Some message.
Proof.
  unfold resolveR2Key.
  repeat match goal with
         | |- context [if ?c then _ else _] => destruct c
         | |- context [match ?c with Some _ => _ | None => _ end] =>
             destruct c
         end; intros [= <-]; simpl; eauto 10.
Qed.

(** C1 (amended): [processSingleFileRecord] never throws; when the object
    key resolves and the strategy fails with a message -- by throwing or by
    reporting an error, the OCR model's own answer being read as an error
    excepted -- the result has status [error], no generated image, zero
    tokens, [error] set to the message and [textContent] set to the message
    wrapped in "[Processing Error: ...]"; when the object key does not
    resolve, the result has status [error], [textContent] and
    [generatedImageUrl] null, zero tokens and [error] set. *)
Theorem processSingleFileRecord_failure_contained svc fileRecord :
  (exists result, processSingleFileRecord svc fileRecord = Returned result)
  /\ (forall r2Key message,
        resolveR2Key fileRecord = inr r2Key ->
        strategy_fails svc fileRecord r2Key message ->
        ~ ocr_answer_reads_as_error svc fileRecord ->
        processSingleFileRecord svc fileRecord
        = Returned
            (mkResult StError
               (Some ("[Processing Error: " ++ message ++ "]")) None 0
               (Some message)))
  /\ (forall early,
        resolveR2Key fileRecord = inl early ->
        exists message,
          processSingleFileRecord svc fileRecord
          = Returned (mkResult StError None None 0 (Some message))).
Proof.
  split; [apply processSingleFileRecord_returns|]. split.
  - intros key message Hkey Hfail Hslip.
    unfold processSingleFileRecord. rewrite Hkey.
    destruct Hfail as [e He | l m Hl Hm Ht].
    + rewrite He. destruct (strategy_threw _ _ _ _ He) as (m & -> & Ht).
      simpl. unfold finalResult. simpl. rewrite Ht. reflexivity.
    + rewrite Hl. simpl.
      destruct (strategy_reported _ _ _ _ _ Hl Hm Ht Hslip) as [Hg Hz].
      unfold finalResult. rewrite Hm, Hg, Hz. simpl. rewrite Ht.
      reflexivity.
  - intros early Hkey. unfold processSingleFileRecord. rewrite Hkey.
    apply resolveR2Key_early in Hkey as (Hs & Ht & Hg & Hz & message & Hm).
    exists message. destruct early; simpl in *. congruence.
Qed.

Lemma processSingleFileRecord_failure_contained_witness :
  processSingleFileRecord Samples.svc_store_down Samples.note_row
  = Returned
      (mkResult StError
         (Some ("[Processing Error: "
                ++ "Failed to download file from R2: uploads/u1/note.txt"
                ++ "]")) None 0
         (Some "Failed to download file from R2: uploads/u1/note.txt"))
  /\ exists message,
       processSingleFileRecord Samples.svc_up Samples.zip_row_without_key
       = Returned (mkResult StError None None 0 (Some message)).
Proof.
  destruct (processSingleFileRecord_failure_contained
              Samples.svc_store_down Samples.note_row) as (_ & Hfail & _).
  destruct (processSingleFileRecord_failure_contained
              Samples.svc_up Samples.zip_row_without_key) as (_ & _ & Hearly).
  split.
  - apply (Hfail "uploads/u1/note.txt").
    + reflexivity.
    + apply (fails_thrown _ _ _
               (ErrorObj
                  "Failed to download file from R2: uploads/u1/note.txt")).
      reflexivity.
    + intros [H _]. vm_compute in H. discriminate.
  - eapply Hearly. reflexivity.
Defined.

(** C5: for a [text/plain] or [text/markdown] record, whatever its
    [processType], the result carries zero tokens; and when the download of
    the bytes under its object key succeeds, the result is [completed] with
    [textContent] exactly their UTF-8 decoding. *)
Theorem text_record_round_trip svc fileRecord :
  toLowerCase (fileType fileRecord) = "text/plain"
  \/ toLowerCase (fileType fileRecord) = "text/markdown" ->
  (exists result,
     processSingleFileRecord svc fileRecord = Returned result
     /\ res_tokensUsed result = 0%Z)
  /\ forall r2Key bytes,
       resolveR2Key fileRecord = inr r2Key ->
       r2_get svc r2Key = Returned (Some bytes) ->
       processSingleFileRecord svc fileRecord
       = Returned
           (mkResult StCompleted (Some (utf8_decode svc bytes)) None 0 None).
Proof.
  intros Htype.
  assert (Hs : forall key,
             strategy svc fileRecord key
             = bind (downloadFromR2 svc key)
                 (fun buffer =>
                    Returned
                      (mkLocals (Some (utf8_decode svc buffer)) None 0 None))).
  { intros key. unfold strategy.
    destruct Htype as [-> | ->]; simpl; rewrite !andb_false_r; reflexivity. }
  split.
  - unfold processSingleFileRecord.
    destruct (resolveR2Key fileRecord) as [early|key] eqn:Hkey.
    + exists early. split; [reflexivity|].
      apply resolveR2Key_early in Hkey. tauto.
    + rewrite Hs. destruct (downloadFromR2 svc key) as [bytes|e]; simpl.
      * eexists. split; reflexivity.
      * eexists. split; [reflexivity|].
        unfold finalResult. simpl. reflexivity.
  - intros key bytes Hkey Hget.
    unfold processSingleFileRecord. rewrite Hkey, Hs.
    rewrite (downloadFromR2_returned _ _ _ Hget). reflexivity.
Qed.

Lemma text_record_round_trip_witness :
  processSingleFileRecord Samples.svc_up Samples.note_row
  = Returned (mkResult StCompleted (Some "hi") None 0 None).
Proof.
  apply (proj2 (text_record_round_trip Samples.svc_up Samples.note_row
                  (or_introl eq_refl))
           "uploads/u1/note.txt" Samples.note_bytes);
    reflexivity.
Defined.

(** C6 (as stated, refuted): a zip upload booked for standard OCR whose
    object key cannot be derived ends with [textContent = null]. *)
Lemma zip_without_key_has_no_text :
  fileType Samples.zip_row_without_key = "application/zip"
  /\ processType Samples.zip_row_without_key = Some "standard-ocr"
  /\ processSingleFileRecord Samples.svc_up Samples.zip_row_without_key
     = Returned
         (mkResult StError None None 0
            (Some "Could not determine R2 key from blobUrl: https://cdn.example/files/a.zip")).
Proof. repeat split. Qed.

(** C6 (amended): a record with [fileType = "application/zip"] and
    [processType = "standard-ocr"] always yields status [error] and zero
    tokens; when its object key is stored or can be derived from its URL,
    [textContent] is the bracketed unsupported-type message, which contains
    "Unsupported". *)
Theorem zip_record_unsupported svc fileRecord :
  fileType fileRecord = "application/zip" ->
  processType fileRecord = Some "standard-ocr" ->
  (exists result,
     processSingleFileRecord svc fileRecord = Returned result
     /\ res_status result = StError /\ res_tokensUsed result = 0%Z)
  /\ forall r2Key,
       resolveR2Key fileRecord = inr r2Key ->
       exists shown,
         processSingleFileRecord svc fileRecord
         = Returned
             (mkResult StError (Some shown) None 0
                (Some "Unsupported file type/processType: application/zip / standard-ocr"))
         /\ includes shown "Unsupported" = true.
Proof.
  intros Htype Hproc.
  assert (Hs :
             processSingleFileRecord svc fileRecord
             = match resolveR2Key fileRecord with
               | inl early => Returned early
               | inr _ =>
                   Returned
                     (mkResult StError
                        (Some "[Processing Error: Unsupported file type/processType: application/zip / standard-ocr]")
                        None 0
                        (Some "Unsupported file type/processType: application/zip / standard-ocr"))
               end).
  { unfold processSingleFileRecord.
    destruct (resolveR2Key fileRecord); [reflexivity|].
    unfold strategy. rewrite Htype, Hproc. reflexivity. }
  split.
  - rewrite Hs.
    destruct (resolveR2Key fileRecord) as [early|key] eqn:Hkey.
    + exists early. apply resolveR2Key_early in Hkey. tauto.
    + eexists. repeat split.
  - intros key Hkey. rewrite Hs, Hkey.
    eexists. split; reflexivity.
Qed.

Lemma zip_record_unsupported_witness :
  exists shown,
    processSingleFileRecord Samples.svc_up Samples.zip_row
    = Returned
        (mkResult StError (Some shown) None 0
           (Some "Unsupported file type/processType: application/zip / standard-ocr"))
    /\ includes shown "Unsupported" = true.
Proof.
  apply (proj2 (zip_record_unsupported Samples.svc_up Samples.zip_row
                  eq_refl eq_refl) "uploads/u1/a.zip").
  reflexivity.
Defined.

#[local] Arguments update_where : simpl never.

Ltac unfold_steps :=
  unfold process_record, claim_step, commit_step, meter_step, fallback_step,
    incr_processedCount, incr_errorCount, incrementAndLogTokenUsage,
    db_update, now, bindM, try_catchM, lift, ret, with_world in *.

Ltac split_faults faults :=
  destruct faults as [|[?|] [|[?|] [|[?|] ?]]].

Lemma in_update_where fileId set table row :
  In row (update_where fileId set table) ->
  exists r, In r table
            /\ row = if Z.eqb (id r) fileId then set r else r.
Proof.
  unfold update_where. intros (r & <- & Hin)%in_map_iff. eauto.
Qed.

Lemma update_where_claimed_twice fileId t1 t2 table row :
  In row (update_where fileId (set_claimed t2)
            (update_where fileId (set_claimed t1) table)) ->
  id row = fileId -> status row = StProcessing /\ error row = None.
Proof.
  intros (r1 & (r & _ & ->)%in_update_where & ->)%in_update_where.
  destruct (id r =? fileId)%Z eqn:E; simpl; rewrite E; simpl.
  - auto.
  - apply Z.eqb_neq in E. contradiction.
Qed.

Lemma update_where_claimed_content fileId t table :
  map content_fields (update_where fileId (set_claimed t) table)
  = map content_fields table.
Proof.
  unfold update_where. rewrite map_map. apply map_ext. intros r.
  destruct (id r =? fileId)%Z; reflexivity.
Qed.

(** C3: claiming a [pending] record twice in a row, with a database that
    accepts both writes and no commit in between, does not throw, leaves
    every row of that id [processing] with [error] cleared, and leaves the
    content fields of the table as they were; a claim that observes the
    record as [processing] writes nothing at all. *)
Theorem claim_step_idempotent fileRecord s :
  status fileRecord = StPending ->
  accepts_writes 2 (world s) = true ->
  let first := claim_step fileRecord s in
  let second := claim_step fileRecord (snd first) in
  fst first = Returned tt
  /\ fst second = Returned tt
  /\ (forall row,
        In row (rows (world (snd second))) -> id row = id fileRecord ->
        status row = StProcessing /\ error row = None)
  /\ map content_fields (rows (world (snd second)))
     = map content_fields (rows (world s))
  /\ forall observed,
       status observed = StProcessing ->
       claim_step observed (snd first) = (Returned tt, snd first).
Proof.
  intros Hst Hacc.
  destruct s as [[table clk sf faults mfaults log] pc ec].
  unfold accepts_writes in Hacc. simpl in Hacc.
  unfold_steps. rewrite Hst. simpl.
  split_faults faults; simpl in Hacc; try discriminate; simpl;
    (split; [reflexivity|]; split; [reflexivity|];
     split; [apply update_where_claimed_twice|];
     split; [rewrite !update_where_claimed_content; reflexivity|];
     intros observed Hobs; rewrite Hobs; reflexivity).
Qed.

Lemma claim_step_idempotent_witness :
  let s := mkRun (Samples.world_of [Samples.note_row; Samples.photo_row]) 0 0 in
  let second :=
    claim_step Samples.note_row (snd (claim_step Samples.note_row s)) in
  fst second = Returned tt
  /\ map status (rows (world (snd second))) = [StProcessing; StPending]
  /\ map content_fields (rows (world (snd second)))
     = map content_fields (rows (world s)).
Proof.
  pose proof (claim_step_idempotent Samples.note_row
                (mkRun (Samples.world_of
                          [Samples.note_row; Samples.photo_row]) 0 0)
                eq_refl eq_refl) as (_ & H2 & _ & H4 & _).
  split; [exact H2|]. split; [reflexivity|exact H4].
Defined.


Lemma in_update_where_id fileId set table row :
  (forall r, id (set r) = id r) ->
  In row (update_where fileId set table) -> id row = fileId ->
  exists r, In r table /\ id r = fileId /\ row = set r.
Proof.
  intros Hset (r & Hin & ->)%in_update_where Hid.
  destruct (id r =? fileId)%Z eqn:E.
  - apply Z.eqb_eq in E. eauto.
  - apply Z.eqb_neq in E. contradiction.
Qed.

Lemma update_where_result_status fileId result t table row :
  In row (update_where fileId (set_result result t) table) ->
  id row = fileId -> status row = res_status result.
Proof.
  intros Hin Hid.
  apply in_update_where_id in Hin as (r & _ & _ & ->);
    [reflexivity | reflexivity | exact Hid].
Qed.

(** C4: [process_record] calls the metering service exactly once, with the
    record's user and the result's [tokensUsed], when the result was
    committed with status [completed] and [tokensUsed > 0], and not at all
    otherwise; whether that call fails or not, the table is the same and the
    committed row keeps the result's status. *)
Theorem metering_follows_commit svc fileRecord s :
  exists result,
    processSingleFileRecord svc fileRecord = Returned result
    /\ let after := snd (process_record svc fileRecord s) in
       let committed :=
         accepts_writes (writes_before_metering fileRecord) (world s) in
       metered (world after)
       = (metered (world s)
          ++ (if committed && bool_decide (res_status result = StCompleted)
                 && (0 <? res_tokensUsed result)%Z
              then [(userId fileRecord, res_tokensUsed result)]
              else []))%list
       /\ (forall tape,
             rows (world (snd (process_record svc fileRecord
                                 (with_meter_faults tape s))))
             = rows (world after))
       /\ (committed = true ->
           forall row,
             In row (rows (world after)) -> id row = id fileRecord ->
             status row = res_status result).
Proof.
  destruct (processSingleFileRecord_returns svc fileRecord)
    as [result Hres].
  exists result. split; [exact Hres|].
  destruct s as [[table clk sf faults mfaults log] pc ec].
  unfold accepts_writes, writes_before_metering, with_meter_faults.
  unfold_steps. rewrite Hres. simpl.
  destruct (bool_decide (status fileRecord <> StProcessing));
    split_faults faults; simpl;
    destruct (bool_decide (res_status result = StCompleted)); simpl;
    destruct (0 <? res_tokensUsed result)%Z; simpl;
    destruct (bool_decide (res_status result = StError)); simpl;
    rewrite ?app_nil_r;
    (split; [try reflexivity; destruct mfaults as [|[?|] ?]; reflexivity|]);
    (split; [intros tape; try reflexivity;
             destruct mfaults as [|[?|] ?], tape as [|[?|] ?]; reflexivity|]);
    try discriminate;
    intros _ row Hin Hid;
    try (destruct mfaults as [|[?|] ?]; simpl in Hin);
    eapply update_where_result_status; eauto.
Qed.

Lemma metering_follows_commit_witness :
  let s := mkRun (Samples.world_metering_down [Samples.photo_row]) 0 0 in
  let after := snd (process_record Samples.svc_up Samples.photo_row s) in
  metered (world after) = [("user_1", 42%Z)]
  /\ forall row,
       In row (rows (world after)) -> id row = 2%Z ->
       status row = StCompleted.
Proof.
  destruct (metering_follows_commit Samples.svc_up Samples.photo_row
              (mkRun (Samples.world_metering_down [Samples.photo_row]) 0 0))
    as (result & Hres & Hlog & _ & Hrow).
  injection Hres as <-.
  split; [exact Hlog | exact (Hrow eq_refl)].
Defined.


Lemma process_record_counts svc fileRecord s :
  let r := process_record svc fileRecord s in
  fst r = Returned tt
  /\ (processedCount (snd r) + errorCount (snd r)
      = S (processedCount s + errorCount s))%nat.
Proof.
  destruct (processSingleFileRecord_returns svc fileRecord)
    as [result Hres].
  destruct s as [[table clk sf faults mfaults log] pc ec].
  unfold_steps. rewrite Hres. simpl.
  destruct (bool_decide (status fileRecord <> StProcessing));
    split_faults faults; simpl;
    destruct (bool_decide (res_status result = StCompleted)); simpl;
    destruct (0 <? res_tokensUsed result)%Z; simpl;
    destruct (bool_decide (res_status result = StError)); simpl;
    try (destruct mfaults as [|[?|] ?]; simpl);
    split; (reflexivity || lia).
Qed.

Lemma process_all_counts svc pendingFiles s :
  let r := process_all svc pendingFiles s in
  fst r = Returned tt
  /\ (processedCount (snd r) + errorCount (snd r)
      = List.length pendingFiles + (processedCount s + errorCount s))%nat.
Proof.
  revert s. induction pendingFiles as [|fileRecord rest IH]; intros s.
  - simpl. split; reflexivity.
  - simpl. unfold bindM.
    pose proof (process_record_counts svc fileRecord s) as [Hret Hsum].
    destruct (process_record svc fileRecord s) as [o s1]. simpl in *.
    subst o. destruct (IH s1) as [Hret' Hsum'].
    split; [exact Hret'|]. rewrite Hsum'. lia.
Qed.

(** C10: a run that fetches [n > 0] claimable records answers with the
    message "Processing complete. Attempted: n, Succeeded: p, Errors: e"
    where [p + e = n]: every record adds exactly one to exactly one of the
    two counters, whatever fails while it is processed. *)
Theorem GET_counts_each_record_once svc request w pendingFiles :
  cronSecret request = CRON_SECRET svc ->
  select_pending w = Returned pendingFiles ->
  pendingFiles <> [] ->
  (exists succeeded errors,
     fst (GET svc request w)
     = ProcessingComplete
         ("Processing complete. Attempted: "
          ++ show_nat (List.length pendingFiles)
          ++ ", Succeeded: " ++ show_nat succeeded
          ++ ", Errors: " ++ show_nat errors)
     /\ (succeeded + errors = List.length pendingFiles)%nat)
  /\ forall fileRecord s,
       let r := process_record svc fileRecord s in
       fst r = Returned tt
       /\ ((processedCount (snd r) = S (processedCount s)
            /\ errorCount (snd r) = errorCount s)
           \/ (processedCount (snd r) = processedCount s
               /\ errorCount (snd r) = S (errorCount s))).
Proof.
  intros Hauth Hsel Hne. split.
  - unfold GET. rewrite Hauth, bool_decide_eq_true_2 by reflexivity.
    simpl. rewrite Hsel.
    destruct pendingFiles as [|f rest]; [contradiction|].
    change (List.length (f :: rest) =? 0)%nat with false. cbv iota.
    pose proof (process_all_counts svc (f :: rest) (mkRun w 0 0))
      as [Hret Hsum].
    destruct (process_all svc (f :: rest) (mkRun w 0 0)) as [o s1].
    simpl fst in *. simpl snd in *. subst o.
    exists (processedCount s1), (errorCount s1).
    split; [reflexivity|]. simpl in *. lia.
  - intros fileRecord s.
    destruct (processSingleFileRecord_returns svc fileRecord)
      as [result Hres].
    destruct s as [[table clk sf faults mfaults log] pc ec].
    unfold_steps. rewrite Hres. simpl.
    destruct (bool_decide (status fileRecord <> StProcessing));
      split_faults faults; simpl;
      destruct (bool_decide (res_status result = StCompleted)); simpl;
      destruct (0 <? res_tokensUsed result)%Z; simpl;
      destruct (bool_decide (res_status result = StError)); simpl;
      try (destruct mfaults as [|[?|] ?]; simpl);
      (split; [reflexivity|]); auto.
Qed.

Lemma GET_counts_each_record_once_witness :
  (exists succeeded errors,
     fst (GET Samples.svc_up Samples.cron_request
            (Samples.world_of
               [Samples.note_row; Samples.zip_row; Samples.photo_row]))
     = ProcessingComplete
         ("Processing complete. Attempted: " ++ show_nat 3
          ++ ", Succeeded: " ++ show_nat succeeded
          ++ ", Errors: " ++ show_nat errors)
     /\ (succeeded + errors = 3)%nat)
  /\ fst (GET Samples.svc_up Samples.cron_request
            (Samples.world_of
               [Samples.note_row; Samples.zip_row; Samples.photo_row]))
     = ProcessingComplete
         "Processing complete. Attempted: 3, Succeeded: 2, Errors: 1".
Proof.
  split; [|vm_compute; reflexivity].
  apply (proj1 (GET_counts_each_record_once Samples.svc_up
                  Samples.cron_request
                  (Samples.world_of
                     [Samples.note_row; Samples.zip_row; Samples.photo_row])
                  [Samples.note_row; Samples.zip_row; Samples.photo_row]
                  eq_refl eq_refl ltac:(discriminate))).
Defined.







End WorkerProofs.

(** ** Properties of the mobile file handler *)

Module ClientProofs.
Import Js Client ClientSpec ClientSpecMore ClientSamples ClientSamplesMore.

Lemma prefix_substring0 s n : String.prefix (String.substring 0 n s) s = true.
Proof.
  revert n. induction s as [|c s IH]; intros [|n]; simpl; auto.
  destruct (ascii_dec c c); [apply IH | congruence].
Qed.

Lemma length_substring0 s n :
  (n <= String.length s)%nat -> String.length (String.substring 0 n s) = n.
Proof.
  revert n. induction s as [|c s IH]; intros [|n] H; simpl in *;
    try reflexivity; try lia.
  rewrite IH; [reflexivity | lia].
Qed.

Lemma index_ge pat s from m :
  String.index from pat s = Some m -> (from <= m)%nat.
Proof.
  revert from m. induction s as [|c s IH]; intros [|from] m; simpl.
  - destruct pat; intros [= <-] || discriminate. lia.
  - discriminate.
  - intros _. lia.
  - destruct (String.index from pat s) as [k|] eqn:E; [|discriminate].
    intros [= <-]. apply IH in E. lia.
Qed.

Lemma Math_max_bounds lo hi points :
  points <> [] ->
  Forall (fun p => lo <= p < hi)%nat points ->
  (lo <= Math_max points < hi)%nat.
Proof.
  intros Hne Hall. induction Hall as [|p points Hp Hall IH];
    [contradiction|].
  simpl. destruct points as [|q points].
  - simpl. lia.
  - assert (lo <= Math_max (q :: points) < hi)%nat by (apply IH; discriminate).
    lia.
Qed.

Lemma generateTextPreview_shape text maxLength :
  ((String.length text <= maxLength)%nat
   /\ generateTextPreview text maxLength = text)
  \/ ((maxLength < String.length text)%nat
      /\ exists n,
           (maxLength / 2 <= n <= maxLength)%nat
           /\ generateTextPreview text maxLength
              = substring0 text n ++ "..."
           /\ String.prefix (substring0 text n) text = true
           /\ String.length (substring0 text n) = n).
Proof.
  unfold generateTextPreview.
  destruct (String.length text <=? maxLength)%nat eqn:Hlen.
  - left. apply Nat.leb_le in Hlen. rewrite orb_true_r. auto.
  - apply Nat.leb_gt in Hlen. right. split; [exact Hlen|].
    assert (Htruthy : truthy text = true).
    { destruct text; [simpl in Hlen; lia | reflexivity]. }
    rewrite Htruthy. simpl negb. cbv iota.
    set (from := (maxLength / 2)%nat).
    set (keep := fun point : option nat =>
                   match point with
                   | Some p => if (p <? maxLength)%nat then Some p else None
                   | None => None
                   end).
    set (points := omap keep _).
    assert (Hfrom : (from <= maxLength)%nat)
      by (apply Nat.Div0.div_le_upper_bound; lia).
    assert (Hall : Forall (fun p => from <= p < maxLength)%nat points).
    { subst points. apply Forall_forall. intros p Hp.
      apply list_elem_of_omap in Hp as (o & Ho & Hk).
      destruct o as [q|]; [|discriminate]. simpl in Hk.
      destruct (q <? maxLength)%nat eqn:Hq; [|discriminate].
      injection Hk as <-. apply Nat.ltb_lt in Hq. split; [|exact Hq].
      rewrite list_elem_of_In in Ho. simpl in Ho.
      destruct Ho as [Ho|[Ho|[Ho|[Ho|[]]]]];
        unfold indexOf in Ho; apply index_ge in Ho; exact Ho. }
    set (breakPoint := match points with
                       | [] => maxLength
                       | _ => (Math_max points + 1)%nat
                       end).
    assert (Hbp : (from <= breakPoint <= maxLength)%nat).
    { subst breakPoint. destruct points as [|p ps] eqn:Hpts; [lia|].
      pose proof (Math_max_bounds from maxLength (p :: ps)
                    ltac:(discriminate) Hall). lia. }
    exists breakPoint. split; [exact Hbp|]. split; [reflexivity|].
    unfold substring0. split; [apply prefix_substring0|].
    apply length_substring0. lia.
Qed.


(** C8 (as stated, refuted): saving a 200-letter note yields a preview of 150
    letters followed by "...", which is not a prefix of the note. *)
Lemma long_note_preview_is_not_a_prefix :
  exists localId shown,
    fst (saveFileLocally quiet_host long_note_file empty_device)
    = Returned (localId, mkPreview (Some shown) None PvText)
    /\ String.length shown = 153%nat
    /\ String.prefix shown long_note = false.
Proof. eexists. eexists. vm_compute. repeat split. Qed.


Lemma reliable_accepts target t : write_rejected target t = None.
Proof. reflexivity. Qed.

Lemma accepted_reliable {A} target (write : D A) d :
  accepted target write d = write d.
Proof. reflexivity. Qed.

Lemma addToSyncQueue_eq localId d :
  addToSyncQueue localId d =
  (Returned tt,
   if bool_decide (localId ∈ default [] (sync_queue d)) then d
   else with_queue (default [] (sync_queue d) ++ [localId])%list d).
Proof.
  destruct d as [[q|] dirs other made clk];
    unfold addToSyncQueue, try_catchM, bindM, queue_exists, read_queue,
      write_queue, accepted, ret, with_queue;
    cbv beta iota delta [sync_queue pending_uploads files directories dclock
                         default negb fst snd id write_rejected
                         reliable_storage].
  - rewrite bool_decide_eq_true_2 by eauto.
    cbv beta iota delta [sync_queue].
    destruct (bool_decide (localId ∈ q)); reflexivity.
  - rewrite bool_decide_eq_false_2 by (intros [x Hx]; discriminate).
    cbv beta iota.
    destruct (bool_decide (localId ∈ [])); reflexivity.
Qed.

Lemma ensurePendingUploadsDir_reliable host d :
  exists dirs',
    ensurePendingUploadsDir host d = (Returned tt, with_directories dirs' d)
    /\ pending_uploads_exists host (with_directories dirs' d)
       = (Returned true, with_directories dirs' d).
Proof.
  unfold ensurePendingUploadsDir, bindM.
  destruct (pending_uploads_exists host d) as [o d0] eqn:Hex.
  unfold pending_uploads_exists in Hex. injection Hex as <- <-.
  match goal with
  | |- context [if negb ?b then _ else _] => destruct b eqn:Hb
  end; cbv beta iota delta [negb].
  - exists (directories d). destruct d as [q dirs other made clk].
    unfold with_directories, ret, pending_uploads_exists.
    cbn [sync_queue pending_uploads files directories dclock] in *.
    rewrite Hb. split; reflexivity.
  - exists ({[ documentDirectory host ++ "pending_uploads/" ]}
           ∪ directories d).
    split; [reflexivity|].
    unfold pending_uploads_exists, with_directories.
    cbn [sync_queue pending_uploads files directories dclock].
    rewrite bool_decide_eq_true_2 by set_solver. reflexivity.
Qed.

Lemma make_item_dir_fresh host localId d :
  pending_uploads_exists host d = (Returned true, d) ->
  pending_uploads d !! localId = None ->
  make_item_dir host localId d
  = (Returned tt,
     mkDevice (sync_queue d) (<[localId := []]> (pending_uploads d))
       (files d) (directories d) (dclock d)).
Proof.
  intros Hex Hfresh. unfold make_item_dir, bindM. rewrite Hex.
  cbv beta iota delta [negb]. unfold ItemDir in *. rewrite Hfresh.
  reflexivity.
Qed.

Lemma ensure_previews_reliable host d :
  let previewsDir := documentDirectory host ++ "previews/" in
  exists dirs',
    (let* dirInfoExists := directory_exists previewsDir in
     if negb dirInfoExists then make_directory previewsDir else ret tt)%effect
      d
    = (Returned tt, with_directories dirs' d).
Proof.
  intros previewsDir. unfold bindM, directory_exists.
  destruct (bool_decide (previewsDir ∈ directories d)) eqn:Hb;
    cbv beta iota delta [negb].
  - exists (directories d). destruct d; reflexivity.
  - eexists. reflexivity.
Qed.

Lemma bindM_returned {S A B} (m : SM S A) (k : A -> SM S B) s a s' :
  m s = (Returned a, s') -> bindM m k s = k a s'.
Proof. unfold bindM. intros ->. reflexivity. Qed.

Lemma generatePreview_text host file localId d shown :
  text file = Some shown -> truthy shown = true ->
  exists dirs',
    generatePreview host file localId d
    = (Returned
         (mkPreview (Some (generateTextPreview shown 150)) None PvText),
       with_directories dirs' d).
Proof.
  intros Htext Htruthy.
  unfold generatePreview, bindM, directory_exists, make_directory, accepted,
    ret.
  rewrite Htext. cbn [truthy_opt default id]. rewrite Htruthy.
  destruct (bool_decide
              (documentDirectory host ++ "previews/" ∈ directories d));
    cbv beta iota delta [negb write_rejected reliable_storage].
  - exists (directories d). destruct d; reflexivity.
  - eexists. reflexivity.
Qed.

Lemma saveFileLocally_text host file d shown :
  text file = Some shown -> truthy shown = true ->
  let localId :=
    "local-" ++ show_Z (dclock d) ++ "-"
    ++ show_nat (Math_random_10000 host) in
  pending_uploads d !! localId = None ->
  let preview :=
    mkPreview (Some (generateTextPreview shown 150)) None PvText in
  let m :=
    mkMetadata (name file) (mimeType file) (previewText preview)
      (thumbnailUri preview) (previewType preview) localId (dclock d + 1)
      "pending" None None None None None in
  exists dirs' items,
    items !! localId
    = Some [("metadata.json", MetaFile m); ("content.txt", Blob shown)]
    /\ (forall other, other <> localId ->
          items !! other = pending_uploads d !! other)
    /\ saveFileLocally host file d
       = (Returned (localId, preview),
          let stored :=
            mkDevice (sync_queue d) items (files d) dirs' (dclock d + 1 + 1)
          in
          if bool_decide (localId ∈ default [] (sync_queue d)) then stored
          else with_queue (default [] (sync_queue d) ++ [localId])%list
                 stored).
Proof.
  intros Htext Htruthy localId Hfresh preview m.
  destruct (ensurePendingUploadsDir_reliable host d)
    as (dirs1 & Hensure & Hexists).
  unfold saveFileLocally.
  rewrite (bindM_returned _ _ _ _ _ Hensure).
  unfold Date_now at 1. unfold bindM at 1.
  cbn [with_directories sync_queue pending_uploads files directories dclock].
  fold localId.
  match goal with
  | |- context [bindM (make_item_dir host localId) _ ?x] => set (d1 := x)
  end.
  assert (Hmk : make_item_dir host localId d1
                = (Returned tt,
                   mkDevice (sync_queue d1)
                     (<[localId := []]> (pending_uploads d1))
                     (files d1) (directories d1) (dclock d1))).
  { apply make_item_dir_fresh; [|exact Hfresh].
    unfold pending_uploads_exists, with_directories in *.
    subst d1.
    cbn [sync_queue pending_uploads files directories dclock] in *.
    injection Hexists as Hb. rewrite Hb. reflexivity. }
  rewrite (bindM_returned _ _ _ _ _ Hmk).
  subst d1.
  cbn [sync_queue pending_uploads files directories dclock].
  match goal with
  | |- context [bindM (generatePreview host file localId) _ ?x] =>
      destruct (generatePreview_text host file localId x shown Htext
                  Htruthy) as (dirs2 & Hprev)
  end.
  rewrite (bindM_returned _ _ _ _ _ Hprev).
  unfold with_directories.
  cbn [sync_queue pending_uploads files directories dclock].
  unfold Date_now at 1. unfold bindM at 1.
  cbn [sync_queue pending_uploads files directories dclock].
  unfold write_metadata, write_entry, accepted.
  unfold bindM at 1.
  cbn [sync_queue pending_uploads files directories dclock write_rejected
       reliable_storage].
  unfold ItemDir in *. rewrite lookup_insert_eq.
  rewrite Htext. cbn [truthy_opt default id]. rewrite Htruthy.
  unfold bindM at 1.
  cbn [sync_queue pending_uploads files directories dclock write_rejected
       reliable_storage].
  rewrite lookup_insert_eq.
  unfold bindM at 1. rewrite addToSyncQueue_eq. unfold ret.
  cbn [sync_queue pending_uploads files directories dclock].
  eexists. eexists. split; [|split; [|reflexivity]].
  - rewrite lookup_insert_eq. reflexivity.
  - intros other Hne. rewrite !lookup_insert_ne by congruence. reflexivity.
Qed.

Lemma saveFileLocally_text_preview host file d shown :
  text file = Some shown -> truthy shown = true ->
  pending_uploads d
    !! ("local-" ++ show_Z (dclock d) ++ "-"
        ++ show_nat (Math_random_10000 host)) = None ->
  fst (saveFileLocally host file d)
  = Returned
      ("local-" ++ show_Z (dclock d) ++ "-"
       ++ show_nat (Math_random_10000 host),
       mkPreview (Some (generateTextPreview shown 150)) None PvText).
Proof.
  intros Htext Htruthy Hfresh.
  destruct (saveFileLocally_text host file d shown Htext Htruthy Hfresh)
    as (dirs' & items & _ & _ & ->).
  reflexivity.
Qed.
(** C8 (amended): the preview of a saved text item is the text itself when
    it has at most 150 characters; otherwise it is a prefix of the text,
    between 75 and 150 characters long, followed by "...".  (The item is
    saved on the storage that accepts every write.) *)
Theorem saved_text_preview_shape host file d shown :
  text file = Some shown -> truthy shown = true ->
  pending_uploads d
    !! ("local-" ++ show_Z (dclock d) ++ "-"
        ++ show_nat (Math_random_10000 host)) = None ->
  exists localId preview,
    fst (saveFileLocally host file d)
    = Returned (localId, mkPreview (Some preview) None PvText)
    /\ (((String.length shown <= 150)%nat /\ preview = shown)
        \/ ((150 < String.length shown)%nat
            /\ exists n,
                 (75 <= n <= 150)%nat
                 /\ preview = substring0 shown n ++ "..."
                 /\ String.prefix (substring0 shown n) shown = true
                 /\ String.length (substring0 shown n) = n)).
Proof.
  intros Htext Htruthy Hfresh.
  rewrite (saveFileLocally_text_preview _ _ _ _ Htext Htruthy Hfresh).
  eexists. eexists. split; [reflexivity|].
  destruct (generateTextPreview_shape shown 150)
    as [[Hlen Heq] | (Hlen & n & Hn & Heq & Hpre & Hn')].
  - left. auto.
  - right. split; [exact Hlen|]. exists n.
    change (150 / 2)%nat with 75%nat in Hn. auto.
Qed.

Lemma saved_text_preview_shape_witness :
  exists localId preview,
    fst (saveFileLocally quiet_host short_note_file empty_device)
    = Returned (localId, mkPreview (Some preview) None PvText)
    /\ (((String.length "Buy milk. Call the plumber." <= 150)%nat
         /\ preview = "Buy milk. Call the plumber.")
        \/ ((150 < String.length "Buy milk. Call the plumber.")%nat
            /\ exists n,
                 (75 <= n <= 150)%nat
                 /\ preview
                    = substring0 "Buy milk. Call the plumber." n ++ "..."
                 /\ String.prefix
                      (substring0 "Buy milk. Call the plumber." n)
                      "Buy milk. Call the plumber." = true
                 /\ String.length
                      (substring0 "Buy milk. Call the plumber." n) = n)).
Proof.
  apply (saved_text_preview_shape quiet_host short_note_file empty_device
           "Buy milk. Call the plumber.");
    reflexivity.
Defined.


Section PollingFacts.

Variable API_URL : string.
Variable endpoint : nat -> outcome HttpResponse.
Variables (fileIdStr token : string).
Variables (maxAttempts pollInterval : nat).


Lemma poll_turn_not_found attempts r :
  endpoint attempts = Returned r -> ok r = false ->
  poll_turn endpoint fileIdStr attempts = Returned Again
  \/ exists e, poll_turn endpoint fileIdStr attempts = Threw e.
Proof.
  intros He Hok. unfold poll_turn. rewrite He. simpl. rewrite Hok. simpl.
  destruct (text_body r); simpl; [|eauto].
  left. destruct (http_status r =? 404)%nat; reflexivity.
Qed.

Lemma poll_turn_finish attempts r payload status :
  endpoint attempts = Returned r -> ok r = true ->
  json_body r = Returned payload ->
  p_status payload = Some status ->
  status = "completed" \/ status = "error" ->
  poll_turn endpoint fileIdStr attempts
  = Returned (Finish (with_fileId fileIdStr status payload)).
Proof.
  intros He Hok Hjson Hst Hterm. unfold poll_turn.
  rewrite He. simpl. rewrite Hok. simpl. rewrite Hjson. simpl.
  rewrite Hst. destruct Hterm as [-> | ->]; reflexivity.
Qed.

Lemma poll_turn_not_terminal attempts :
  answers_terminal (endpoint attempts) = false ->
  forall result,
    poll_turn endpoint fileIdStr attempts <> Returned (Finish result).
Proof.
  unfold answers_terminal, poll_turn. intros H result.
  destruct (endpoint attempts) as [r|e]; simpl; [|discriminate].
  destruct (ok r); simpl in *.
  - destruct (json_body r) as [p|e]; simpl; [|discriminate].
    rewrite H.
    match goal with
    | |- context [if ?c then _ else _] => destruct c
    end; discriminate.
  - destruct (text_body r); simpl; [|discriminate].
    destruct (http_status r =? 404)%nat; discriminate.
Qed.

Lemma poll_loop_retries remaining attempts :
  (S attempts < maxAttempts)%nat ->
  (forall result,
     poll_turn endpoint fileIdStr attempts <> Returned (Finish result)) ->
  poll_loop API_URL endpoint fileIdStr token maxAttempts pollInterval
    (S remaining) attempts
  = (fst (poll_loop API_URL endpoint fileIdStr token maxAttempts
            pollInterval remaining (S attempts)),
     Fetch (status_url API_URL fileIdStr) token :: Sleep pollInterval
     :: snd (poll_loop API_URL endpoint fileIdStr token maxAttempts
               pollInterval remaining (S attempts))).
Proof.
  intros Hlt Hturn. simpl.
  destruct (poll_turn endpoint fileIdStr attempts) as [[result|]|e].
  - exfalso. eapply Hturn. reflexivity.
  - reflexivity.
  - destruct (maxAttempts <=? S attempts)%nat eqn:E; [|reflexivity].
    apply Nat.leb_le in E. lia.
Qed.

Lemma poll_turn_throws attempts :
  match poll_turn endpoint fileIdStr attempts with
  | Threw _ => true
  | Returned _ => false
  end = request_throws (endpoint attempts).
Proof.
  unfold poll_turn, request_throws, bind.
  destruct (endpoint attempts) as [r|e]; [|reflexivity].
  destruct (ok r), (json_body r) as [p|e1], (text_body r) as [t|e2];
    cbv beta iota delta [negb];
    repeat match goal with
           | |- context [if ?c then _ else _] =>
               match type of c with bool => destruct c end
           end; reflexivity.
Qed.

Lemma poll_loop_exhausted remaining attempts :
  (attempts + remaining = maxAttempts)%nat ->
  (forall k, (attempts <= k < maxAttempts)%nat ->
             answers_terminal (endpoint k) = false) ->
  requests
    (snd (poll_loop API_URL endpoint fileIdStr token maxAttempts
            pollInterval remaining attempts)) = remaining
  /\ fst (poll_loop API_URL endpoint fileIdStr token maxAttempts
            pollInterval remaining attempts)
     = mkUploadResult "error" None
         (Some
            (match maxAttempts with
             | S last =>
                 if (attempts <=? last)%nat
                    && request_throws (endpoint last)
                 then "Max polling attempts reached after error"
                 else "Timed out waiting for processing results"
             | O => "Timed out waiting for processing results"
             end))
         (Some fileIdStr) None None None None.
Proof.
  revert attempts. induction remaining as [|remaining IH];
    intros attempts Hsum Hall.
  - simpl. split; [reflexivity|].
    destruct maxAttempts as [|last]; [reflexivity|].
    replace (attempts <=? last)%nat with false
      by (symmetry; apply Nat.leb_gt; lia).
    reflexivity.
  - assert (Hnot := poll_turn_not_terminal attempts
                      (Hall attempts ltac:(lia))).
    destruct (IH (S attempts) ltac:(lia)
                (fun k Hk => Hall k ltac:(lia))) as [IHreq IHres].
    destruct maxAttempts as [|last] eqn:Hmax; [lia|].
    simpl. rewrite <- !poll_turn_throws in *.
    assert (Hlast : forall b : bool,
               attempts <> last ->
               ((S attempts <=? last)%nat && b)
               = ((attempts <=? last)%nat && b)).
    { intros b Hne. f_equal.
      destruct (Nat.leb_spec (S attempts) last),
        (Nat.leb_spec attempts last); (reflexivity || lia). }
    destruct (poll_turn endpoint fileIdStr attempts) as [[result|]|e] eqn:Ht.
    + exfalso. eapply Hnot. reflexivity.
    + simpl. split; [unfold requests in *; simpl; lia|].
      rewrite IHres.
      destruct (Nat.eq_dec attempts last) as [->|Hne].
      * rewrite Ht, !andb_false_r. reflexivity.
      * rewrite Hlast by exact Hne. reflexivity.
    + destruct (Nat.eq_dec attempts last) as [->|Hne].
      * rewrite Nat.leb_refl. simpl.
        assert (remaining = 0)%nat as -> by lia.
        split; [reflexivity|]. rewrite Ht. reflexivity.
      * replace (last <=? attempts)%nat with false
          by (symmetry; apply Nat.leb_gt; lia).
        simpl. split; [unfold requests in *; simpl; lia|].
        rewrite IHres, Hlast by exact Hne. reflexivity.
Qed.

(* the trace of [n] turns that do not return, each followed by a wait *)
Lemma poll_loop_turns n :
  forall attempts remaining,
    (attempts + n < maxAttempts)%nat ->
    (forall j, (attempts <= j < attempts + n)%nat ->
               forall result,
                 poll_turn endpoint fileIdStr j <> Returned (Finish result)) ->
    poll_loop API_URL endpoint fileIdStr token maxAttempts pollInterval
      (n + remaining) attempts
    = (fst (poll_loop API_URL endpoint fileIdStr token maxAttempts
              pollInterval remaining (attempts + n)),
       (concat
          (replicate n
             [Fetch (API_URL ++ "/api/get-upload-status/" ++ fileIdStr)
                token;
              Sleep pollInterval])
        ++ snd (poll_loop API_URL endpoint fileIdStr token maxAttempts
                  pollInterval remaining (attempts + n)))%list).
Proof.
  induction n as [|n IH]; intros attempts remaining Hlt Hturns.
  - rewrite Nat.add_0_r. cbn [Nat.add replicate concat app].
    destruct (poll_loop _ _ _ _ _ _ _ _); reflexivity.
  - cbn [Nat.add]. rewrite poll_loop_retries;
      [|lia|apply Hturns; lia].
    rewrite (IH (S attempts) remaining) by
      (lia || (intros j Hj; apply Hturns; lia)).
    cbn [fst snd replicate concat app].
    replace (S attempts + n)%nat with (attempts + S n)%nat by lia.
    reflexivity.
Qed.

Lemma poll_loop_starts_with_request remaining attempts :
  exists rest,
    snd (poll_loop API_URL endpoint fileIdStr token maxAttempts pollInterval
           (S remaining) attempts)
    = Fetch (API_URL ++ "/api/get-upload-status/" ++ fileIdStr) token :: rest.
Proof.
  cbn [poll_loop].
  destruct (poll_turn endpoint fileIdStr attempts) as [[result|]|e];
    [eexists; reflexivity|eexists; reflexivity|].
  destruct (maxAttempts <=? S attempts)%nat; eexists; reflexivity.
Qed.

Lemma poll_loop_first_terminal k r payload status :
  (k < maxAttempts)%nat ->
  (forall j, (j < k)%nat -> answers_terminal (endpoint j) = false) ->
  endpoint k = Returned r -> ok r = true ->
  json_body r = Returned payload ->
  p_status payload = Some status ->
  status = "completed" \/ status = "error" ->
  poll_loop API_URL endpoint fileIdStr token maxAttempts pollInterval
    maxAttempts 0
  = (mkUploadResult status (p_text payload) (p_error payload)
       (Some fileIdStr) (p_url payload) (p_fileUrl payload)
       (p_mimeType payload) (p_fileName payload),
     (concat
        (replicate k
           [Fetch (API_URL ++ "/api/get-upload-status/" ++ fileIdStr) token;
            Sleep pollInterval])
      ++ [Fetch (API_URL ++ "/api/get-upload-status/" ++ fileIdStr)
            token])%list).
Proof.
  intros Hk Hbefore He Hok Hjson Hst Hterm.
  pose proof (poll_loop_turns k 0%nat (S (maxAttempts - S k))) as Hturns.
  replace (k + S (maxAttempts - S k))%nat with maxAttempts in Hturns by lia.
  rewrite Hturns.
  - cbn [Nat.add poll_loop].
    rewrite (poll_turn_finish k r payload status) by assumption.
    reflexivity.
  - lia.
  - intros j Hj. apply poll_turn_not_terminal, Hbefore. lia.
Qed.

End PollingFacts.

(** C9: with a status endpoint that answers 404 to the first two requests
    and a [completed] payload to the third, a non-text poll of at least three
    attempts (the default is 30) waits the initial delay, makes exactly three
    requests with a wait between them, and returns status [completed], the
    text, error, URLs, MIME type and file name of that payload, and the file
    id that was asked for.  A 404 is retried: when the answers before
    attempt [k] are not terminal and answer [k] is a 404 that is not the last
    permitted attempt, a wait and another request follow it.  When none of
    the [maxAttempts] answers is terminal, exactly [maxAttempts] requests are
    made and the result has status [error], the file id, no text, and the
    message "Timed out waiting for processing results", or "Max polling
    attempts reached after error" when the last attempt itself threw. *)
Theorem pollForResults_retries_until_terminal
  API_URL endpoint fileIdStr token maxAttempts initialDelay pollInterval :
  let request :=
    Fetch (API_URL ++ "/api/get-upload-status/" ++ fileIdStr) token in
  let polled :=
    pollForResults API_URL endpoint fileIdStr token false maxAttempts
      initialDelay pollInterval in
  (forall r0 r1 r2 payload,
     (3 <= maxAttempts)%nat ->
     endpoint 0%nat = Returned r0 -> ok r0 = false -> http_status r0 = 404%nat ->
     endpoint 1%nat = Returned r1 -> ok r1 = false -> http_status r1 = 404%nat ->
     endpoint 2%nat = Returned r2 -> ok r2 = true ->
     json_body r2 = Returned payload ->
     p_status payload = Some "completed" ->
     polled
     = (mkUploadResult "completed" (p_text payload) (p_error payload)
          (Some fileIdStr) (p_url payload) (p_fileUrl payload)
          (p_mimeType payload) (p_fileName payload),
        [Sleep initialDelay; request; Sleep pollInterval; request;
         Sleep pollInterval; request])
     /\ requests (snd polled) = 3%nat)
  /\ (forall k r,
        (S k < maxAttempts)%nat ->
        (forall j, (j < k)%nat -> answers_terminal (endpoint j) = false) ->
        endpoint k = Returned r -> ok r = false ->
        http_status r = 404%nat ->
        exists rest,
          snd polled
          = (Sleep initialDelay
             :: concat (replicate (S k) [request; Sleep pollInterval])
             ++ request :: rest)%list)
  /\ ((forall k, (k < maxAttempts)%nat ->
                 answers_terminal (endpoint k) = false) ->
      requests (snd polled) = maxAttempts
      /\ fst polled
         = mkUploadResult "error" None
             (Some
                (if last_turn_throws endpoint maxAttempts
                 then "Max polling attempts reached after error"
                 else "Timed out waiting for processing results"))
             (Some fileIdStr) None None None None).
Proof.
  intros request polled. subst request polled. unfold pollForResults.
  split; [|split].
  - intros r0 r1 r2 payload Hmax H0 Hok0 _ H1 Hok1 _ H2 Hok2 Hjson Hst.
    assert (Hbefore : forall j, (j < 2)%nat ->
                                answers_terminal (endpoint j) = false).
    { intros [|[|j]] Hj; [| |lia]; unfold answers_terminal.
      - rewrite H0, Hok0. reflexivity.
      - rewrite H1, Hok1. reflexivity. }
    rewrite (poll_loop_first_terminal API_URL endpoint fileIdStr token
               maxAttempts pollInterval 2 r2 payload "completed"
               ltac:(lia) Hbefore H2 Hok2 Hjson Hst ltac:(left; reflexivity)).
    split; reflexivity.
  - intros k r Hlt Hbefore He Hok _.
    pose proof (poll_loop_turns API_URL endpoint fileIdStr token maxAttempts
                  pollInterval (S k) 0%nat (S (maxAttempts - S (S k))))
      as Hturns.
    replace (S k + S (maxAttempts - S (S k)))%nat with maxAttempts
      in Hturns by lia.
    rewrite Hturns.
    + cbn [snd].
      destruct (poll_loop_starts_with_request API_URL endpoint fileIdStr
                  token maxAttempts pollInterval (maxAttempts - S (S k))
                  (0 + S k)) as [rest Hrest].
      rewrite Hrest. exists rest. reflexivity.
    + lia.
    + intros j Hj result.
      destruct (Nat.eq_dec j k) as [->|Hne].
      * destruct (poll_turn_not_found endpoint fileIdStr k r He Hok)
          as [-> | [e ->]]; discriminate.
      * apply poll_turn_not_terminal, Hbefore. lia.
  - intros Hall.
    destruct (poll_loop_exhausted API_URL endpoint fileIdStr token
                maxAttempts pollInterval maxAttempts 0%nat eq_refl
                (fun k Hk => Hall k (proj2 Hk))) as [Hreq Hres].
    cbn [fst snd]. split; [exact Hreq|]. rewrite Hres.
    unfold last_turn_throws. destruct maxAttempts; reflexivity.
Qed.

Lemma pollForResults_retries_until_terminal_witness :
  pollForResults "https://api.example" late_endpoint "17" "token" false
    30 2000 3000
  = (mkUploadResult "completed" (Some (PlainText "Shopping list")) None
       (Some "17") None None None None,
     [Sleep 2000;
      Fetch "https://api.example/api/get-upload-status/17" "token";
      Sleep 3000;
      Fetch "https://api.example/api/get-upload-status/17" "token";
      Sleep 3000;
      Fetch "https://api.example/api/get-upload-status/17" "token"]).
Proof.
  apply (proj1 (pollForResults_retries_until_terminal
                  "https://api.example" late_endpoint "17" "token" 30 2000
                  3000)
           not_found_response not_found_response completed_response
           completed_payload);
    (reflexivity || lia).
Defined.


Lemma dir_lookup_write entry data dir :
  dir_lookup entry (dir_write entry data dir) = Some data.
Proof.
  induction dir as [|[n old] dir IH]; simpl.
  - rewrite String.eqb_refl. reflexivity.
  - destruct (String.eqb n entry) eqn:E; simpl; rewrite E; auto.
Qed.

Lemma stored_metadata_written localId dir m q dirs other made clk :
  stored_metadata
    (mkDevice q
       (<[localId := dir_write "metadata.json" (MetaFile m) dir]> dirs)
       other made clk) localId
  = Some m.
Proof.
  unfold stored_metadata. simpl.
  rewrite lookup_insert_eq, dir_lookup_write. reflexivity.
Qed.

Section Draining.

Context {storage : Storage}.
Variables (host : Host) (token : string) (d : Device).
Variables (localId : string) (rest : list string).
Variables (dir : ItemDir) (m : Metadata) (sharedFile : SharedFile).

Hypothesis Hqueue : sync_queue d = Some (localId :: rest).
Hypothesis Hdir : pending_uploads d !! localId = Some dir.
Hypothesis Hmeta : dir_lookup "metadata.json" dir = Some (MetaFile m).
Hypothesis Hopen : md_status m <> "completed".
Hypothesis Hload :
  load_shared_file host localId m d = (Returned (Some sharedFile), d).

Lemma processSyncQueue_attempts :
  processSyncQueue host token d
  = let '(o, s) :=
      upload_attempt host localId sharedFile token
        (mkSync d m (localId :: rest)) in
    (match o with
     | Returned _ => Returned (0 <? List.length (queue s))%nat
     | Threw _ => Returned false
     end, device s).
Proof.
  unfold processSyncQueue, try_catchM, bindM, queue_exists, read_queue,
    dir_exists, read_metadata, ret.
  rewrite Hqueue. rewrite bool_decide_eq_true_2 by eauto.
  cbv beta iota delta [negb]. rewrite Hqueue.
  rewrite Hdir. rewrite bool_decide_eq_true_2 by eauto.
  cbv beta iota delta [negb]. rewrite Hdir, Hmeta.
  destruct (String.eqb_spec (md_status m) "completed") as [E|_];
    [contradiction|].
  rewrite Hload.
  destruct (upload_attempt host localId sharedFile token
              (mkSync d m (localId :: rest))) as [[u|e] s]; reflexivity.
Qed.

Variables (updates : list StatusUpdate) (result : outcome UploadResult).

Hypothesis Hcall : handleFileProcess host sharedFile token = (updates, result).

(** The storage accepts the writes of the queue file and of the entry's
    metadata. *)
Hypothesis Hqueue_ok : forall t, write_rejected QueueFile t = None.
Hypothesis Hmeta_ok :
  forall t, write_rejected (ItemFile localId "metadata.json") t = None.

Ltac run_attempt :=
  unfold upload_attempt, call_handleFileProcess, try_catchM, bindM,
    on_device, get_metadata, get_queue, assign_metadata, assign_queue,
    write_metadata, write_entry, write_queue, accepted, Date_now, ret;
  cbn [device metadata queue]; rewrite Hcall;
  cbn [device metadata queue sync_queue pending_uploads files directories
       dclock].

Lemma upload_attempt_error r :
  result = Returned r -> ur_status r = "error" ->
  let m' :=
    set_error (Some (or_default (ur_error r) "Unknown processing error"))
      (set_status "error"
         (set_lastAttempt (Some (dclock d)) (foldl on_status m updates))) in
  upload_attempt host localId sharedFile token (mkSync d m (localId :: rest))
  = (Returned tt,
     mkSync
       (mkDevice (Some (rest ++ [localId])%list)
          (<[localId := dir_write "metadata.json" (MetaFile m') dir]>
             (pending_uploads d))
          (files d) (directories d) (dclock d + 1))
       m' (rest ++ [localId])%list).
Proof.
  intros -> Hst. run_attempt. rewrite Hst.
  cbn [String.eqb Ascii.eqb Bool.eqb].
  cbn [device metadata queue sync_queue pending_uploads files directories
       dclock].
  rewrite Hdir, Hmeta_ok.
  cbn [device metadata queue sync_queue pending_uploads files directories
       dclock].
  rewrite Hqueue_ok. reflexivity.
Qed.

Lemma upload_attempt_threw e :
  result = Threw e ->
  let m' :=
    set_lastAttempt (Some (dclock d))
      (set_error (Some (message_or "Critical processing error" e))
         (set_status "error" (foldl on_status m updates))) in
  upload_attempt host localId sharedFile token (mkSync d m (localId :: rest))
  = (Returned tt,
     mkSync
       (mkDevice (Some (rest ++ [localId])%list)
          (<[localId := dir_write "metadata.json" (MetaFile m') dir]>
             (pending_uploads d))
          (files d) (directories d) (dclock d + 1))
       m' (rest ++ [localId])%list).
Proof.
  intros ->. run_attempt. rewrite Hdir, Hmeta_ok.
  cbn [device metadata queue sync_queue pending_uploads files directories
       dclock].
  rewrite Hqueue_ok. reflexivity.
Qed.

Lemma upload_attempt_completed r :
  result = Returned r -> ur_status r = "completed" ->
  let m' :=
    set_error None
      (set_processedAt (Some (dclock d + 1)%Z)
         (processed_preview r
            (set_serverFileId (ur_fileId r)
               (set_status "completed"
                  (set_lastAttempt (Some (dclock d))
                     (foldl on_status m updates)))))) in
  upload_attempt host localId sharedFile token (mkSync d m (localId :: rest))
  = (Returned tt,
     mkSync
       (mkDevice (Some rest)
          (<[localId := dir_write "metadata.json" (MetaFile m') dir]>
             (pending_uploads d))
          (files d) (directories d) (dclock d + 1 + 1))
       m' rest).
Proof.
  intros -> Hst. run_attempt. rewrite Hst.
  cbn [String.eqb Ascii.eqb Bool.eqb].
  cbn [device metadata queue sync_queue pending_uploads files directories
       dclock].
  rewrite Hdir, Hmeta_ok.
  cbn [device metadata queue sync_queue pending_uploads files directories
       dclock].
  rewrite Hqueue_ok. reflexivity.
Qed.

End Draining.

(** C7 (as stated, refuted): a failed attempt does not always move the
    entry to the tail, and a successful one is not always marked completed
    and removed.  Every write is awaited inside the [try] block, and a
    rejected one is caught like a failed upload.  When the storage rejects
    the write of the metadata after an upload that completed, the entry is
    marked [error] and moved to the tail.  When it rejects the write of the
    queue file, the [catch] block meets a queue that was already changed in
    memory: with every queue write rejected, an attempt that ends in
    [error] leaves the entry at the head of the stored queue and the run
    reports no more work; with the first queue write alone rejected, an
    attempt that ends in [completed] marks the entry [error] and drops it
    from the queue. *)
Lemma rejected_queue_write_breaks_the_move :
  let completed :=
    Returned (mkUploadResult "completed" None None (Some "17") None None
                None None) in
  (let drained :=
     processSyncQueue (storage := metadata_write_fails_at 1006)
       (host_answering completed) "token" two_notes_device in
   fst drained = Returned true
   /\ sync_queue (snd drained) = Some ["local-1002-42"; "local-1000-42"]
   /\ exists m',
        stored_metadata (snd drained) "local-1000-42" = Some m'
        /\ md_status m' = "error"
        /\ md_error m' = Some "disk full")
  /\ (let drained :=
        processSyncQueue (storage := queue_file_locked)
          (host_answering (Returned quota_error)) "token"
          two_notes_device in
      fst drained = Returned false
      /\ sync_queue (snd drained) = Some ["local-1000-42"; "local-1002-42"])
  /\ (let drained :=
        processSyncQueue (storage := queue_write_fails_at 1006)
          (host_answering completed) "token" two_notes_device in
      fst drained = Returned true
      /\ sync_queue (snd drained) = Some ["local-1002-42"]
      /\ exists m',
           stored_metadata (snd drained) "local-1000-42" = Some m'
           /\ md_status m' = "error"
           /\ md_error m' = Some "disk full").
Proof.
  cbv zeta. split; [|split].
  - vm_compute. split; [reflexivity|]. split; [reflexivity|].
    eexists. split; [reflexivity|]. split; reflexivity.
  - vm_compute. split; reflexivity.
  - vm_compute. split; [reflexivity|]. split; [reflexivity|].
    eexists. split; [reflexivity|]. split; reflexivity.
Qed.

(** C7 (amended): on a storage that accepts the writes of the queue file
    and of the entry's metadata, when the head entry of a non-empty sync
    queue is attempted -- its directory, an unfinished metadata file and a
    content file are there -- and the upload path fails, by an [error]
    result or by an exception, [processSyncQueue] stores status [error], the
    reason and the time of the attempt in the entry's metadata and moves the
    entry to the tail of the queue; when the upload path completes, it
    stores status [completed] and removes the entry from the queue. *)
Theorem processSyncQueue_failure_moves_to_tail
  (storage : Storage) host token d localId rest dir m sharedFile updates
  result :
  (forall t, write_rejected QueueFile t = None) ->
  (forall t, write_rejected (ItemFile localId "metadata.json") t = None) ->
  sync_queue d = Some (localId :: rest) ->
  pending_uploads d !! localId = Some dir ->
  dir_lookup "metadata.json" dir = Some (MetaFile m) ->
  md_status m <> "completed" ->
  load_shared_file host localId m d = (Returned (Some sharedFile), d) ->
  handleFileProcess host sharedFile token = (updates, result) ->
  let drained := processSyncQueue host token d in
  (forall reason,
     failed_with result reason ->
     fst drained = Returned true
     /\ sync_queue (snd drained) = Some (rest ++ [localId])%list
     /\ exists m',
          stored_metadata (snd drained) localId = Some m'
          /\ md_status m' = "error"
          /\ md_error m' = Some reason
          /\ md_lastAttempt m' = Some (dclock d))
  /\ (forall r,
        result = Returned r -> ur_status r = "completed" ->
        fst drained = Returned (0 <? List.length rest)%nat
        /\ sync_queue (snd drained) = Some rest
        /\ exists m',
             stored_metadata (snd drained) localId = Some m'
             /\ md_status m' = "completed"
             /\ md_error m' = None).
Proof.
  intros Hqueue_ok Hmeta_ok Hqueue Hdir Hmeta Hopen Hload Hcall drained.
  subst drained.
  rewrite (processSyncQueue_attempts host token d localId rest dir m
             sharedFile Hqueue Hdir Hmeta Hopen Hload).
  assert (Hmore : (0 <? List.length (rest ++ [localId]))%nat = true).
  { rewrite length_app. simpl. apply Nat.ltb_lt. lia. }
  split.
  - intros reason Hfail.
    inversion Hfail as [r Hst Hr Hreason | e Hr Hreason]; subst.
    + rewrite (upload_attempt_error host token d localId rest dir m
                 sharedFile Hdir updates _ Hcall Hqueue_ok Hmeta_ok r eq_refl
                 Hst).
      cbn [fst snd device queue sync_queue]. rewrite Hmore.
      split; [reflexivity|]. split; [reflexivity|].
      eexists. split; [apply stored_metadata_written|].
      repeat split.
    + rewrite (upload_attempt_threw host token d localId rest dir m
                 sharedFile Hdir updates _ Hcall Hqueue_ok Hmeta_ok e
                 eq_refl).
      cbn [fst snd device queue sync_queue]. rewrite Hmore.
      split; [reflexivity|]. split; [reflexivity|].
      eexists. split; [apply stored_metadata_written|].
      repeat split.
  - intros r -> Hst.
    rewrite (upload_attempt_completed host token d localId rest dir m
               sharedFile Hdir updates _ Hcall Hqueue_ok Hmeta_ok r eq_refl
               Hst).
    cbn [fst snd device queue sync_queue].
    split; [reflexivity|]. split; [reflexivity|].
    eexists. split; [apply stored_metadata_written|].
    split; [|reflexivity].
    unfold processed_preview.
    destruct (ur_text r) as [[t|[x|]]|]; try reflexivity.
    destruct (truthy x); reflexivity.
Qed.

Lemma processSyncQueue_failure_moves_to_tail_witness :
  let drained :=
    processSyncQueue (host_answering (Returned quota_error)) "token"
      two_notes_device in
  fst drained = Returned true
  /\ sync_queue (snd drained) = Some ["local-1002-42"; "local-1000-42"]
  /\ exists m',
       stored_metadata (snd drained) "local-1000-42" = Some m'
       /\ md_status m' = "error"
       /\ md_error m' = Some "Quota exceeded"
       /\ md_lastAttempt m' = Some 1004%Z.
Proof.
  edestruct (processSyncQueue_failure_moves_to_tail reliable_storage
               (host_answering (Returned quota_error)) "token"
               two_notes_device "local-1000-42" ["local-1002-42"])
    as [Hfail _];
    [ intros t; reflexivity | intros t; reflexivity
    | vm_compute; reflexivity | vm_compute; reflexivity
    | vm_compute; reflexivity | vm_compute; discriminate
    | vm_compute; reflexivity | vm_compute; reflexivity | ].
  exact (Hfail _ (failed_result quota_error eq_refl)).
Defined.

End ClientProofs.

(** ** Further properties of the worker *)

Module WorkerKeys.
Import Js Worker WorkerSpec WorkerSpecMore WorkerProofs.

(** *** Strings *)

Lemma append_cons c (s t : string) : String c s ++ t = String c (s ++ t).
Proof. reflexivity. Qed.

Lemma append_nil_r s : s ++ "" = s.
Proof.
  induction s as [|c s IH]; [reflexivity|].
  rewrite append_cons, IH. reflexivity.
Qed.

Lemma append_assoc (a b c : string) : (a ++ b) ++ c = a ++ b ++ c.
Proof.
  induction a as [|x a IH]; [reflexivity|].
  rewrite !append_cons, IH. reflexivity.
Qed.

Lemma string_of_list_ascii_app l1 l2 :
  string_of_list_ascii (l1 ++ l2)%list
  = string_of_list_ascii l1 ++ string_of_list_ascii l2.
Proof.
  induction l1 as [|x l1 IH]; [reflexivity|].
  cbn [app string_of_list_ascii]. rewrite append_cons, IH. reflexivity.
Qed.

Lemma rev_string_cons c s :
  rev_string (String c s) = rev_string s ++ String c "".
Proof.
  unfold rev_string. simpl. rewrite string_of_list_ascii_app. reflexivity.
Qed.

Lemma join_cons x parts sep :
  parts <> [] -> join (x :: parts) sep = x ++ sep ++ join parts sep.
Proof. destruct parts; [contradiction|reflexivity]. Qed.

Lemma split_acc_nonempty sep cur s : split_acc sep cur s <> [].
Proof.
  revert cur. induction s as [|c s IH]; intros cur; simpl;
    [discriminate|]. destruct (Ascii.eqb c sep); [discriminate|apply IH].
Qed.

Lemma join_split_acc sep cur s :
  join (split_acc sep cur s) (String sep "") = rev_string cur ++ s.
Proof.
  revert cur. induction s as [|c s IH]; intros cur; simpl.
  - rewrite append_nil_r. reflexivity.
  - destruct (Ascii.eqb_spec c sep) as [->|Hne].
    + rewrite join_cons by apply split_acc_nonempty.
      rewrite IH. reflexivity.
    + rewrite IH, rev_string_cons, append_assoc. reflexivity.
Qed.

Lemma join_split s sep : join (split s sep) (String sep "") = s.
Proof. unfold split. rewrite join_split_acc. reflexivity. Qed.

Lemma join_app a b sep :
  a <> [] -> b <> [] ->
  join (a ++ b)%list sep = join a sep ++ sep ++ join b sep.
Proof.
  intros Ha Hb. induction a as [|x a IH]; [contradiction|].
  destruct a as [|y a].
  - simpl app. rewrite join_cons by exact Hb. reflexivity.
  - change ((x :: y :: a) ++ b)%list with (x :: ((y :: a) ++ b))%list.
    rewrite join_cons by discriminate.
    rewrite IH by discriminate.
    rewrite (join_cons x (y :: a)) by discriminate.
    rewrite !append_assoc. reflexivity.
Qed.

Lemma findIndex_Some {A} (p : A -> bool) l i :
  findIndex p l = Some i ->
  exists x, l !! i = Some x /\ p x = true.
Proof.
  revert i. induction l as [|y l IH]; intros i; simpl; [discriminate|].
  destruct (p y) eqn:Hp.
  - intros [= <-]. eauto.
  - destruct (findIndex p l) as [j|]; simpl; [|discriminate].
    intros [= <-]. apply IH. reflexivity.
Qed.

Lemma split_acc_free sep cur s :
  free_of sep s = true -> split_acc sep cur s = [rev_string cur ++ s].
Proof.
  revert cur. induction s as [|c s IH]; intros cur; simpl.
  - rewrite append_nil_r. reflexivity.
  - intros [Hc Hs]%andb_true_iff. apply negb_true_iff in Hc. rewrite Hc.
    rewrite IH by exact Hs. rewrite rev_string_cons, append_assoc.
    reflexivity.
Qed.

Lemma split_acc_free_then sep cur s t :
  free_of sep s = true ->
  split_acc sep cur (s ++ String sep t)
  = (rev_string cur ++ s) :: split_acc sep "" t.
Proof.
  revert cur. induction s as [|c s IH]; intros cur; simpl.
  - intros _. rewrite Ascii.eqb_refl, append_nil_r. reflexivity.
  - intros [Hc Hs]%andb_true_iff. apply negb_true_iff in Hc. rewrite Hc.
    rewrite IH by exact Hs. rewrite rev_string_cons, append_assoc.
    reflexivity.
Qed.

(** *** The object key *)

(** X1: when the row stores no object key and one is derived, the key is the
    tail of the public URL that starts at an [uploads] path segment. *)
Theorem resolveR2Key_derived_from_url fileRecord key :
  truthy_opt (r2Key fileRecord) = false ->
  resolveR2Key fileRecord = inr key ->
  exists before rest,
    blobUrl fileRecord = before ++ key /\ key = "uploads/" ++ rest.
Proof.
  unfold resolveR2Key. intros ->.
  destruct (findIndex _ _) as [i|] eqn:Hfind; [|discriminate].
  destruct (i <? _)%nat eqn:Hlt; [|discriminate].
  apply Nat.ltb_lt in Hlt.
  destruct (findIndex_Some _ _ _ Hfind) as (x & Hx & Hp).
  apply String.eqb_eq in Hp. subst x.
  set (parts := split (blobUrl fileRecord) "/") in *.
  assert (Hdrop : drop i parts = "uploads" :: drop (S i) parts)
    by (apply drop_S; exact Hx).
  assert (Hrest : drop (S i) parts <> []).
  { intros E. apply (f_equal List.length) in E.
    rewrite length_drop in E. cbn [List.length] in E. lia. }
  assert (Hkey : join (drop i parts) "/"
                 = "uploads/" ++ join (drop (S i) parts) "/").
  { rewrite Hdrop, join_cons by exact Hrest. reflexivity. }
  rewrite Hkey.
  destruct (truthy_opt _) eqn:Ht; simpl; [|discriminate].
  intros [= <-]. rewrite <- Hkey.
  assert (Hurl : blobUrl fileRecord = join parts "/")
    by (symmetry; apply join_split).
  destruct i as [|i].
  - exists "", (join (drop 1 parts) "/"). split; [|exact Hkey].
    rewrite drop_0. exact Hurl.
  - exists (join (take (S i) parts) "/" ++ "/"),
      (join (drop (S (S i)) parts) "/").
    split; [|exact Hkey].
    rewrite Hurl at 1. rewrite <- (take_drop (S i) parts) at 1.
    rewrite join_app.
    + rewrite append_assoc. reflexivity.
    + intros E. apply (f_equal List.length) in E.
      rewrite length_take in E. cbn [List.length] in E. lia.
    + rewrite Hdrop. discriminate.
Qed.

Lemma resolveR2Key_derived_from_url_witness :
  exists before rest,
    "https://cdn.example/uploads/u1/a.png" = before ++ "uploads/u1/a.png"
    /\ "uploads/u1/a.png" = "uploads/" ++ rest.
Proof.
  apply (resolveR2Key_derived_from_url WorkerSamplesMore.derived_key_row
           "uploads/u1/a.png");
    reflexivity.
Defined.

End WorkerKeys.

Module WorkerStrategies.
Import Js Worker WorkerSpec WorkerSpecMore WorkerProofs WorkerKeys.

(** *** Diagram generation *)

Lemma uploadToR2_returned svc key body contentType :
  uploadToR2 svc key body contentType = Returned tt ->
  r2_put svc key body contentType = Returned tt.
Proof.
  unfold uploadToR2, try_catch.
  destruct (r2_put svc key body contentType) as [[]|e];
    [reflexivity|discriminate].
Qed.

(** X2: [processMagicDiagram] never throws and answers in one of two shapes.
    Success: the object under the original key was downloaded, there is no
    error, the cost is the fixed 5000 tokens, and the URL is the public URL
    of an object [generated/<userId>/<stem>.png] that the object store
    accepted as [image/png].  Failure: an empty URL, zero tokens and an
    error that starts with "Error generating diagram: ". *)
Theorem processMagicDiagram_two_shapes svc r2Key originalFileName userId :
  let r := processMagicDiagram svc r2Key originalFileName userId in
  (dg_error r = None /\ dg_tokensUsed r = 5000%Z
   /\ (exists bytes, r2_get svc r2Key = Returned (Some bytes))
   /\ exists stem body,
        dg_generatedImageUrl r
        = R2_PUBLIC_URL svc ++ "/" ++ "generated/" ++ userId ++ "/" ++ stem
          ++ ".png"
        /\ r2_put svc ("generated/" ++ userId ++ "/" ++ stem ++ ".png") body
             "image/png" = Returned tt)
  \/ (exists message,
        dg_error r = Some ("Error generating diagram: " ++ message)
        /\ dg_generatedImageUrl r = "" /\ dg_tokensUsed r = 0%Z).
Proof.
  unfold processMagicDiagram, bind.
  destruct (downloadFromR2 svc r2Key) as [bytes|e] eqn:Hdl;
    [|right; eexists; repeat split].
  destruct (writeFileSync svc _ bytes) as [[]|e];
    [|right; eexists; repeat split].
  destruct (toFile svc _ _ _) as [prepared|e];
    [|right; eexists; repeat split].
  destruct (images_edit svc prepared _) as [b64|e];
    [|right; eexists; repeat split].
  destruct (negb (truthy_opt b64)); [right; eexists; repeat split|].
  match goal with
  | |- context [uploadToR2 svc ?k ?b ?c] =>
      destruct (uploadToR2 svc k b c) as [[]|e] eqn:Hup
  end; [|right; eexists; repeat split].
  left. cbn [dg_error dg_tokensUsed dg_generatedImageUrl].
  split; [reflexivity|]. split; [reflexivity|]. split.
  - unfold downloadFromR2, try_catch, bind in Hdl.
    destruct (r2_get svc r2Key) as [[b|]|e]; try discriminate. eauto.
  - apply uploadToR2_returned in Hup.
    eexists (show_Z (date_now_key svc) ++ "-" ++ random_hex svc ++ "-"
             ++ path_basename_ext svc originalFileName _), _.
    rewrite !append_assoc. split; [reflexivity|]. exact Hup.
Qed.

(** *** OCR *)

Lemma trimStart_keeps_nonspace l c :
  is_space c = false ->
  trimStart (string_of_list_ascii (l ++ [c])%list) <> "".
Proof.
  intros Hc. induction l as [|a l IH]; simpl.
  - rewrite Hc. discriminate.
  - destruct (is_space a); [exact IH|discriminate].
Qed.

Lemma rev_string_nil s : rev_string s = "" -> s = "".
Proof.
  destruct s as [|c s]; [reflexivity|].
  rewrite rev_string_cons. destruct (rev_string s); discriminate.
Qed.

Lemma trim_blank_first c s :
  trim (String c s) = "" -> is_space c = true.
Proof.
  unfold trim. intros H%rev_string_nil.
  destruct (is_space c) eqn:Hc; [reflexivity|exfalso].
  simpl trimStart in H. rewrite Hc in H.
  unfold rev_string in H at 1. simpl in H.
  exact (trimStart_keeps_nonspace _ _ Hc H).
Qed.

Lemma blank_is_not_marked_error text :
  negb (truthy text) || String.eqb (trim text) "" = true ->
  startsWith text "Error processing image OCR" = false.
Proof.
  destruct text as [|c s]; [reflexivity|].
  simpl negb. simpl orb. intros H%String.eqb_eq.
  apply trim_blank_first in H.
  unfold startsWith. cbn [String.prefix].
  destruct (ascii_dec "E" c) as [<-|_]; [discriminate|reflexivity].
Qed.

(** X4: an image booked for standard OCR whose text comes back empty or
    blank is stored as [completed] with the placeholder
    "[OCR completed, but no text extracted]", no generated image and no
    error; the reported cost is kept. *)
Theorem blank_ocr_answer_completes svc fileRecord r2Key markdown usage :
  uses_ocr fileRecord = true ->
  resolveR2Key fileRecord = inr r2Key ->
  truthy (blobUrl fileRecord) = true ->
  generateObject svc (blobUrl fileRecord) = Returned (markdown, usage) ->
  String.eqb (trim markdown) "" = true ->
  processSingleFileRecord svc fileRecord
  = Returned
      (mkResult StCompleted (Some "[OCR completed, but no text extracted]")
         None (snd (processImageWithGPT4one svc (blobUrl fileRecord))) None).
Proof.
  intros Hocr Hkey Hurl Hgen Hblank.
  unfold uses_ocr in Hocr. apply andb_true_iff in Hocr as [Hp Hi].
  unfold processSingleFileRecord, strategy. rewrite Hkey.
  rewrite (eqb_standard_not_magic _ Hp), Hp, Hi, Hurl. simpl.
  assert (Htext : fst (processImageWithGPT4one svc (blobUrl fileRecord))
                  = markdown).
  { unfold processImageWithGPT4one. rewrite Hgen.
    destruct markdown; reflexivity. }
  rewrite Htext.
  rewrite blank_is_not_marked_error by (rewrite Hblank; apply orb_true_r).
  rewrite Hblank, orb_true_r. reflexivity.
Qed.

Lemma blank_ocr_answer_completes_witness :
  processSingleFileRecord WorkerSamplesMore.svc_blank_ocr Samples.photo_row
  = Returned
      (mkResult StCompleted (Some "[OCR completed, but no text extracted]")
         None 7 None).
Proof.
  exact (blank_ocr_answer_completes WorkerSamplesMore.svc_blank_ocr
           Samples.photo_row "uploads/u1/p.png" "  " (Some 7%Z)
           eq_refl eq_refl eq_refl eq_refl eq_refl).
Defined.

(** X5: a record whose lower-cased file type contains "pdf" and is not an
    image type is answered without any outside call: the result does not
    depend on the services, and it always has status [error], no generated
    image and zero tokens.  When the object key is stored or can be derived
    from the URL, it is the "not yet implemented" error, with the bracketed
    message as text; when it cannot, it is the result of the early return
    for an unresolvable key, with no text. *)
Theorem pdf_record_not_implemented svc fileRecord :
  includes (toLowerCase (fileType fileRecord)) "pdf" = true ->
  startsWith (toLowerCase (fileType fileRecord)) "image/" = false ->
  (forall svc',
     processSingleFileRecord svc' fileRecord
     = processSingleFileRecord svc fileRecord)
  /\ match resolveR2Key fileRecord with
     | inr _ =>
         processSingleFileRecord svc fileRecord
         = Returned
             (mkResult StError
                (Some
                   "[Processing Error: PDF processing not yet implemented.]")
                None 0 (Some "PDF processing not yet implemented."))
     | inl early =>
         processSingleFileRecord svc fileRecord = Returned early
         /\ res_status early = StError
         /\ res_textContent early = None
         /\ res_generatedImageUrl early = None
         /\ res_tokensUsed early = 0%Z
     end.
Proof.
  intros Hpdf Himg.
  assert (Hrun : forall svc0,
             processSingleFileRecord svc0 fileRecord
             = match resolveR2Key fileRecord with
               | inl early => Returned early
               | inr _ =>
                   Returned
                     (mkResult StError
                        (Some
                           "[Processing Error: PDF processing not yet implemented.]")
                        None 0 (Some "PDF processing not yet implemented."))
               end).
  { intros svc0. unfold processSingleFileRecord.
    destruct (resolveR2Key fileRecord); [reflexivity|].
    unfold strategy.
    rewrite Himg, Hpdf, !andb_false_r, orb_true_r. reflexivity. }
  split.
  - intros svc'. rewrite !Hrun. reflexivity.
  - rewrite Hrun.
    destruct (resolveR2Key fileRecord) as [early|key] eqn:Hkey;
      [|reflexivity].
    apply resolveR2Key_early in Hkey. tauto.
Qed.

Lemma pdf_record_not_implemented_witness :
  (forall svc',
     processSingleFileRecord svc' WorkerSamplesMore.pdf_row
     = processSingleFileRecord Samples.svc_store_down
         WorkerSamplesMore.pdf_row)
  /\ processSingleFileRecord Samples.svc_store_down WorkerSamplesMore.pdf_row
     = Returned
         (mkResult StError
            (Some "[Processing Error: PDF processing not yet implemented.]")
            None 0 (Some "PDF processing not yet implemented.")).
Proof.
  exact (pdf_record_not_implemented Samples.svc_store_down
           WorkerSamplesMore.pdf_row eq_refl eq_refl).
Defined.

End WorkerStrategies.

Module WorkerRuns.
Import Js Worker WorkerSpec WorkerSpecMore WorkerProofs WorkerKeys.

#[local] Arguments update_where : simpl never.

(** *** The table under a pass *)

Lemma row_evolves_refl ids r : row_evolves ids r r.
Proof. split; auto. Qed.

Lemma row_evolves_trans ids1 ids2 r1 r2 r3 :
  row_evolves ids1 r1 r2 -> row_evolves ids2 r2 r3 ->
  row_evolves (ids1 ++ ids2)%list r1 r3.
Proof.
  intros [Hi1 Hf1] [Hi2 Hf2]. split; [congruence|].
  intros Hnot. rewrite elem_of_app in Hnot.
  assert (Hid : id r2 = id r1).
  { unfold identity_fields in Hi1. congruence. }
  rewrite Hf2, Hf1; auto. rewrite Hid. auto.
Qed.

Lemma row_settles_trans ids1 ids2 r1 r2 r3 :
  row_settles ids1 r1 r2 -> row_settles ids2 r2 r3 ->
  row_settles (ids1 ++ ids2)%list r1 r3.
Proof.
  intros [He1 Ht1] [He2 Ht2].
  split; [eapply row_evolves_trans; eauto|].
  assert (Hid : id r2 = id r1).
  { destruct He1 as [Hi1 _]. unfold identity_fields in Hi1. congruence. }
  intros Hin.
  destruct (decide (id r1 ∈ ids2)) as [H2|H2].
  - apply Ht2. rewrite Hid. exact H2.
  - destruct He2 as [_ Hf2]. rewrite Hf2 by (rewrite Hid; exact H2).
    apply Ht1. rewrite elem_of_app in Hin. tauto.
Qed.

Lemma Forall2_update_where (R : UploadedFile -> UploadedFile -> Prop)
  fileId set table :
  (forall r, R r (if Z.eqb (id r) fileId then set r else r)) ->
  Forall2 R table (update_where fileId set table).
Proof.
  intros H. unfold update_where.
  induction table as [|r table IH]; simpl; constructor; auto.
Qed.

Lemma Forall2_trans_rel {A} (R1 R2 R3 : A -> A -> Prop) l1 l2 l3 :
  (forall a b c, R1 a b -> R2 b c -> R3 a c) ->
  Forall2 R1 l1 l2 -> Forall2 R2 l2 l3 -> Forall2 R3 l1 l3.
Proof.
  intros Htrans H12. revert l3.
  induction H12 as [|a b l1 l2 Hab H12 IH]; intros l3 H23;
    inversion H23; subst; constructor; eauto.
Qed.

Lemma Forall2_refl_rel {A} (R : A -> A -> Prop) l :
  (forall a, R a a) -> Forall2 R l l.
Proof. intros H. induction l; constructor; auto. Qed.

Lemma update_where_evolves fileId set table :
  (forall r, identity_fields (set r) = identity_fields r) ->
  Forall2 (row_evolves [fileId]) table (update_where fileId set table).
Proof.
  intros Hset. apply Forall2_update_where. intros r.
  destruct (id r =? fileId)%Z eqn:E.
  - split; [apply Hset|]. apply Z.eqb_eq in E. intros Hn.
    exfalso. apply Hn. rewrite E. apply list_elem_of_singleton. reflexivity.
  - apply row_evolves_refl.
Qed.

Lemma update_where_settles fileId set table :
  (forall r, identity_fields (set r) = identity_fields r) ->
  (forall r, terminal (status (set r)) = true) ->
  Forall2 (row_settles [fileId]) table (update_where fileId set table).
Proof.
  intros Hset Hterm. apply Forall2_update_where. intros r.
  destruct (id r =? fileId)%Z eqn:E.
  - apply Z.eqb_eq in E. split; [split; [apply Hset|]|].
    + intros Hn. exfalso. apply Hn. rewrite E.
      apply list_elem_of_singleton. reflexivity.
    + intros _. apply Hterm.
  - apply Z.eqb_neq in E. split; [apply row_evolves_refl|].
    intros Hin. apply list_elem_of_singleton in Hin. contradiction.
Qed.

Lemma row_evolves_once fileId r1 r2 r3 :
  row_evolves [fileId] r1 r2 -> row_evolves [fileId] r2 r3 ->
  row_evolves [fileId] r1 r3.
Proof.
  intros H1 H2. destruct (row_evolves_trans _ _ _ _ _ H1 H2) as [Hi Hf].
  split; [exact Hi|]. intros Hn. apply Hf.
  rewrite elem_of_app. tauto.
Qed.

Lemma result_status_terminal svc fileRecord result :
  processSingleFileRecord svc fileRecord = Returned result ->
  terminal (res_status result) = true.
Proof.
  unfold processSingleFileRecord.
  destruct (resolveR2Key fileRecord) as [early|key] eqn:Hkey.
  - intros [= <-]. apply resolveR2Key_early in Hkey as (-> & _).
    reflexivity.
  - destruct (strategy svc fileRecord key); simpl; intros [= <-];
      unfold finalResult; simpl;
      match goal with
      | |- context [if ?c then StError else StCompleted] => destruct c
      end; reflexivity.
Qed.

Lemma process_record_rows svc fileRecord s :
  let after := snd (process_record svc fileRecord s) in
  Forall2 (row_evolves [id fileRecord]) (rows (world s))
    (rows (world after))
  /\ select_fault (world after) = select_fault (world s)
  /\ (db_faults (world s) = [] ->
      db_faults (world after) = []
      /\ Forall2 (row_settles [id fileRecord]) (rows (world s))
           (rows (world after))).
Proof.
  destruct (processSingleFileRecord_returns svc fileRecord)
    as [result Hres].
  pose proof (result_status_terminal _ _ _ Hres) as Hterm.
  destruct s as [[table clk sf faults mfaults log] pc ec].
  unfold_steps. rewrite Hres. simpl.
  assert (Hc : forall t tbl,
             Forall2 (row_evolves [id fileRecord]) tbl
               (update_where (id fileRecord) (set_claimed t) tbl))
    by (intros; apply update_where_evolves; reflexivity).
  assert (Hr : forall t tbl,
             Forall2 (row_evolves [id fileRecord]) tbl
               (update_where (id fileRecord) (set_result result t) tbl))
    by (intros; apply update_where_evolves; reflexivity).
  assert (Hl : forall e t tbl,
             Forall2 (row_evolves [id fileRecord]) tbl
               (update_where (id fileRecord) (set_loop_error e t) tbl))
    by (intros; apply update_where_evolves; reflexivity).
  assert (Hrr : forall tbl, Forall2 (row_evolves [id fileRecord]) tbl tbl)
    by (intros; apply Forall2_refl_rel, row_evolves_refl).
  assert (Htr : forall a b c,
             Forall2 (row_evolves [id fileRecord]) a b ->
             Forall2 (row_evolves [id fileRecord]) b c ->
             Forall2 (row_evolves [id fileRecord]) a c).
  { intros a b c. apply Forall2_trans_rel. apply row_evolves_once. }
  assert (Hs : forall t tbl,
             Forall2 (row_settles [id fileRecord]) tbl
               (update_where (id fileRecord) (set_result result t) tbl)).
  { intros. apply update_where_settles; [reflexivity|].
    intros r. exact Hterm. }
  assert (Hcs : forall t t' tbl,
             Forall2 (row_settles [id fileRecord]) tbl
               (update_where (id fileRecord) (set_result result t')
                  (update_where (id fileRecord) (set_claimed t) tbl))).
  { intros t t' tbl. unfold update_where. rewrite map_map.
    induction tbl as [|r tbl IH]; simpl; constructor; [|exact IH].
    destruct (id r =? id fileRecord)%Z eqn:E; simpl; rewrite E.
    - apply Z.eqb_eq in E. split; [split; [reflexivity|]|].
      + intros Hn. exfalso. apply Hn. rewrite E.
        apply list_elem_of_singleton. reflexivity.
      + intros _. exact Hterm.
    - apply Z.eqb_neq in E. split; [apply row_evolves_refl|].
      intros Hin. apply list_elem_of_singleton in Hin. contradiction. }
  destruct (bool_decide (status fileRecord <> StProcessing));
    split_faults faults; simpl;
    destruct (bool_decide (res_status result = StCompleted)); simpl;
    destruct (0 <? res_tokensUsed result)%Z; simpl;
    destruct (bool_decide (res_status result = StError)); simpl;
    try (destruct mfaults as [|[?|] ?]; simpl);
    (split; [eauto|]); (split; [reflexivity|]);
    intros Hf; try discriminate; split; auto.
Qed.


Lemma process_all_rows svc pendingFiles s :
  let after := snd (process_all svc pendingFiles s) in
  Forall2 (row_evolves (map id pendingFiles)) (rows (world s))
    (rows (world after))
  /\ select_fault (world after) = select_fault (world s)
  /\ (db_faults (world s) = [] ->
      db_faults (world after) = []
      /\ Forall2 (row_settles (map id pendingFiles)) (rows (world s))
           (rows (world after))).
Proof.
  revert s. induction pendingFiles as [|fileRecord rest IH]; intros s.
  - simpl. split; [apply Forall2_refl_rel, row_evolves_refl|].
    split; [reflexivity|]. intros Hf. split; [exact Hf|].
    apply Forall2_refl_rel. intros r. split; [apply row_evolves_refl|].
    intros Hin. apply elem_of_nil in Hin. contradiction.
  - cbn [process_all]. unfold bindM.
    pose proof (process_record_rows svc fileRecord s) as (He & Hsel & Hrel).
    pose proof (process_record_counts svc fileRecord s) as [Hret _].
    destruct (process_record svc fileRecord s) as [o s1].
    simpl in He, Hsel, Hrel, Hret. subst o.
    destruct (IH s1) as (He' & Hsel' & Hrel').
    change (map id (fileRecord :: rest))
      with ([id fileRecord] ++ map id rest)%list.
    split; [|split].
    + eapply Forall2_trans_rel; [|exact He|exact He'].
      intros a b c. apply row_evolves_trans.
    + congruence.
    + intros Hf. destruct (Hrel Hf) as [Hf1 Hs1].
      destruct (Hrel' Hf1) as [Hf2 Hs2]. split; [exact Hf2|].
      eapply Forall2_trans_rel; [|exact Hs1|exact Hs2].
      intros a b c. apply row_settles_trans.
Qed.

(** X6: whatever happens during a run, [GET] leaves the table's rows in
    place: as many rows, in the same order, with the same id, user, URL,
    object key, file type, process type and name; and a row whose id is not
    among the (at most ten) fetched records is not changed at all. *)
Theorem GET_keeps_rows_in_place svc request w :
  Forall2
    (row_evolves (map id (take 10 (List.filter claimable (rows w)))))
    (rows w) (rows (snd (GET svc request w))).
Proof.
  assert (Hrefl : forall ids, Forall2 (row_evolves ids) (rows w) (rows w))
    by (intros; apply Forall2_refl_rel, row_evolves_refl).
  unfold GET. destruct (negb _); [apply Hrefl|].
  unfold select_pending. destruct (select_fault w); [apply Hrefl|].
  set (batch := take 10 (List.filter claimable (rows w))).
  destruct (List.length batch =? 0)%nat; [apply Hrefl|].
  pose proof (process_all_rows svc batch (mkRun w 0 0)) as (He & _).
  destruct (process_all svc batch (mkRun w 0 0)) as [[u|e] s1];
    exact He.
Qed.

Lemma GET_settles svc request w :
  cronSecret request = CRON_SECRET svc ->
  select_fault w = None ->
  db_faults w = [] ->
  Forall2
    (row_settles (map id (take 10 (List.filter claimable (rows w)))))
    (rows w) (rows (snd (GET svc request w))).
Proof.
  intros Hauth Hsel Hf. unfold GET, select_pending.
  rewrite Hauth, bool_decide_eq_true_2, Hsel by reflexivity. simpl negb.
  cbv iota.
  set (batch := take 10 (List.filter claimable (rows w))).
  destruct batch as [|f rest] eqn:Hb.
  - simpl. apply Forall2_refl_rel. intros r.
    split; [apply row_evolves_refl|].
    intros Hin. apply elem_of_nil in Hin. contradiction.
  - change (List.length (f :: rest) =? 0)%nat with false. cbv iota.
    pose proof (process_all_rows svc (f :: rest) (mkRun w 0 0))
      as (_ & _ & Hrel).
    destruct (Hrel Hf) as [_ Hs].
    destruct (process_all svc (f :: rest) (mkRun w 0 0)) as [[u|e] s1];
      exact Hs.
Qed.

Lemma Forall2_Forall_r {A} (R : A -> A -> Prop) (P : A -> Prop) l l' :
  Forall2 R l l' ->
  (forall a b, a ∈ l -> R a b -> P b) ->
  Forall P l'.
Proof.
  induction 1 as [|a b l l' Hab _ IH]; intros HP; constructor.
  - apply (HP a); [left|exact Hab].
  - apply IH. intros x y Hx. apply HP. right. exact Hx.
Qed.

(** X7: with a database that accepts every write, one authorized run
    leaves every row whose id is among the fetched records in a terminal
    status ([completed] or [error]). *)
Theorem GET_settles_the_batch svc request w :
  cronSecret request = CRON_SECRET svc ->
  select_fault w = None ->
  db_faults w = [] ->
  Forall
    (fun r' =>
       id r' ∈ map id (take 10 (List.filter claimable (rows w))) ->
       terminal (status r') = true)
    (rows (snd (GET svc request w))).
Proof.
  intros Hauth Hsel Hf.
  eapply Forall2_Forall_r; [exact (GET_settles svc request w Hauth Hsel Hf)|].
  intros r r' _ [[Hsame _] Hterm] Hin. apply Hterm.
  assert (Hid : id r' = id r)
    by (unfold identity_fields in Hsame; congruence).
  rewrite <- Hid. exact Hin.
Qed.

Lemma GET_settles_the_batch_witness :
  Forall
    (fun r' => id r' ∈ [1; 4; 2]%Z -> terminal (status r') = true)
    (rows (snd (GET Samples.svc_up Samples.cron_request
                  (Samples.world_of WorkerSamplesMore.mixed_table)))).
Proof.
  exact (GET_settles_the_batch Samples.svc_up Samples.cron_request
           (Samples.world_of WorkerSamplesMore.mixed_table)
           eq_refl eq_refl eq_refl).
Defined.

Lemma terminal_not_claimable r :
  terminal (status r) = true -> claimable r = false.
Proof. unfold terminal, claimable. destruct (status r); auto. Qed.

Lemma filter_none {A} (p : A -> bool) l :
  Forall (fun a => p a = false) l -> List.filter p l = [].
Proof.
  induction 1 as [|a l Ha _ IH]; [reflexivity|]. simpl. rewrite Ha. exact IH.
Qed.

Lemma GET_select_fault svc request w :
  select_fault (snd (GET svc request w)) = select_fault w.
Proof.
  unfold GET. destruct (negb _); [reflexivity|].
  destruct (select_pending w) as [batch|e]; [|reflexivity].
  destruct (List.length batch =? 0)%nat; [reflexivity|].
  pose proof (process_all_rows svc batch (mkRun w 0 0)) as (_ & Hsel & _).
  destruct (process_all svc batch (mkRun w 0 0)) as [[u|e] s1]; exact Hsel.
Qed.

(** X8: after an authorized run over a table with at most ten claimable
    rows and a database that accepts every write, nothing is left to claim:
    a second run answers "No pending files" and changes nothing. *)
Theorem second_GET_is_idle svc request w :
  cronSecret request = CRON_SECRET svc ->
  select_fault w = None ->
  db_faults w = [] ->
  (List.length (List.filter claimable (rows w)) <= 10)%nat ->
  let once := snd (GET svc request w) in
  GET svc request once = (NoPendingFiles, once).
Proof.
  intros Hauth Hsel Hf Hlen once.
  pose proof (GET_settles svc request w Hauth Hsel Hf) as Hs.
  fold once in Hs.
  rewrite firstn_all2 in Hs by exact Hlen.
  assert (Hnone : List.filter claimable (rows once) = []).
  { apply filter_none.
    apply (Forall2_Forall_r _ _ _ _ Hs).
    intros r r' Hin [[_ Hsame] Hterm].
    destruct (claimable r) eqn:Hc.
    - apply terminal_not_claimable, Hterm.
      apply list_elem_of_fmap. exists r. split; [reflexivity|].
      apply list_elem_of_In, filter_In. split; [|exact Hc].
      apply list_elem_of_In. exact Hin.
    - destruct (decide (id r ∈ map id (List.filter claimable (rows w))))
        as [Hi|Hi].
      + apply terminal_not_claimable, Hterm, Hi.
      + rewrite (Hsame Hi). exact Hc. }
  unfold GET, select_pending.
  rewrite Hauth, bool_decide_eq_true_2 by reflexivity. simpl negb. cbv iota.
  unfold once at 1. rewrite GET_select_fault, Hsel, Hnone. reflexivity.
Qed.

Lemma second_GET_is_idle_witness :
  let once :=
    snd (GET Samples.svc_up Samples.cron_request
           (Samples.world_of WorkerSamplesMore.mixed_table)) in
  GET Samples.svc_up Samples.cron_request once = (NoPendingFiles, once).
Proof.
  apply (second_GET_is_idle Samples.svc_up Samples.cron_request
           (Samples.world_of WorkerSamplesMore.mixed_table));
    [reflexivity | reflexivity | reflexivity | vm_compute; lia].
Defined.

Lemma GET_answers svc request w :
  GET svc request w = (Unauthorized, w)
  \/ GET svc request w = (NoPendingFiles, w)
  \/ (exists details, GET svc request w = (JobFailed details, w))
  \/ exists message w', GET svc request w = (ProcessingComplete message, w').
Proof.
  unfold GET. destruct (negb _); [left; reflexivity|].
  destruct (select_pending w) as [batch|e]; [|right; right; left; eauto].
  destruct (List.length batch =? 0)%nat; [right; left; reflexivity|].
  pose proof (process_all_counts svc batch (mkRun w 0 0)) as [Hret _].
  destruct (process_all svc batch (mkRun w 0 0)) as [o s1].
  simpl in Hret. subst o. right. right. right. eauto.
Qed.

(** X9: [GET] writes only when it reports a processed batch: unless its
    answer is a "Processing complete" summary, the table, the clock and the
    metering log are exactly as before. *)
Theorem GET_changes_nothing_unless_complete svc request w :
  (exists message, fst (GET svc request w) = ProcessingComplete message)
  \/ snd (GET svc request w) = w.
Proof.
  destruct (GET_answers svc request w)
    as [Hrun | [Hrun | [[details Hrun] | (message & w' & Hrun)]]];
    rewrite Hrun.
  - right. reflexivity.
  - right. reflexivity.
  - right. reflexivity.
  - left. exists message. reflexivity.
Qed.

Lemma process_record_metered svc fileRecord s :
  let after := snd (process_record svc fileRecord s) in
  metered (world after) = metered (world s)
  \/ exists call,
       metering_of svc fileRecord call
       /\ metered (world after) = (metered (world s) ++ [call])%list.
Proof.
  destruct (processSingleFileRecord_returns svc fileRecord)
    as [result Hres].
  destruct s as [[table clk sf faults mfaults log] pc ec].
  unfold_steps. rewrite Hres. simpl.
  destruct (bool_decide (status fileRecord <> StProcessing));
    split_faults faults; simpl;
    destruct (bool_decide (res_status result = StCompleted)) eqn:Hdone;
    simpl;
    destruct (0 <? res_tokensUsed result)%Z eqn:Hpos; simpl;
    destruct (bool_decide (res_status result = StError)); simpl;
    try (destruct mfaults as [|[?|] ?]; simpl);
    first [ left; reflexivity
          | right; exists (userId fileRecord, res_tokensUsed result);
            split; [|reflexivity];
            unfold metering_of; cbn [fst snd];
            split; [reflexivity|];
            split; [apply Z.ltb_lt; exact Hpos|];
            exists result; split; [exact Hres|];
            split; [exact (proj1 (bool_decide_eq_true _) Hdone)
                  |reflexivity] ].
Qed.

Lemma process_all_metered svc pendingFiles s :
  exists metered_records calls,
    metered (world (snd (process_all svc pendingFiles s)))
    = (metered (world s) ++ calls)%list
    /\ sublist metered_records pendingFiles
    /\ Forall2 (metering_of svc) metered_records calls.
Proof.
  revert s. induction pendingFiles as [|fileRecord rest IH]; intros s.
  - exists [], []. simpl. rewrite app_nil_r.
    split; [reflexivity|]. split; constructor.
  - cbn [process_all]. unfold bindM.
    pose proof (process_record_metered svc fileRecord s) as Hm.
    pose proof (process_record_counts svc fileRecord s) as [Hret _].
    destruct (process_record svc fileRecord s) as [o s1].
    simpl in Hm, Hret. subst o.
    destruct (IH s1) as (records & calls & Hlog & Hsub & Hall).
    destruct Hm as [Hm | (call & Hcall & Hm)].
    + exists records, calls. rewrite Hlog, Hm. split; [reflexivity|].
      split; [apply sublist_cons; exact Hsub|exact Hall].
    + exists (fileRecord :: records), (call :: calls).
      rewrite Hlog, Hm, <- app_assoc. split; [reflexivity|].
      split; [apply sublist_skip; exact Hsub|].
      constructor; [exact Hcall|exact Hall].
Qed.

(** X10: the metering calls a run adds correspond, in order, to distinct
    fetched records (a sub-list of the batch), so there is at most one call
    per fetched record and at most ten in all; each call is for that
    record's user and for the positive number of tokens with which its
    processing completed. *)
Theorem GET_meters_sparingly svc request w :
  exists metered_records calls,
    metered (snd (GET svc request w)) = (metered w ++ calls)%list
    /\ sublist metered_records (take 10 (List.filter claimable (rows w)))
    /\ Forall2 (metering_of svc) metered_records calls
    /\ (List.length calls <= 10)%nat.
Proof.
  assert (Hnone : exists metered_records calls,
             metered w = (metered w ++ calls)%list
             /\ sublist metered_records
                  (take 10 (List.filter claimable (rows w)))
             /\ Forall2 (metering_of svc) metered_records calls
             /\ (List.length calls <= 10)%nat).
  { exists [], []. rewrite app_nil_r.
    repeat split; [apply sublist_nil_l|constructor|simpl; lia]. }
  unfold GET. destruct (negb _); [exact Hnone|].
  unfold select_pending. destruct (select_fault w); [exact Hnone|].
  set (batch := take 10 (List.filter claimable (rows w))).
  destruct (List.length batch =? 0)%nat; [exact Hnone|].
  destruct (process_all_metered svc batch (mkRun w 0 0))
    as (records & calls & Hlog & Hsub & Hall).
  exists records, calls. split; [|split; [exact Hsub|split; [exact Hall|]]].
  - destruct (process_all svc batch (mkRun w 0 0)) as [[u|e] s1];
      exact Hlog.
  - rewrite <- (Forall2_length _ _ _ Hall).
    apply sublist_length in Hsub. subst batch.
    rewrite length_take in Hsub. lia.
Qed.

End WorkerRuns.

Module WorkerAccess.
Import Js Worker WorkerSpec WorkerSpecMore WorkerProofs WorkerKeys
  WorkerRuns.

(** *** Authorization *)

Lemma cronSecret_second_word scheme secret :
  free_of " " scheme = true -> free_of " " secret = true ->
  cronSecret (mkRequest (Some (scheme ++ " " ++ secret))) = Some secret.
Proof.
  intros Hs Hk. unfold cronSecret, split. cbn [authorization].
  change (scheme ++ " " ++ secret) with (scheme ++ String " " secret).
  rewrite split_acc_free_then by exact Hs.
  rewrite split_acc_free by exact Hk. reflexivity.
Qed.

Lemma GET_unauthorized_iff svc request w :
  fst (GET svc request w) = Unauthorized
  <-> cronSecret request <> CRON_SECRET svc.
Proof.
  unfold GET. destruct (decide (cronSecret request = CRON_SECRET svc))
    as [Heq|Hne].
  - rewrite bool_decide_eq_true_2 by exact Heq. simpl negb. cbv iota.
    split; [|contradiction].
    destruct (select_pending w) as [batch|e]; [|discriminate].
    destruct (List.length batch =? 0)%nat; [discriminate|].
    destruct (process_all svc batch (mkRun w 0 0)) as [[u|e] s1];
      discriminate.
  - rewrite bool_decide_eq_false_2 by exact Hne. simpl. tauto.
Qed.

(** X11: the worker checks only the second space-separated word of the
    [authorization] header against [CRON_SECRET]; the scheme word is not
    looked at.  For a header [<scheme> <secret>] without further spaces the
    answer is 401 exactly when [CRON_SECRET] is not that secret. *)
Theorem GET_checks_second_word svc scheme secret w :
  free_of " " scheme = true -> free_of " " secret = true ->
  fst (GET svc (mkRequest (Some (scheme ++ " " ++ secret))) w) = Unauthorized
  <-> CRON_SECRET svc <> Some secret.
Proof.
  intros Hs Hk. rewrite GET_unauthorized_iff.
  rewrite (cronSecret_second_word _ _ Hs Hk).
  split; intros H E; apply H; congruence.
Qed.

Lemma GET_checks_second_word_witness :
  fst (GET Samples.svc_up (mkRequest (Some ("Basic" ++ " " ++ "s3cret")))
         (Samples.world_of [Samples.note_row])) = Unauthorized
  <-> CRON_SECRET Samples.svc_up <> Some "s3cret".
Proof.
  apply (GET_checks_second_word Samples.svc_up "Basic" "s3cret");
    reflexivity.
Defined.

End WorkerAccess.

(** ** Further properties of the mobile client *)

Module ClientPolling.
Import Js Client ClientSpec ClientSpecMore ClientSamples ClientProofs.

(** *** Polling *)

Lemma poll_turn_finish_fileId endpoint fileIdStr attempts result :
  poll_turn endpoint fileIdStr attempts = Returned (Finish result) ->
  ur_fileId result = Some fileIdStr.
Proof.
  unfold poll_turn, bind.
  destruct (endpoint attempts) as [r|e]; [|discriminate].
  destruct (negb (ok r)).
  - destruct (text_body r); [|discriminate].
    destruct (http_status r =? 404)%nat; discriminate.
  - destruct (json_body r) as [p|e]; [|discriminate].
    repeat match goal with
           | |- context [if ?c then _ else _] =>
               match type of c with bool => destruct c end
           end; try discriminate.
    intros [= <-]. reflexivity.
Qed.

Lemma poll_loop_bounded API_URL endpoint fileIdStr token maxAttempts
  pollInterval remaining attempts :
  let polled :=
    poll_loop API_URL endpoint fileIdStr token maxAttempts pollInterval
      remaining attempts in
  (requests (snd polled) <= remaining)%nat
  /\ (sleep_total (snd polled) <= remaining * pollInterval)%nat
  /\ ur_fileId (fst polled) = Some fileIdStr.
Proof.
  revert attempts. induction remaining as [|remaining IH]; intros attempts.
  - simpl. repeat split; (lia || reflexivity).
  - specialize (IH (S attempts)). cbn zeta in IH.
    destruct IH as (Hreq & Hsleep & Hid).
    cbn [poll_loop].
    destruct (poll_turn endpoint fileIdStr attempts) as [[result|]|e]
      eqn:Hturn.
    + cbn. split; [lia|]. split; [lia|].
      eapply poll_turn_finish_fileId; eassumption.
    + cbn [fst snd]. unfold requests in *. cbn. repeat split; (lia || auto).
    + destruct (maxAttempts <=? S attempts)%nat.
      * cbn. repeat split; (lia || reflexivity).
      * cbn [fst snd]. unfold requests in *. cbn.
        repeat split; (lia || auto).
Qed.

(** X14: polling is bounded and always names the file.  A text upload is
    looked up with exactly one request and no waiting: the result is the
    answer's payload with the file id, its status defaulting to [completed],
    or -- when the request fails, the answer is not OK or its body cannot be
    read -- an [error] result with the message "Failed to get final details
    for text file".  Any other upload takes at most [maxAttempts] requests
    and waits at most [initialDelay + maxAttempts * pollInterval]
    milliseconds.  In every case the result carries the file id that was
    asked for. *)
Theorem pollForResults_is_bounded
  API_URL endpoint fileIdStr token isTextFile maxAttempts initialDelay
  pollInterval :
  let polled :=
    pollForResults API_URL endpoint fileIdStr token isTextFile maxAttempts
      initialDelay pollInterval in
  ur_fileId (fst polled) = Some fileIdStr
  /\ (if isTextFile
      then snd polled
           = [Fetch (API_URL ++ "/api/get-upload-status/" ++ fileIdStr)
                token]
           /\ fst polled
              = match endpoint 0%nat with
                | Returned r =>
                    match ok r, json_body r with
                    | true, Returned payload =>
                        mkUploadResult
                          (or_default (p_status payload) "completed")
                          (p_text payload) (p_error payload)
                          (Some fileIdStr) (p_url payload)
                          (p_fileUrl payload) (p_mimeType payload)
                          (p_fileName payload)
                    | _, _ =>
                        mkUploadResult "error" None
                          (Some "Failed to get final details for text file")
                          (Some fileIdStr) None None None None
                    end
                | Threw _ =>
                    mkUploadResult "error" None
                      (Some "Failed to get final details for text file")
                      (Some fileIdStr) None None None None
                end
      else (requests (snd polled) <= maxAttempts)%nat
           /\ (sleep_total (snd polled)
               <= initialDelay + maxAttempts * pollInterval)%nat).
Proof.
  unfold pollForResults. destruct isTextFile.
  - unfold text_file_status, bind. cbn [fst snd].
    destruct (endpoint 0%nat) as [r|e]; [|repeat split].
    destruct (ok r); cbv beta iota delta [negb]; [|repeat split].
    destruct (json_body r); repeat split.
  - pose proof (poll_loop_bounded API_URL endpoint fileIdStr token
                  maxAttempts pollInterval maxAttempts 0)
      as (Hreq & Hsleep & Hid).
    cbn [fst snd]. split; [exact Hid|].
    unfold requests in *. cbn. split; lia.
Qed.

(** X15: polling stops at the first terminal answer.  If the answers before
    attempt [k < maxAttempts] are not terminal and answer [k] is an OK
    response whose status is [completed] or [error], polling waits the
    initial delay, makes [k] requests each followed by a wait and one last
    request -- [k + 1] in all -- and returns that status with the text,
    error, URLs, MIME type and file name of the payload and the file id
    that was asked for. *)
Theorem pollForResults_stops_at_first_terminal
  API_URL endpoint fileIdStr token maxAttempts initialDelay pollInterval
  k r payload status :
  (k < maxAttempts)%nat ->
  (forall j, (j < k)%nat -> answers_terminal (endpoint j) = false) ->
  endpoint k = Returned r -> ok r = true ->
  json_body r = Returned payload ->
  p_status payload = Some status ->
  status = "completed" \/ status = "error" ->
  let request :=
    Fetch (API_URL ++ "/api/get-upload-status/" ++ fileIdStr) token in
  let polled :=
    pollForResults API_URL endpoint fileIdStr token false maxAttempts
      initialDelay pollInterval in
  polled
  = (mkUploadResult status (p_text payload) (p_error payload)
       (Some fileIdStr) (p_url payload) (p_fileUrl payload)
       (p_mimeType payload) (p_fileName payload),
     (Sleep initialDelay
      :: concat (replicate k [request; Sleep pollInterval])
      ++ [request])%list)
  /\ requests (snd polled) = S k.
Proof.
  intros Hk Hbefore He Hok Hjson Hst Hterm request polled.
  subst request polled. unfold pollForResults.
  rewrite (poll_loop_first_terminal API_URL endpoint fileIdStr token
             maxAttempts pollInterval k r payload status Hk Hbefore He Hok
             Hjson Hst Hterm).
  cbn [fst snd]. split; [reflexivity|].
  unfold requests. cbn [List.filter is_fetch List.length].
  f_equal. clear. induction k as [|k IH]; [reflexivity|].
  cbn [replicate concat app List.filter is_fetch List.length].
  rewrite IH. reflexivity.
Qed.

Lemma pollForResults_stops_at_first_terminal_witness :
  let polled :=
    pollForResults "https://api.example" late_endpoint "17" "token" false
      5 2000 3000 in
  polled
  = (mkUploadResult "completed" (Some (PlainText "Shopping list")) None
       (Some "17") None None None None,
     [Sleep 2000;
      Fetch "https://api.example/api/get-upload-status/17" "token";
      Sleep 3000;
      Fetch "https://api.example/api/get-upload-status/17" "token";
      Sleep 3000;
      Fetch "https://api.example/api/get-upload-status/17" "token"])
  /\ requests (snd polled) = 3%nat.
Proof.
  apply (pollForResults_stops_at_first_terminal "https://api.example"
           late_endpoint "17" "token" 5 2000 3000 2 completed_response
           completed_payload "completed");
    try reflexivity; try lia; try (left; reflexivity).
  intros [|[|j]] Hj; [reflexivity | reflexivity | lia].
Defined.

(** *** Previews *)

(** X16: a text preview is never longer than [maxLength + 3] characters,
    and a text of at most [maxLength] characters is its own preview. *)
Theorem generateTextPreview_is_short text maxLength :
  (String.length (generateTextPreview text maxLength) <= maxLength + 3)%nat
  /\ ((String.length text <= maxLength)%nat ->
      generateTextPreview text maxLength = text).
Proof.
  destruct (generateTextPreview_shape text maxLength)
    as [[Hlen Heq] | (Hlen & n & Hn & Heq & _ & Hn')].
  - rewrite Heq. split; [lia|reflexivity].
  - split; [|lia]. rewrite Heq.
    assert (Happ : forall a b,
               String.length (a ++ b) = (String.length a + String.length b)%nat).
    { intros a b. induction a as [|c a IH]; [reflexivity|].
      change (S (String.length (a ++ b))
              = S (String.length a + String.length b)).
      f_equal. exact IH. }
    rewrite Happ, Hn'. simpl. lia.
Qed.


Lemma generateTextPreview_is_short_witness :
  (String.length (generateTextPreview "Buy milk" 150) <= 150 + 3)%nat
  /\ generateTextPreview "Buy milk" 150 = "Buy milk".
Proof.
  destruct (generateTextPreview_is_short "Buy milk" 150) as [Hshort Hsame].
  split; [exact Hshort|]. apply Hsame. vm_compute. lia.
Defined.

End ClientPolling.

Module ClientQueue.
Import Js Client ClientSpec ClientSpecMore ClientSamples ClientSamplesMore
  ClientProofs.

(** *** The sync queue *)

(** X17 (on the storage that accepts every write):
    [addToSyncQueue] never throws and changes nothing but the queue
    file; it appends the id at the tail unless the queue already holds it;
    adding the same id again changes nothing; and a queue without
    duplicates stays without duplicates. *)
Theorem addToSyncQueue_is_idempotent localId d :
  let queue := default [] (sync_queue d) in
  let queue' :=
    if bool_decide (localId ∈ queue) then queue
    else (queue ++ [localId])%list in
  exists d',
    addToSyncQueue localId d = (Returned tt, d')
    /\ sync_queue d' = Some queue'
    /\ pending_uploads d' = pending_uploads d
    /\ files d' = files d /\ dclock d' = dclock d
    /\ addToSyncQueue localId d' = (Returned tt, d')
    /\ (NoDup queue -> NoDup queue').
Proof.
  intros queue queue'. subst queue'.
  rewrite addToSyncQueue_eq. fold queue.
  destruct (bool_decide (localId ∈ queue)) eqn:Hin.
  - exists d. split; [reflexivity|].
    assert (Hq : sync_queue d = Some queue).
    { subst queue. destruct (sync_queue d); [reflexivity|].
      apply bool_decide_eq_true_1 in Hin. cbn in Hin.
      apply elem_of_nil in Hin. contradiction. }
    repeat split; auto.
    rewrite addToSyncQueue_eq. fold queue. rewrite Hin. reflexivity.
  - eexists. split; [reflexivity|].
    repeat split.
    + rewrite addToSyncQueue_eq.
      cbv beta iota delta [with_queue sync_queue default id].
      rewrite bool_decide_eq_true_2
        by (apply elem_of_app; right; apply list_elem_of_singleton;
            reflexivity).
      reflexivity.
    + intros Hnd. apply bool_decide_eq_false_1 in Hin.
      apply NoDup_app. split; [exact Hnd|].
      split; [|apply NoDup_singleton].
      intros x Hx Hx'. apply list_elem_of_singleton in Hx'. subst x.
      contradiction.
Qed.

Lemma load_shared_file_eq host localId m d dir :
  pending_uploads d !! localId = Some dir ->
  load_shared_file host localId m d =
  (match dir_lookup "content.txt" dir with
   | Some (Blob content) =>
       Returned (Some (mkSharedFile None (md_mimeType m) (md_name m)
                         (Some content)))
   | Some (MetaFile _) => Threw (fs_error "not a content file")
   | None =>
       match List.filter is_content_name (map fst dir) with
       | first :: _ =>
           Returned
             (Some (mkSharedFile
                      (Some (((documentDirectory host ++ "pending_uploads/")
                              ++ localId ++ "/") ++ first))
                      (md_mimeType m) (md_name m) None))
       | [] => Returned None
       end
   end, d).
Proof.
  intros Hdir.
  unfold load_shared_file, bindM, entry_exists, read_entry, read_dir, ret.
  unfold ItemDir in *. rewrite Hdir.
  destruct (dir_lookup "content.txt" dir) as [[content|m']|] eqn:Hc.
  - rewrite bool_decide_eq_true_2 by eauto.
    cbv beta iota. rewrite Hdir, Hc. reflexivity.
  - rewrite bool_decide_eq_true_2 by eauto.
    cbv beta iota. rewrite Hdir, Hc. reflexivity.
  - rewrite bool_decide_eq_false_2 by (intros [x Hx]; discriminate).
    cbv beta iota. rewrite Hdir.
    destruct (List.filter is_content_name (map fst dir)); reflexivity.
Qed.

Lemma load_shared_file_reads_only host localId m d :
  snd (load_shared_file host localId m d) = d.
Proof.
  destruct (pending_uploads d !! localId) as [dir|] eqn:Hdir.
  - rewrite (load_shared_file_eq host localId m d dir Hdir). reflexivity.
  - unfold load_shared_file, bindM, entry_exists, read_entry, read_dir, ret.
    unfold ItemDir in *. rewrite Hdir. cbv beta iota. rewrite Hdir. reflexivity.
Qed.

Lemma processSyncQueue_idle host token d :
  sync_queue d = None \/ sync_queue d = Some [] ->
  processSyncQueue host token d = (Returned false, d).
Proof.
  intros [Hq|Hq];
    unfold processSyncQueue, try_catchM, bindM, queue_exists, read_queue,
      ret; rewrite Hq.
  - rewrite bool_decide_eq_false_2 by (intros [x Hx]; discriminate).
    reflexivity.
  - rewrite bool_decide_eq_true_2 by eauto.
    cbv beta iota delta [negb]. rewrite Hq. reflexivity.
Qed.

Lemma processSyncQueue_no_directory host token d localId rest :
  sync_queue d = Some (localId :: rest) ->
  pending_uploads d !! localId = None ->
  processSyncQueue host token d
  = (Returned (0 <? List.length rest)%nat, with_queue rest d).
Proof.
  intros Hq Hdir.
  unfold processSyncQueue, try_catchM, bindM, queue_exists, read_queue,
    dir_exists, write_queue, accepted, ret.
  rewrite Hq. rewrite bool_decide_eq_true_2 by eauto.
  cbv beta iota delta [negb]. rewrite Hq, Hdir.
  rewrite bool_decide_eq_false_2 by (intros [x Hx]; discriminate).
  reflexivity.
Qed.

Lemma processSyncQueue_unreadable host token d localId rest dir :
  sync_queue d = Some (localId :: rest) ->
  pending_uploads d !! localId = Some dir ->
  (forall m, dir_lookup "metadata.json" dir <> Some (MetaFile m)) ->
  processSyncQueue host token d = (Returned false, d).
Proof.
  intros Hq Hdir Hmeta.
  unfold processSyncQueue, try_catchM, bindM, queue_exists, read_queue,
    dir_exists, read_metadata, ret.
  rewrite Hq. rewrite bool_decide_eq_true_2 by eauto.
  cbv beta iota delta [negb]. rewrite Hq, Hdir.
  rewrite bool_decide_eq_true_2 by eauto.
  cbv beta iota. rewrite Hdir.
  destruct (dir_lookup "metadata.json" dir) as [[m|c]|]; try reflexivity.
  exfalso. exact (Hmeta m eq_refl).
Qed.

Lemma processSyncQueue_already_completed host token d localId rest dir m :
  sync_queue d = Some (localId :: rest) ->
  pending_uploads d !! localId = Some dir ->
  dir_lookup "metadata.json" dir = Some (MetaFile m) ->
  md_status m = "completed" ->
  processSyncQueue host token d
  = (Returned (0 <? List.length rest)%nat, with_queue rest d).
Proof.
  intros Hq Hdir Hmeta Hst.
  unfold processSyncQueue, try_catchM, bindM, queue_exists, read_queue,
    dir_exists, read_metadata, write_queue, accepted, ret.
  rewrite Hq. rewrite bool_decide_eq_true_2 by eauto.
  cbv beta iota delta [negb]. rewrite Hq, Hdir.
  rewrite bool_decide_eq_true_2 by eauto.
  cbv beta iota. rewrite Hdir, Hmeta, Hst. reflexivity.
Qed.

Lemma processSyncQueue_not_loaded host token d localId rest dir m :
  sync_queue d = Some (localId :: rest) ->
  pending_uploads d !! localId = Some dir ->
  dir_lookup "metadata.json" dir = Some (MetaFile m) ->
  md_status m <> "completed" ->
  forall loaded,
  load_shared_file host localId m d = (loaded, d) ->
  match loaded with
  | Returned (Some _) => True
  | Returned None =>
      processSyncQueue host token d
      = (Returned (0 <? List.length rest)%nat,
         mkDevice (Some rest)
           (<[localId :=
                dir_write "metadata.json"
                  (MetaFile
                     (set_error (Some "Local content file missing")
                        (set_status "error" m))) dir]> (pending_uploads d))
           (files d) (directories d) (dclock d))
  | Threw _ => processSyncQueue host token d = (Returned false, d)
  end.
Proof.
  intros Hq Hdir Hmeta Hopen loaded Hload.
  destruct loaded as [[sf|]|e]; [exact I| |];
    unfold processSyncQueue, try_catchM, bindM, queue_exists, read_queue,
      dir_exists, read_metadata, write_metadata, write_entry, write_queue,
      accepted, ret;
    rewrite Hq; rewrite bool_decide_eq_true_2 by eauto;
    cbv beta iota delta [negb]; rewrite Hq, Hdir;
    rewrite bool_decide_eq_true_2 by eauto;
    cbv beta iota; rewrite Hdir, Hmeta;
    (destruct (String.eqb_spec (md_status m) "completed") as [E|_];
       [contradiction|]);
    rewrite Hload.
  - rewrite Hdir. reflexivity.
  - reflexivity.
Qed.


Lemma upload_attempt_unfinished
  host token d localId rest m sharedFile updates r :
  handleFileProcess host sharedFile token = (updates, Returned r) ->
  ur_status r <> "completed" -> ur_status r <> "error" ->
  upload_attempt host localId sharedFile token (mkSync d m (localId :: rest))
  = (Returned tt,
     mkSync
       (mkDevice (sync_queue d) (pending_uploads d) (files d) (directories d)
          (dclock d + 1))
       (set_lastAttempt (Some (dclock d)) (foldl on_status m updates))
       (localId :: rest)).
Proof.
  intros Hcall Hc He.
  unfold upload_attempt, call_handleFileProcess, try_catchM, bindM,
    on_device, get_metadata, get_queue, assign_metadata, assign_queue,
    write_metadata, write_entry, write_queue, Date_now, ret.
  cbn [device metadata queue]. rewrite Hcall.
  cbn [device metadata queue sync_queue pending_uploads files dclock].
  destruct (String.eqb_spec (ur_status r) "completed"); [contradiction|].
  destruct (String.eqb_spec (ur_status r) "error"); [contradiction|].
  reflexivity.
Qed.

(** X18 (on the storage that accepts every write):
    when the upload path answers with a status that is neither
    [completed] nor [error], [processSyncQueue] reports more work and leaves
    the queue file and every item directory as they were -- the status
    updates and the time of the attempt are not stored -- so the next run
    attempts the same entry again. *)
Theorem processSyncQueue_unfinished_is_retried
  host token d localId rest dir m sharedFile updates r :
  sync_queue d = Some (localId :: rest) ->
  pending_uploads d !! localId = Some dir ->
  dir_lookup "metadata.json" dir = Some (MetaFile m) ->
  md_status m <> "completed" ->
  load_shared_file host localId m d = (Returned (Some sharedFile), d) ->
  handleFileProcess host sharedFile token = (updates, Returned r) ->
  ur_status r <> "completed" -> ur_status r <> "error" ->
  let drained := processSyncQueue host token d in
  fst drained = Returned true
  /\ sync_queue (snd drained) = sync_queue d
  /\ pending_uploads (snd drained) = pending_uploads d
  /\ files (snd drained) = files d.
Proof.
  intros Hqueue Hdir Hmeta Hopen Hload Hcall Hc He drained. subst drained.
  rewrite (processSyncQueue_attempts host token d localId rest dir m
             sharedFile Hqueue Hdir Hmeta Hopen Hload).
  rewrite (upload_attempt_unfinished host token d localId rest m sharedFile
             updates r Hcall Hc He).
  cbn [fst snd device queue sync_queue pending_uploads files].
  repeat split.
Qed.

Lemma processSyncQueue_unfinished_is_retried_witness :
  let drained :=
    processSyncQueue (host_answering (Returned still_processing)) "token"
      two_notes_device in
  fst drained = Returned true
  /\ sync_queue (snd drained) = sync_queue two_notes_device
  /\ pending_uploads (snd drained) = pending_uploads two_notes_device
  /\ files (snd drained) = files two_notes_device.
Proof.
  eapply (processSyncQueue_unfinished_is_retried
            (host_answering (Returned still_processing)) "token"
            two_notes_device "local-1000-42" ["local-1002-42"]);
    [ vm_compute; reflexivity | vm_compute; reflexivity
    | vm_compute; reflexivity | vm_compute; discriminate
    | vm_compute; reflexivity | vm_compute; reflexivity
    | vm_compute; discriminate | vm_compute; discriminate ].
Defined.

(** X19 (on the storage that accepts every write):
    an entry whose directory holds no [content.txt] and no other file
    but ones named [*.json] or [*.txt] is never uploaded:
    [processSyncQueue] stores status [error] with the reason "Local content
    file missing" and takes the entry off the queue, whatever the upload
    path would have answered. *)
Theorem processSyncQueue_drops_entry_without_content
  host token d localId rest dir m :
  sync_queue d = Some (localId :: rest) ->
  pending_uploads d !! localId = Some dir ->
  dir_lookup "metadata.json" dir = Some (MetaFile m) ->
  md_status m <> "completed" ->
  dir_lookup "content.txt" dir = None ->
  Forall (fun entry => is_content_name entry = false) (map fst dir) ->
  let drained := processSyncQueue host token d in
  fst drained = Returned (0 <? List.length rest)%nat
  /\ sync_queue (snd drained) = Some rest
  /\ files (snd drained) = files d
  /\ exists m',
       stored_metadata (snd drained) localId = Some m'
       /\ md_status m' = "error"
       /\ md_error m' = Some "Local content file missing"
       /\ md_lastAttempt m' = md_lastAttempt m.
Proof.
  intros Hqueue Hdir Hmeta Hopen Hcontent Hnames drained. subst drained.
  assert (Hnone : List.filter is_content_name (map fst dir) = []).
  { clear -Hnames. induction Hnames as [|x l Hx _ IH]; [reflexivity|].
    cbn [List.filter]. rewrite Hx. exact IH. }
  pose proof (processSyncQueue_not_loaded host token d localId rest dir m
                Hqueue Hdir Hmeta Hopen (Returned None)) as Hrun.
  assert (Hload : load_shared_file host localId m d = (Returned None, d)).
  { rewrite (load_shared_file_eq host localId m d dir Hdir).
    rewrite Hcontent, Hnone. reflexivity. }
  specialize (Hrun Hload). cbv beta iota in Hrun. rewrite Hrun.
  cbn [fst snd sync_queue files]. repeat split.
  eexists. split; [apply stored_metadata_written|]. repeat split.
Qed.

Lemma processSyncQueue_drops_entry_without_content_witness :
  let drained := processSyncQueue quiet_host "token" shared_txt_device in
  fst drained = Returned false
  /\ sync_queue (snd drained) = Some []
  /\ files (snd drained) = files shared_txt_device
  /\ exists m',
       stored_metadata (snd drained) "local-1000-42" = Some m'
       /\ md_status m' = "error"
       /\ md_error m' = Some "Local content file missing"
       /\ md_lastAttempt m' = None.
Proof.
  edestruct (processSyncQueue_drops_entry_without_content quiet_host
               "token" shared_txt_device "local-1000-42" [])
    as (Hmore & Hqueue & Hfiles & m' & Hstored & Hstatus & Herror & Hlast);
    [ vm_compute; reflexivity | vm_compute; reflexivity
    | vm_compute; reflexivity | vm_compute; discriminate
    | vm_compute; reflexivity | vm_compute; repeat constructor | ].
  split; [exact Hmore|]. split; [exact Hqueue|]. split; [exact Hfiles|].
  exists m'. split; [exact Hstored|]. split; [exact Hstatus|].
  split; [exact Herror|]. exact Hlast.
Defined.

(** X20 (on the storage that accepts every write):
    a stale head entry -- its directory is gone, or its metadata
    already says [completed] -- is taken off the queue without any upload
    and without touching the item directories. *)
Theorem processSyncQueue_skips_stale_entry host token d localId rest :
  sync_queue d = Some (localId :: rest) ->
  pending_uploads d !! localId = None
  \/ (exists m, stored_metadata d localId = Some m
                /\ md_status m = "completed") ->
  processSyncQueue host token d
  = (Returned (0 <? List.length rest)%nat, with_queue rest d).
Proof.
  intros Hqueue [Hgone|[m [Hm Hst]]].
  - exact (processSyncQueue_no_directory host token d localId rest Hqueue
             Hgone).
  - unfold stored_metadata in Hm.
    destruct (pending_uploads d !! localId) as [dir|] eqn:Hdir;
      [|discriminate].
    destruct (dir_lookup "metadata.json" dir) as [[m0|c]|] eqn:Hmeta;
      try discriminate.
    injection Hm as ->.
    exact (processSyncQueue_already_completed host token d localId rest dir
             m Hqueue Hdir Hmeta Hst).
Qed.


Lemma processSyncQueue_skips_stale_entry_witness :
  processSyncQueue quiet_host "token" stale_device
  = (Returned true, with_queue ["local-1000-42"] stale_device).
Proof.
  apply (processSyncQueue_skips_stale_entry quiet_host "token" stale_device
           "local-1-1" ["local-1000-42"]);
    [ vm_compute; reflexivity | left; vm_compute; reflexivity ].
Defined.

End ClientQueue.

Module ClientSave.
Import Js Client ClientSpec ClientSpecMore ClientSamples ClientSamplesMore
  ClientProofs ClientQueue.

(** *** Saving, then loading again *)

Lemma dir_lookup_write_other entry entry' data dir :
  entry <> entry' ->
  dir_lookup entry (dir_write entry' data dir) = dir_lookup entry dir.
Proof.
  intros Hne. induction dir as [|[n old] dir IH]; cbn [dir_write dir_lookup].
  - destruct (String.eqb_spec entry' entry); [congruence|reflexivity].
  - destruct (String.eqb_spec n entry') as [->|Hn]; cbn [dir_lookup].
    + destruct (String.eqb_spec entry' entry); [congruence|reflexivity].
    + destruct (String.eqb n entry); [reflexivity|exact IH].
Qed.

Lemma enqueued_is_queued localId d :
  exists queue,
    sync_queue
      (if bool_decide (localId ∈ default [] (sync_queue d)) then d
       else with_queue (default [] (sync_queue d) ++ [localId])%list d)
    = Some queue
    /\ localId ∈ queue.
Proof.
  destruct (decide (localId ∈ default [] (sync_queue d))) as [Hin|Hout].
  - rewrite bool_decide_eq_true_2 by exact Hin.
    destruct (sync_queue d) as [q|]; [eauto|].
    apply elem_of_nil in Hin. contradiction.
  - rewrite bool_decide_eq_false_2 by exact Hout.
    eexists. split; [reflexivity|].
    apply elem_of_app. right. apply list_elem_of_singleton. reflexivity.
Qed.

Lemma enqueued_keeps_files localId d :
  let d' :=
    if bool_decide (localId ∈ default [] (sync_queue d)) then d
    else with_queue (default [] (sync_queue d) ++ [localId])%list d in
  pending_uploads d' = pending_uploads d /\ files d' = files d.
Proof.
  destruct (bool_decide _); split; reflexivity.
Qed.

(** X21 (on the storage that accepts every write):
    a text item saved by [saveFileLocally] can be loaded again: its
    metadata is stored with status [pending], the id is in the queue, and
    [load_shared_file] rebuilds a shared file with the same name, MIME type
    and text. *)
Theorem saved_text_is_loaded_again host file d shown :
  text file = Some shown -> truthy shown = true ->
  let localId :=
    "local-" ++ show_Z (dclock d) ++ "-"
    ++ show_nat (Math_random_10000 host) in
  pending_uploads d !! localId = None ->
  let d' := snd (saveFileLocally host file d) in
  exists m,
    stored_metadata d' localId = Some m
    /\ md_status m = "pending"
    /\ md_localId m = localId
    /\ load_shared_file host localId m d'
       = (Returned
            (Some (mkSharedFile None (mimeType file) (name file)
                     (Some shown))), d')
    /\ (exists queue, sync_queue d' = Some queue /\ localId ∈ queue)
    /\ files d' = files d.
Proof.
  intros Htext Htruthy localId Hfresh d'. subst d'.
  destruct (saveFileLocally_text host file d shown Htext Htruthy Hfresh)
    as (dirs' & items & Hitems & _ & ->).
  cbv zeta. cbn [snd]. fold localId.
  match goal with
  | |- context [if _ then ?x else _] => set (saved := x)
  end.
  destruct (enqueued_is_queued localId saved) as (queue & Hqueue & Hin).
  destruct (enqueued_keeps_files localId saved) as [Hdirs Hfiles].
  cbv zeta in Hdirs, Hfiles.
  match type of Hqueue with
  | sync_queue ?x = _ => set (d' := x) in *
  end.
  change (if bool_decide (localId ∈ default [] (sync_queue d)) then saved
          else with_queue (default [] (sync_queue d) ++ [localId])%list
                 saved) with d'.
  assert (Hdir : pending_uploads d' !! localId
                 = Some [("metadata.json",
                          MetaFile
                            (mkMetadata (name file) (mimeType file)
                               (Some (generateTextPreview shown 150))
                               None PvText localId (dclock d + 1)
                               "pending" None None None None None));
                         ("content.txt", Blob shown)]).
  { rewrite Hdirs. subst saved. cbn [pending_uploads]. exact Hitems. }
  eexists. split.
  { unfold stored_metadata. unfold ItemDir in *. rewrite Hdir.
    reflexivity. }
  split; [reflexivity|]. split; [reflexivity|]. split.
  { rewrite (load_shared_file_eq host localId _ d' _ Hdir). reflexivity. }
  split; [eauto|].
  rewrite Hfiles. reflexivity.
Qed.

Lemma saved_text_is_loaded_again_witness :
  let d' := snd (saveFileLocally quiet_host short_note_file empty_device) in
  exists m,
    stored_metadata d' "local-1000-42" = Some m
    /\ md_status m = "pending"
    /\ md_localId m = "local-1000-42"
    /\ load_shared_file quiet_host "local-1000-42" m d'
       = (Returned
            (Some (mkSharedFile None (Some "text/plain") (Some "note.txt")
                     (Some "Buy milk. Call the plumber."))), d')
    /\ (exists queue,
          sync_queue d' = Some queue /\ "local-1000-42" ∈ queue)
    /\ files d' = files empty_device.
Proof.
  apply (saved_text_is_loaded_again quiet_host short_note_file empty_device
           "Buy milk. Call the plumber.");
    vm_compute; reflexivity.
Defined.

Lemma copied_source_is_kept (other : gmap string string) target from
  content content' :
  other !! from = Some content ->
  exists kept, <[target := content']> other !! from = Some kept.
Proof.
  intros Hfrom. destruct (decide (target = from)) as [->|Hne].
  - rewrite lookup_insert_eq. eauto.
  - rewrite lookup_insert_ne by exact Hne. eauto.
Qed.

Lemma generatePreview_reliable host file localId d :
  exists preview dirs' files',
    generatePreview host file localId d
    = (Returned preview,
       mkDevice (sync_queue d) (pending_uploads d) files' dirs' (dclock d))
    /\ forall from content,
         files d !! from = Some content ->
         exists kept, files' !! from = Some kept.
Proof.
  unfold generatePreview, bindM, directory_exists, make_directory, accepted,
    try_catchM, copy_file, write_file, ret.
  destruct d as [q items other made clk].
  cbn [sync_queue pending_uploads files directories dclock write_rejected
       reliable_storage].
  destruct (bool_decide (documentDirectory host ++ "previews/" ∈ made));
    cbv beta iota delta [negb];
    cbn [sync_queue pending_uploads files directories dclock];
    (destruct (truthy_opt (text file));
     [do 3 eexists; split; [reflexivity|eauto]|]);
    (match goal with
     | |- context [if ?c then _ else _] =>
         match type of c with bool => destruct c end
     end;
     [|do 3 eexists; split; [reflexivity|eauto]]);
    cbn [sync_queue pending_uploads files directories dclock write_rejected
         reliable_storage];
    destruct (other !! default "" (uri file)) as [source|] eqn:Hsource;
    cbn [sync_queue pending_uploads files directories dclock write_rejected
         reliable_storage];
    do 3 eexists; (split; [reflexivity|]);
    eauto using copied_source_is_kept.
Qed.

Lemma saveFileLocally_uri host file d u n content :
  truthy_opt (text file) = false ->
  uri file = Some u -> truthy u = true ->
  name file = Some n -> truthy n = true ->
  n <> "metadata.json" ->
  files d !! u = Some content ->
  let localId :=
    "local-" ++ show_Z (dclock d) ++ "-"
    ++ show_nat (Math_random_10000 host) in
  pending_uploads d !! localId = None ->
  exists preview kept dirs' files' items,
    items !! localId
    = Some [("metadata.json",
             MetaFile
               (mkMetadata (Some n) (mimeType file) (previewText preview)
                  (thumbnailUri preview) (previewType preview) localId
                  (dclock d + 1) "pending" None None None None None));
            (n, Blob kept)]
    /\ saveFileLocally host file d
       = (Returned (localId, preview),
          let stored :=
            mkDevice (sync_queue d) items files' dirs' (dclock d + 1 + 1) in
          if bool_decide (localId ∈ default [] (sync_queue d)) then stored
          else with_queue (default [] (sync_queue d) ++ [localId])%list
                 stored).
Proof.
  intros Htext Huri Hu Hname Hn Hnm Hsource localId Hfresh.
  destruct (ensurePendingUploadsDir_reliable host d)
    as (dirs1 & Hensure & Hexists).
  unfold saveFileLocally.
  rewrite (bindM_returned _ _ _ _ _ Hensure).
  unfold Date_now at 1. unfold bindM at 1.
  cbn [with_directories sync_queue pending_uploads files directories dclock].
  fold localId.
  match goal with
  | |- context [bindM (make_item_dir host localId) _ ?x] => set (d1 := x)
  end.
  assert (Hmk : make_item_dir host localId d1
                = (Returned tt,
                   mkDevice (sync_queue d1)
                     (<[localId := []]> (pending_uploads d1))
                     (files d1) (directories d1) (dclock d1))).
  { apply make_item_dir_fresh; [|exact Hfresh].
    unfold pending_uploads_exists, with_directories in *.
    subst d1.
    cbn [sync_queue pending_uploads files directories dclock] in *.
    injection Hexists as Hb. rewrite Hb. reflexivity. }
  rewrite (bindM_returned _ _ _ _ _ Hmk).
  subst d1.
  cbn [sync_queue pending_uploads files directories dclock].
  match goal with
  | |- context [bindM (generatePreview host file localId) _ ?x] =>
      destruct (generatePreview_reliable host file localId x)
        as (preview & dirs2 & files2 & Hprev & Hkept)
  end.
  rewrite (bindM_returned _ _ _ _ _ Hprev).
  cbn [sync_queue pending_uploads files directories dclock] in *.
  destruct (Hkept u content Hsource) as [kept Hsource2].
  unfold Date_now at 1. unfold bindM at 1.
  cbn [sync_queue pending_uploads files directories dclock].
  unfold write_metadata, write_entry, accepted.
  unfold bindM at 1.
  cbn [sync_queue pending_uploads files directories dclock write_rejected
       reliable_storage].
  unfold ItemDir in *. rewrite lookup_insert_eq.
  assert (Hfalsy : truthy_opt (text file) = false) by exact Htext.
  rewrite Hfalsy, Huri. cbn [truthy_opt default id]. rewrite Hu.
  unfold prepareFile, copy_into_dir, write_entry, accepted, bindM, ret.
  rewrite Hname, Hfalsy, Huri. cbn [truthy_opt default id]. rewrite Hn, Hu.
  cbv beta iota.
  cbn [fst snd sync_queue pending_uploads files directories dclock
       write_rejected reliable_storage].
  rewrite Hsource2. rewrite lookup_insert_eq.
  rewrite addToSyncQueue_eq.
  unfold ret. cbn [fst snd].
  do 5 eexists. split; [|reflexivity].
  rewrite lookup_insert_eq. cbn [dir_write].
  destruct (String.eqb_spec "metadata.json" n); [congruence|].
  reflexivity.
Qed.

(** X22 (on the storage that accepts every write):
    a file shared by URI whose name ends in [.txt] or [.json], other
    than [content.txt] and [metadata.json], is saved in a form the queue
    cannot upload: its directory holds the metadata and the copy, no
    [content.txt], and no entry that the content filter of
    [processSyncQueue] accepts, so loading it finds no content. *)
Theorem saved_txt_named_file_has_no_content host file d u n content :
  truthy_opt (text file) = false ->
  uri file = Some u -> truthy u = true ->
  name file = Some n -> truthy n = true ->
  is_content_name n = false ->
  n <> "content.txt" -> n <> "metadata.json" ->
  files d !! u = Some content ->
  let localId :=
    "local-" ++ show_Z (dclock d) ++ "-"
    ++ show_nat (Math_random_10000 host) in
  pending_uploads d !! localId = None ->
  let saved := saveFileLocally host file d in
  exists preview dir m,
    fst saved = Returned (localId, preview)
    /\ pending_uploads (snd saved) !! localId = Some dir
    /\ dir_lookup "metadata.json" dir = Some (MetaFile m)
    /\ md_status m = "pending"
    /\ dir_lookup "content.txt" dir = None
    /\ Forall (fun entry => is_content_name entry = false) (map fst dir)
    /\ load_shared_file host localId m (snd saved)
       = (Returned None, snd saved).
Proof.
  intros Htext Huri Hu Hname Hn Hfilter Hnc Hnm Hsource localId Hfresh saved.
  subst saved.
  destruct (saveFileLocally_uri host file d u n content Htext Huri Hu Hname
              Hn Hnm Hsource Hfresh)
    as (preview & kept & dirs' & files' & items & Hitems & ->).
  cbv zeta. cbn [fst snd]. fold localId.
  match goal with
  | |- context [if _ then ?x else _] => set (stored := x)
  end.
  destruct (enqueued_keeps_files localId stored) as [Hdirs Hfiles].
  cbv zeta in Hdirs, Hfiles.
  match type of Hdirs with
  | pending_uploads ?x = _ => set (d' := x) in *
  end.
  change (if bool_decide (localId ∈ default [] (sync_queue d)) then stored
          else with_queue (default [] (sync_queue d) ++ [localId])%list
                 stored) with d'.
  set (m := mkMetadata (Some n) (mimeType file) (previewText preview)
              (thumbnailUri preview) (previewType preview) localId
              (dclock d + 1) "pending" None None None None None) in *.
  assert (Hdir : pending_uploads d' !! localId
                 = Some [("metadata.json", MetaFile m); (n, Blob kept)]).
  { rewrite Hdirs. subst stored. cbn [pending_uploads]. exact Hitems. }
  assert (Hcontent :
    dir_lookup "content.txt" [("metadata.json", MetaFile m); (n, Blob kept)]
    = None).
  { cbn [dir_lookup].
    destruct (String.eqb_spec "metadata.json" "content.txt");
      [discriminate|].
    destruct (String.eqb_spec n "content.txt"); [contradiction|].
    reflexivity. }
  exists preview, [("metadata.json", MetaFile m); (n, Blob kept)], m.
  split; [reflexivity|]. split; [exact Hdir|].
  split; [reflexivity|]. split; [reflexivity|].
  split; [exact Hcontent|].
  split.
  { repeat constructor. exact Hfilter. }
  rewrite (load_shared_file_eq host localId m d' _ Hdir).
  rewrite Hcontent. cbn [map fst List.filter].
  replace (is_content_name "metadata.json") with false by reflexivity.
  rewrite Hfilter. reflexivity.
Qed.

Lemma saved_txt_named_file_has_no_content_witness :
  let saved := saveFileLocally quiet_host shared_txt_file inbox_device in
  exists preview dir m,
    fst saved = Returned ("local-1000-42", preview)
    /\ pending_uploads (snd saved) !! "local-1000-42" = Some dir
    /\ dir_lookup "metadata.json" dir = Some (MetaFile m)
    /\ md_status m = "pending"
    /\ dir_lookup "content.txt" dir = None
    /\ Forall (fun entry => is_content_name entry = false) (map fst dir)
    /\ load_shared_file quiet_host "local-1000-42" m (snd saved)
       = (Returned None, snd saved).
Proof.
  apply (saved_txt_named_file_has_no_content quiet_host shared_txt_file
           inbox_device "/inbox/notes.txt" "notes.txt" "Remember the milk");
    try (vm_compute; reflexivity); vm_compute; discriminate.
Defined.

End ClientSave.

Module ClientBackground.
Import Js Client ClientSpec ClientSpecMore ClientSamples ClientSamplesMore
  ClientProofs ClientQueue ClientSave.

(** *** One run of the queue, and the background driver *)

Lemma processSyncQueue_step host token d head rest :
  sync_queue d = Some (head :: rest) ->
  exists hasMore d',
    processSyncQueue host token d = (Returned hasMore, d')
    /\ files d' = files d
    /\ delete head (pending_uploads d') = delete head (pending_uploads d)
    /\ QueueMove host token head rest hasMore (sync_queue d').
Proof.
  intros Hqueue.
  destruct (pending_uploads d !! head) as [dir|] eqn:Hdir.
  2:{ rewrite (processSyncQueue_no_directory host token d head rest Hqueue
                 Hdir).
      eexists. eexists. split; [reflexivity|].
      repeat split. apply entry_removed. }
  destruct (dir_lookup "metadata.json" dir) as [[m|c]|] eqn:Hmeta.
  2,3: rewrite (processSyncQueue_unreadable host token d head rest dir
                  Hqueue Hdir) by (rewrite Hmeta; discriminate);
       eexists; eexists; split; [reflexivity|]; repeat split;
       rewrite Hqueue; apply stopped_early.
  destruct (String.eqb_spec (md_status m) "completed") as [Hdone|Hopen].
  { rewrite (processSyncQueue_already_completed host token d head rest dir
               m Hqueue Hdir Hmeta Hdone).
    eexists. eexists. split; [reflexivity|].
    repeat split. apply entry_removed. }
  pose proof (load_shared_file_eq host head m d dir Hdir) as Hload.
  match type of Hload with _ = (?o, _) => set (loaded := o) in * end.
  pose proof (processSyncQueue_not_loaded host token d head rest dir m
                Hqueue Hdir Hmeta Hopen loaded Hload) as Hrun.
  destruct loaded as [[sharedFile|]|e].
  2:{ rewrite Hrun. eexists. eexists. split; [reflexivity|].
      cbn [files pending_uploads sync_queue].
      split; [reflexivity|]. split; [apply delete_insert_eq|].
      apply entry_removed. }
  2:{ rewrite Hrun. eexists. eexists. split; [reflexivity|].
      repeat split. rewrite Hqueue. apply stopped_early. }
  clear Hrun.
  rewrite (processSyncQueue_attempts host token d head rest dir m
             sharedFile Hqueue Hdir Hmeta Hopen Hload).
  destruct (handleFileProcess host sharedFile token) as [updates result]
    eqn:Hcall.
  assert (Htail : (0 <? List.length (rest ++ [head]))%nat = true).
  { rewrite length_app. cbn [List.length]. apply Nat.ltb_lt. lia. }
  destruct result as [r|e].
  - destruct (String.eqb_spec (ur_status r) "completed") as [Hc|Hc].
    { rewrite (upload_attempt_completed host token d head rest dir m
                 sharedFile Hdir updates _ Hcall (reliable_accepts _)
                 (reliable_accepts _) r eq_refl Hc).
      eexists. eexists. split; [reflexivity|].
      cbn [device queue files pending_uploads sync_queue].
      split; [reflexivity|]. split; [apply delete_insert_eq|].
      apply entry_removed. }
    destruct (String.eqb_spec (ur_status r) "error") as [He|He].
    { rewrite (upload_attempt_error host token d head rest dir m
                 sharedFile Hdir updates _ Hcall (reliable_accepts _)
                 (reliable_accepts _) r eq_refl He).
      cbn [device queue]. rewrite Htail.
      eexists. eexists. split; [reflexivity|].
      cbn [files pending_uploads sync_queue].
      split; [reflexivity|]. split; [apply delete_insert_eq|].
      eapply entry_moved_to_tail; [exact Hcall|].
      apply failed_result. exact He. }
    rewrite (upload_attempt_unfinished host token d head rest m sharedFile
               updates r Hcall Hc He).
    cbn [device queue].
    eexists. eexists. split; [reflexivity|].
    cbn [files pending_uploads sync_queue].
    split; [reflexivity|]. split; [reflexivity|].
    rewrite Hqueue.
    exact (attempt_unfinished host token head rest sharedFile updates r
             Hcall Hc He).
  - rewrite (upload_attempt_threw host token d head rest dir m
               sharedFile Hdir updates _ Hcall (reliable_accepts _)
               (reliable_accepts _) e eq_refl).
    cbn [device queue]. rewrite Htail.
    eexists. eexists. split; [reflexivity|].
    cbn [files pending_uploads sync_queue].
    split; [reflexivity|]. split; [apply delete_insert_eq|].
    eapply entry_moved_to_tail; [exact Hcall|].
    apply failed_thrown.
Qed.

Lemma completing_host_shrinks_queue host token d :
  always_answers host "completed" ->
  forall d', processSyncQueue host token d = (Returned true, d') ->
  (List.length (default [] (sync_queue d'))
   < List.length (default [] (sync_queue d)))%nat.
Proof.
  intros Halways d' Hrun.
  destruct (sync_queue d) as [[|head rest]|] eqn:Hqueue.
  - rewrite processSyncQueue_idle in Hrun by (right; exact Hqueue).
    discriminate.
  - destruct (processSyncQueue_step host token d head rest Hqueue)
      as (hasMore & d'' & Heq & _ & _ & Hmove).
    rewrite Heq in Hrun. injection Hrun as -> ->.
    inversion Hmove as [ | sf updates r Hcall Hc He | Hmore Hq
                       | sf updates result reason Hcall Hfail ].
    + destruct (Halways sf token) as (updates' & r' & Hcall' & Hst).
      rewrite Hcall in Hcall'. injection Hcall' as _ ->. contradiction.
    + cbn [default id List.length]. lia.
    + destruct (Halways sf token) as (updates' & r' & Hcall' & Hst).
      rewrite Hcall in Hcall'. injection Hcall' as _ ->.
      inversion Hfail as [r Herr Hr Hreason|]; subst.
      rewrite Hst in Herr. discriminate.
  - rewrite processSyncQueue_idle in Hrun by (left; exact Hqueue).
    discriminate.
Qed.

Lemma background_runs_drain host token :
  always_answers host "completed" ->
  forall n d,
    (List.length (default [] (sync_queue d)) <= n)%nat ->
    fst (background_runs (S n) host token (false, d)) = false.
Proof.
  intros Halways. induction n as [|n IH]; intros d Hlen.
  - cbn [background_runs processNextItem].
    destruct (processSyncQueue host token d) as [[[|]|e] d'] eqn:Hrun;
      try reflexivity.
    apply (completing_host_shrinks_queue host token d Halways) in Hrun. lia.
  - change (background_runs (S (S n)) host token (false, d))
      with (let '(armed, state') := processNextItem host token (false, d) in
            if armed then background_runs (S n) host token state'
            else (false, state')).
    cbn [processNextItem].
    destruct (processSyncQueue host token d) as [[[|]|e] d'] eqn:Hrun;
      try reflexivity.
    apply IH.
    apply (completing_host_shrinks_queue host token d Halways) in Hrun. lia.
Qed.

(** X24 (on the storage that accepts every write):
    when the upload path always completes, the background driver
    stops re-arming its timer after at most one run per queued entry, and
    one more. *)
Theorem startBackgroundSync_drains_the_queue host token d n :
  always_answers host "completed" ->
  (List.length (default [] (sync_queue d)) <= n)%nat ->
  fst (startBackgroundSync (S n) host token d) = false.
Proof.
  intros Halways Hlen. unfold startBackgroundSync.
  pose proof (background_runs_drain host token Halways n d Hlen) as Hruns.
  destruct (background_runs (S n) host token (false, d))
    as [armed [flag d']].
  exact Hruns.
Qed.

Lemma startBackgroundSync_drains_the_queue_witness :
  fst (startBackgroundSync 3 quiet_host "token" two_notes_device) = false.
Proof.
  apply (startBackgroundSync_drains_the_queue quiet_host "token"
           two_notes_device 2).
  - intros sharedFile token. eexists. eexists. split; reflexivity.
  - vm_compute. lia.
Defined.

Lemma failing_host_keeps_lone_entry host token localId d :
  always_answers host "error" ->
  lone_text_entry localId d ->
  exists d',
    processSyncQueue host token d = (Returned true, d')
    /\ lone_text_entry localId d'.
Proof.
  intros Halways (Hqueue & dir & m & content & Hdir & Hmeta & Hopen & Hc).
  pose proof (load_shared_file_eq host localId m d dir Hdir) as Hload.
  rewrite Hc in Hload.
  rewrite (processSyncQueue_attempts host token d localId [] dir m
             _ Hqueue Hdir Hmeta Hopen Hload).
  destruct (Halways
              (mkSharedFile None (md_mimeType m) (md_name m) (Some content))
              token) as (updates & r & Hcall & Hst).
  rewrite (upload_attempt_error host token d localId [] dir m
             _ Hdir updates _ Hcall (reliable_accepts _) (reliable_accepts _) r
             eq_refl Hst).
  cbn [device queue app List.length Nat.ltb Nat.leb].
  eexists. split; [reflexivity|].
  split; [reflexivity|].
  eexists. eexists. exists content.
  cbn [pending_uploads]. rewrite lookup_insert_eq.
  split; [reflexivity|].
  split; [apply dir_lookup_write|].
  split; [cbn; discriminate|].
  rewrite dir_lookup_write_other by discriminate. exact Hc.
Qed.

(** X25 (on the storage that accepts every write):
    when the upload path always answers [error], a queue holding a
    single text entry never drains: after any number of runs the background
    driver has its timer armed again and the entry is still the only one in
    the queue, unfinished and with its content. *)
Theorem startBackgroundSync_retries_forever host token localId d n :
  always_answers host "error" ->
  lone_text_entry localId d ->
  exists d',
    startBackgroundSync n host token d = (true, d')
    /\ lone_text_entry localId d'.
Proof.
  intros Halways. unfold startBackgroundSync.
  revert d. induction n as [|n IH]; intros d Hlone.
  - exists d. split; [reflexivity|exact Hlone].
  - destruct (failing_host_keeps_lone_entry host token localId d Halways
                Hlone) as (d1 & Hrun & Hlone1).
    cbn [background_runs processNextItem]. rewrite Hrun.
    exact (IH d1 Hlone1).
Qed.

Lemma startBackgroundSync_retries_forever_witness :
  exists d',
    startBackgroundSync 5 (host_answering (Returned quota_error)) "token"
      one_note_device = (true, d')
    /\ lone_text_entry "local-1000-42" d'.
Proof.
  apply (startBackgroundSync_retries_forever
           (host_answering (Returned quota_error)) "token" "local-1000-42"
           one_note_device 5).
  - intros sharedFile token. eexists. eexists. split; reflexivity.
  - split; [vm_compute; reflexivity|].
    eexists. eexists. eexists.
    split; [vm_compute; reflexivity|].
    split; [vm_compute; reflexivity|].
    split; [vm_compute; discriminate|].
    vm_compute; reflexivity.
Defined.


(** *** One run on a storage that may reject writes *)

Section AnyStorage.

Context {storage : Storage}.
Variables (host : Host) (token : string) (d : Device).
Variables (head : string) (rest : list string).
Hypothesis Hqueue : sync_queue d = Some (head :: rest).



End AnyStorage.




End ClientBackground.


Module ClientHelpers.
Import Js Client ClientSpec ClientSpecMore ClientSamples ClientSamplesMore
  ClientProofs.

(** *** Screening, escaping, listing and preparing *)

Lemma lower_ascii_idempotent c : lower_ascii (lower_ascii c) = lower_ascii c.
Proof. destruct c as [[] [] [] [] [] [] [] []]; reflexivity. Qed.

Lemma toLowerCase_idempotent s : toLowerCase (toLowerCase s) = toLowerCase s.
Proof.
  induction s as [|c s IH]; [reflexivity|].
  cbn [toLowerCase]. rewrite lower_ascii_idempotent, IH. reflexivity.
Qed.

Lemma truthy_toLowerCase s : truthy (toLowerCase s) = truthy s.
Proof. destruct s; reflexivity. Qed.

Lemma screen_terms_flagged text terms :
  isAppropriate (screen_terms text terms) = false
  <-> exists term, term ∈ terms /\ includes (toLowerCase text) term = true.
Proof.
  induction terms as [|term terms IH]; cbn [screen_terms].
  - split; [discriminate|]. intros (term & Hin & _).
    apply elem_of_nil in Hin. contradiction.
  - destruct (includes (toLowerCase text) term) eqn:Hterm.
    + split; [|reflexivity]. intros _. exists term. split; [left|exact Hterm].
    + rewrite IH. split.
      * intros (t & Hin & Ht). exists t. split; [right; exact Hin|exact Ht].
      * intros (t & Hin & Ht). apply elem_of_cons in Hin as [->|Hin].
        -- congruence.
        -- eauto.
Qed.

Lemma screen_terms_reason text terms :
  isAppropriate (screen_terms text terms) = true ->
  reason (screen_terms text terms) = None.
Proof.
  induction terms as [|term terms IH]; cbn [screen_terms]; [reflexivity|].
  destruct (includes (toLowerCase text) term); [discriminate|exact IH].
Qed.

(** X26: [moderateContent] rejects a text exactly when its lower-case form
    contains one of the four listed terms; an accepted text carries no
    reason; and the verdict does not depend on the letter case of the
    text. *)
Theorem moderateContent_flags_listed_terms text :
  (isAppropriate (moderateContent text) = false
   <-> exists t term,
         text = Some t /\ term ∈ checkTerms
         /\ includes (toLowerCase t) term = true)
  /\ (isAppropriate (moderateContent text) = true
      -> reason (moderateContent text) = None)
  /\ moderateContent (option_map toLowerCase text) = moderateContent text.
Proof.
  unfold moderateContent. destruct text as [t|]; cbn [truthy_opt option_map].
  - rewrite truthy_toLowerCase.
    destruct (truthy t) eqn:Ht; cbn [negb default id].
    + split; [|split].
      * rewrite screen_terms_flagged. split.
        -- intros (term & Hin & Hterm). eauto.
        -- intros (t' & term & [= <-] & Hin & Hterm). eauto.
      * apply screen_terms_reason.
      * unfold checkTerms. cbn [screen_terms].
        rewrite toLowerCase_idempotent. reflexivity.
    + split; [|split; reflexivity].
      split; [discriminate|].
      intros (t' & term & [= <-] & Hin & Hterm).
      apply String.eqb_eq in Ht || (unfold truthy in Ht;
        apply negb_false_iff in Ht; apply String.eqb_eq in Ht).
      subst t. unfold checkTerms in Hin.
      repeat (apply elem_of_cons in Hin as [->|Hin]; [discriminate|]).
      apply elem_of_nil in Hin. contradiction.
  - split; [|split; reflexivity].
    split; [discriminate|]. intros (t' & term & [=] & _).
Qed.

Lemma backslash_is_special : is_regexp_special "\"%char = true.
Proof. reflexivity. Qed.

(** X27: [escapeRegExp] loses nothing: two strings have the same escaped
    form exactly when they are equal (the backslash it inserts is itself
    one of the escaped characters). *)
Theorem escapeRegExp_loses_nothing s t :
  String.eqb (escapeRegExp s) (escapeRegExp t) = String.eqb s t.
Proof.
  revert t. induction s as [|c s IH]; intros [|c' t].
  - reflexivity.
  - cbn [escapeRegExp]. destruct (is_regexp_special c'); reflexivity.
  - cbn [escapeRegExp]. destruct (is_regexp_special c); reflexivity.
  - cbn [escapeRegExp].
    destruct (is_regexp_special c) eqn:Hc, (is_regexp_special c') eqn:Hc';
      cbn [String.eqb].
    + rewrite Ascii.eqb_refl. rewrite IH. reflexivity.
    + destruct (Ascii.eqb_spec "\"%char c') as [<-|Hne].
      * rewrite backslash_is_special in Hc'. discriminate.
      * destruct (Ascii.eqb_spec c c') as [->|_]; [congruence|reflexivity].
    + destruct (Ascii.eqb_spec c "\"%char) as [->|Hne].
      * rewrite backslash_is_special in Hc. discriminate.
      * destruct (Ascii.eqb_spec c c') as [->|_]; [congruence|reflexivity].
    + rewrite IH. reflexivity.
Qed.

Lemma insert_newest_first_perm x l : insert_newest_first x l ≡ₚ x :: l.
Proof.
  induction l as [|y l IH]; cbn [insert_newest_first]; [reflexivity|].
  destruct (lf_createdAt y <=? lf_createdAt x)%Z; [reflexivity|].
  rewrite IH. apply Permutation_swap.
Qed.

Lemma sort_newest_first_perm l : sort_newest_first l ≡ₚ l.
Proof.
  unfold sort_newest_first.
  induction l as [|x l IH]; cbn [foldr]; [reflexivity|].
  rewrite insert_newest_first_perm, IH. reflexivity.
Qed.

Lemma not_older_trans x y z : not_older x y -> not_older y z -> not_older x z.
Proof. unfold not_older. lia. Qed.

Lemma insert_newest_first_sorted x l :
  newest_first l -> newest_first (insert_newest_first x l).
Proof.
  induction l as [|y l IH]; cbn [insert_newest_first newest_first].
  - intros _. split; [constructor|exact I].
  - intros [Hy Hl].
    destruct (Z.leb_spec (lf_createdAt y) (lf_createdAt x)) as [Hle|Hlt].
    + cbn [newest_first]. split; [|split; assumption].
      constructor; [exact Hle|].
      eapply Forall_impl; [exact Hy|].
      intros z Hz. eapply not_older_trans; [exact Hle|exact Hz].
    + cbn [newest_first]. split; [|exact (IH Hl)].
      rewrite insert_newest_first_perm.
      constructor; [unfold not_older; lia|exact Hy].
Qed.

Lemma sort_newest_first_sorted l : newest_first (sort_newest_first l).
Proof.
  unfold sort_newest_first.
  induction l as [|x l IH]; cbn [foldr]; [exact I|].
  apply insert_newest_first_sorted. exact IH.
Qed.

(** X28: whatever the storage rejects, [getLocalFiles] never throws; it
    changes nothing on the device except that it creates the
    [pending_uploads/] directory when that is missing (and then only when
    the storage accepts it); and it lists, newest first, exactly the item
    directories whose [metadata.json] can be read, each once, leaving out
    the others. *)
Theorem getLocalFiles_lists_newest_first (storage : Storage) host d :
  exists listed d',
    getLocalFiles host d = (Returned listed, d')
    /\ (d' = d
        \/ ((documentDirectory host ++ "pending_uploads/" ∉ directories d)
            /\ pending_uploads d = ∅
            /\ write_rejected
                 (Directory (documentDirectory host ++ "pending_uploads/"))
                 (dclock d) = None
            /\ d' = with_directories
                      (({[ documentDirectory host ++ "pending_uploads/" ]}
                        : gset string) ∪ directories d) d))
    /\ newest_first listed
    /\ listed ≡ₚ omap list_entry (map_to_list (pending_uploads d))
    /\ forall f,
         f ∈ listed
         <-> exists dir items m,
               pending_uploads d !! dir = Some items
               /\ dir_lookup "metadata.json" items = Some (MetaFile m)
               /\ f = local_file_of dir m.
Proof.
  assert (Hlisted :
    forall listed,
      listed = sort_newest_first
                 (omap list_entry (map_to_list (pending_uploads d))) ->
      newest_first listed
      /\ listed ≡ₚ omap list_entry (map_to_list (pending_uploads d))
      /\ forall f,
           f ∈ listed
           <-> exists dir items m,
                 pending_uploads d !! dir = Some items
                 /\ dir_lookup "metadata.json" items = Some (MetaFile m)
                 /\ f = local_file_of dir m).
  { intros listed ->.
    split; [apply sort_newest_first_sorted|].
    split; [apply sort_newest_first_perm|].
    intros f. rewrite sort_newest_first_perm. rewrite list_elem_of_omap.
    split.
    - intros ([dir items] & Hin & Hentry).
      apply elem_of_map_to_list in Hin.
      unfold list_entry in Hentry. cbn [fst snd] in Hentry.
      destruct (dir_lookup "metadata.json" items) as [[m|c]|] eqn:Hmeta;
        try discriminate.
      injection Hentry as <-. eauto 6.
    - intros (dir & items & m & Hdir & Hmeta & ->).
      exists (dir, items). split; [apply elem_of_map_to_list; exact Hdir|].
      unfold list_entry. cbn [fst snd]. rewrite Hmeta. reflexivity. }
  pose proof (Hlisted _ eq_refl) as Hl. clear Hlisted.
  cbv beta iota zeta delta [getLocalFiles try_catchM bindM
    ensurePendingUploadsDir pending_uploads_exists make_directory accepted
    read_pending_uploads ret].
  destruct (bool_decide
              (documentDirectory host ++ "pending_uploads/" ∈ directories d))
    eqn:Hmade; cbv beta iota delta [orb negb].
  { do 2 eexists. split; [reflexivity|]. split; [left; reflexivity|].
    exact Hl. }
  destruct (map_to_list (pending_uploads d)) as [|entry entries] eqn:Hitems;
    cbv beta iota delta [negb].
  2:{ do 2 eexists. split; [reflexivity|]. split; [left; reflexivity|].
      rewrite ?Hitems; exact Hl. }
  destruct (write_rejected
              (Directory (documentDirectory host ++ "pending_uploads/"))
              (dclock d)) as [e|] eqn:Hw; cbv beta iota.
  - do 2 eexists. split; [reflexivity|]. split; [left; reflexivity|].
    rewrite ?Hitems; exact Hl.
  - cbn [pending_uploads]. rewrite Hitems.
    do 2 eexists. split; [reflexivity|].
    split; [|rewrite ?Hitems; exact Hl].
    right. split; [apply (proj1 (bool_decide_eq_false _)); exact Hmade|].
    split; [apply map_to_list_empty_iff; exact Hitems|].
    split; [first [exact Hw|reflexivity]|reflexivity].
Qed.

Lemma mime_of_extension_truthy ext : truthy (mime_of_extension ext) = true.
Proof.
  unfold mime_of_extension. destruct ext as [e|]; [|reflexivity].
  repeat match goal with
         | |- context [if ?c then _ else _] => destruct c
         end; reflexivity.
Qed.


(** X29: when [prepareFile] returns, the file name and the MIME type are
    never empty, the queue, the item directories and the directories are as
    before, and for a file with text the storage accepted the write of
    the text to the cache file [cacheDirectory ++ fileName], which is also
    the location returned; a file without text writes nothing.  It throws
    only for a file with text, with what the storage rejected for the write
    of the cache file, and then nothing was written. *)
Theorem prepareFile_names_and_types (storage : Storage) host file d :
  match prepareFile host file d with
  | (Returned (fileName, mimeType_, fileUri), d') =>
      truthy fileName = true /\ truthy mimeType_ = true
      /\ sync_queue d' = sync_queue d
      /\ pending_uploads d' = pending_uploads d
      /\ directories d' = directories d
      /\ (if truthy_opt (text file)
          then write_rejected (PlainFile (cacheDirectory host ++ fileName))
                 (dclock d') = None
               /\ fileUri = Some (cacheDirectory host ++ fileName)
               /\ files d'
                  = <[cacheDirectory host ++ fileName
                      := default "" (text file)]> (files d)
          else files d' = files d)
  | (Threw e, d') =>
      truthy_opt (text file) = true
      /\ (exists fileName,
            truthy fileName = true
            /\ write_rejected (PlainFile (cacheDirectory host ++ fileName))
                 (dclock d') = Some e)
      /\ sync_queue d' = sync_queue d
      /\ pending_uploads d' = pending_uploads d
      /\ directories d' = directories d
      /\ files d' = files d
  end.
Proof.
  cbv beta iota zeta delta [prepareFile bindM Date_now write_file accepted
    ret].
  set (mimeType_ :=
         if truthy_opt (mimeType file) then default "" (mimeType file)
         else if truthy_opt (uri file)
         then mime_of_extension
                (option_map toLowerCase
                   (last_part (split (default "" (uri file)) ".")))
         else "application/octet-stream").
  assert (Hmime : truthy mimeType_ = true).
  { subst mimeType_. destruct (mimeType file) as [m|]; cbn [truthy_opt].
    - destruct (truthy m) eqn:Hm; [exact Hm|].
      destruct (truthy_opt (uri file));
        [apply mime_of_extension_truthy|reflexivity].
    - destruct (truthy_opt (uri file));
        [apply mime_of_extension_truthy|reflexivity]. }
  assert (Hname : truthy_opt (name file) = true ->
                  truthy (default "" (name file)) = true).
  { destruct (name file); [intros H; exact H|discriminate]. }
  destruct (truthy_opt (name file)); [specialize (Hname eq_refl)|clear Hname];
    cbv beta iota;
    cbn [sync_queue pending_uploads files directories dclock];
    destruct (truthy_opt (text file)); cbv beta iota;
    cbn [sync_queue pending_uploads files directories dclock].
  - destruct (write_rejected
                (PlainFile (cacheDirectory host ++ default "" (name file)))
                (dclock d)) as [e|] eqn:Hw;
      cbn [sync_queue pending_uploads files directories dclock].
    + split; [reflexivity|]. split; [eauto|]. repeat split; reflexivity.
    + repeat split; first [assumption|reflexivity].
  - destruct (truthy_opt (uri file)); cbv beta iota;
      repeat split; first [assumption|reflexivity].
  - match goal with
    | |- context [PlainFile (cacheDirectory host ++ ?n)] =>
        assert (Hmade : truthy n = true) by reflexivity;
        destruct (write_rejected (PlainFile (cacheDirectory host ++ n))
                    (dclock d + 1)) as [e|] eqn:Hw
    end;
      cbn [sync_queue pending_uploads files directories dclock].
    + split; [reflexivity|]. split; [eauto|]. repeat split; reflexivity.
    + repeat split; first [assumption|reflexivity].
  - destruct (truthy_opt (uri file)); cbv beta iota;
      cbn [sync_queue pending_uploads files directories dclock];
      repeat split; first [assumption|reflexivity].
Qed.

(** X30: [generatePreview] leaves the queue, the item directories and the
    clock alone.  It throws exactly when the [previews/] directory is
    missing and the storage rejects its creation; then nothing is changed.
    Otherwise it returns a preview and [previews/] exists afterwards.  A
    text preview and the fallback preview write no file; an image preview
    means the source could be read and its copy to the thumbnail location
    was accepted; an image whose copy fails falls back to the file name. *)
Theorem generatePreview_kinds (storage : Storage) host file localId d :
  let previewsDir := documentDirectory host ++ "previews/" in
  let thumbnail := previewsDir ++ localId ++ "-thumb.jpg" in
  let missing := negb (bool_decide (previewsDir ∈ directories d)) in
  match (if missing then write_rejected (Directory previewsDir) (dclock d)
         else None) with
  | Some e => generatePreview host file localId d = (Threw e, d)
  | None =>
      exists preview d',
        generatePreview host file localId d = (Returned preview, d')
        /\ sync_queue d' = sync_queue d
        /\ pending_uploads d' = pending_uploads d
        /\ dclock d' = dclock d
        /\ directories d'
           = (if missing then {[ previewsDir ]} ∪ directories d
              else directories d)
        /\ match previewType preview with
           | PvText =>
               files d' = files d
               /\ exists t,
                    text file = Some t /\ truthy t = true
                    /\ previewText preview
                       = Some (generateTextPreview t 150)
           | PvImage =>
               exists u content,
                 uri file = Some u /\ files d !! u = Some content
                 /\ write_rejected (PlainFile thumbnail) (dclock d) = None
                 /\ thumbnailUri preview = Some thumbnail
                 /\ files d' = <[thumbnail := content]> (files d)
           | PvOther =>
               files d' = files d
               /\ previewText preview
                  = Some (or_default (name file) "File")
           end
  end.
Proof.
  intros previewsDir thumbnail missing. subst missing.
  unfold generatePreview, bindM, directory_exists, make_directory, accepted,
    try_catchM, copy_file, write_file, accepted, ret.
  fold previewsDir. fold thumbnail.
  destruct (bool_decide (previewsDir ∈ directories d));
    cbv beta iota delta [negb];
    [|destruct (write_rejected (Directory previewsDir) (dclock d));
      [reflexivity|]];
    cbn [sync_queue pending_uploads files directories dclock].
  all: destruct (text file) as [t|] eqn:Htext; cbn [truthy_opt default id];
    [destruct (truthy t) eqn:Ht;
     [do 2 eexists; (split; [reflexivity|]);
      cbn [sync_queue pending_uploads files directories dclock previewType
           previewText];
      repeat (split; [reflexivity|]); eauto|]|].
  all: match goal with
       | |- context [if ?c then _ else _] =>
           match type of c with bool => destruct c eqn:Himage end
       end;
    [|do 2 eexists; (split; [reflexivity|]);
      cbn [sync_queue pending_uploads files directories dclock previewType
           previewText];
      repeat (split; [reflexivity|]); reflexivity].
  all: destruct (uri file) as [u|] eqn:Huri; [|discriminate];
    cbn [default id sync_queue pending_uploads files directories dclock];
    destruct (files d !! u) as [content|] eqn:Hsource;
    cbn [sync_queue pending_uploads files directories dclock];
    try destruct (write_rejected (PlainFile thumbnail) (dclock d)) eqn:Hw;
    do 2 eexists; (split; [reflexivity|]);
    cbn [sync_queue pending_uploads files directories dclock previewType
         previewText thumbnailUri];
    repeat (split; [reflexivity|]);
    first [ reflexivity
          | exists u, content; repeat split; first [assumption|reflexivity] ].
Qed.

End ClientHelpers.
